(** * SimpleITK notebooks: resampling arithmetic, registration driver,
      interpolator demonstration

    A shallow embedding of the Python code of
    [Python/64_Registration_Memory_Time_Tradeoff.ipynb] and
    [Python/20_Expand_With_Interpolators.ipynb].

    - Python [float] is IEEE 754 binary64; it is modelled by the Standard
      Library's [spec_float] with precision 53 and maximal exponent 1024,
      so that [/] and [*] round to nearest-even exactly as CPython does.
    - Python [int] is [Z].
    - Exceptions are an explicit result type; the code of the notebooks
      runs in a state-and-exception monad over a world made of the
      outside environment, the store of transform objects and the trace
      of the library calls made so far.
    - The wrapped libraries (SimpleITK, numpy, matplotlib, ipywidgets and
      the two helper modules) are an interface: every call into them is
      answered by an arbitrary handler, and is recorded in the trace. *)

From Stdlib Require Import ZArith QArith Qabs Qround Qpower Lia List String Bool.
From Stdlib Require Import Floats.SpecFloat.
From Stdlib Require Import Reals Lra.
Import ListNotations.

Local Open Scope Z_scope.

(** ** Python exceptions and results *)

(** The exceptions the notebook code can see: the ones the Python
    operators of the cells raise themselves, the one the SimpleITK wrapper
    raises on a dimension mismatch ([RuntimeError]), and whatever a library
    call raises (an opaque payload [E]).  [ReferenceError] stands for the
    use of an object that is not in the store; code whose references all
    come from allocation never raises it. *)
Inductive Exn (E : Type) : Type :=
| ZeroDivisionError
| OverflowError
| ValueError
| IndexError
| RuntimeError
| ReferenceError
| LibraryError (e : E).

Arguments ZeroDivisionError {E}.
Arguments OverflowError {E}.
Arguments ValueError {E}.
Arguments IndexError {E}.
Arguments RuntimeError {E}.
Arguments ReferenceError {E}.
Arguments LibraryError {E} e.

Inductive Result (E A : Type) : Type :=
| Ok (a : A)
| Raise (e : Exn E).

Arguments Ok {E A} a.
Arguments Raise {E A} e.

Definition rbind {E A B} (r : Result E A) (k : A -> Result E B) : Result E B :=
  match r with
  | Ok a => k a
  | Raise e => Raise e
  end.

(** ** Python floats (binary64) *)

Module Float64.

Definition prec : Z := 53.
Definition emax : Z := 1024.

Definition float := spec_float.

Definition fdiv_ieee : float -> float -> float := SFdiv prec emax.
Definition fmul : float -> float -> float := SFmul prec emax.
Definition fadd : float -> float -> float := SFadd prec emax.
Definition fsub : float -> float -> float := SFsub prec emax.
Definition fltb : float -> float -> bool := SFltb.

(** [float(n)] for a Python int: correctly rounded, [OverflowError] when
    the integer is too large for a double. *)
Definition of_int {E} (n : Z) : Result E float :=
  match binary_normalize prec emax n 0 false with
  | S754_infinity _ => Raise OverflowError
  | f => Ok f
  end.

Definition is_zero (x : float) : bool :=
  match x with
  | S754_zero _ => true
  | _ => false
  end.

(** [x / y]: Python raises [ZeroDivisionError] on a zero divisor, and is
    IEEE division otherwise. *)
Definition truediv {E} (x y : float) : Result E float :=
  if is_zero y then Raise ZeroDivisionError else Ok (fdiv_ieee x y).

(** [x * n], [x / n], [n + x], [n - x], [n * x] with [n] an int: the int
    is converted first. *)
Definition mul_int {E} (x : float) (n : Z) : Result E float :=
  rbind (of_int n) (fun y => Ok (fmul x y)).

Definition div_int {E} (x : float) (n : Z) : Result E float :=
  rbind (of_int n) (fun y => truediv x y).

Definition int_add {E} (n : Z) (x : float) : Result E float :=
  rbind (of_int n) (fun y => Ok (fadd y x)).

Definition int_sub {E} (n : Z) (x : float) : Result E float :=
  rbind (of_int n) (fun y => Ok (fsub y x)).

Definition int_mul {E} (n : Z) (x : float) : Result E float :=
  rbind (of_int n) (fun y => Ok (fmul y x)).

(** [int(x)]: truncation toward zero; [OverflowError] on an infinity,
    [ValueError] on a NaN. *)
Definition to_int {E} (x : float) : Result E Z :=
  match x with
  | S754_zero _ => Ok 0
  | S754_infinity _ => Raise OverflowError
  | S754_nan => Raise ValueError
  | S754_finite s m e =>
      Ok (cond_Zopp s (if 0 <=? e then Z.shiftl (Zpos m) e
                       else Z.shiftr (Zpos m) (- e)))
  end.

(** The exact rational value of a finite float (0 for the others). *)
Definition to_Q (x : float) : Q :=
  match x with
  | S754_finite s m e => inject_Z (cond_Zopp s (Zpos m)) * Qpower 2 e
  | _ => 0%Q
  end.

(** A strictly positive finite float. *)
Definition is_pos (x : float) : bool :=
  match x with
  | S754_finite false _ _ => true
  | _ => false
  end.

(** Floats that are not negative: [+0], a positive finite number, [+inf];
    a NaN has no sign. *)
Definition not_negative (x : float) : bool :=
  match x with
  | S754_zero s | S754_infinity s | S754_finite s _ _ => negb s
  | S754_nan => true
  end.

(** The literals of the notebooks, as the doubles CPython reads them. *)
Definition f0_0 : float := S754_zero false.
Definition f1_0 : float := S754_finite false 4503599627370496 (-52).
Definition f2_0 : float := S754_finite false 4503599627370496 (-51).
Definition f6_0 : float := S754_finite false 6755399441055744 (-50).
Definition f0_01 : float := S754_finite false 5764607523034235 (-59).
Definition f0_05 : float := S754_finite false 7205759403792794 (-57).
Definition f0_25 : float := S754_finite false 4503599627370496 (-54).
Definition f0_5 : float := S754_finite false 4503599627370496 (-53).
Definition f1_25 : float := S754_finite false 5629499534213120 (-52).
Definition f1_5 : float := S754_finite false 6755399441055744 (-52).
Definition f4_0 : float := S754_finite false 4503599627370496 (-50).
(** [math.pi] *)
Definition math_pi : float := S754_finite false 7074237752028440 (-51).
(** [11 / 7], that is 1.5714285714285714: the double just below 11/7. *)
Definition f11_7 : float := S754_finite false 7077085128725065 (-52).

End Float64.

Import Float64.

(** Truncation toward zero of a rational. *)
Definition Qtrunc (q : Q) : Z :=
  if Qle_bool 0 q then Qfloor q else Qceiling q.

(** [n] is a nearest integer of [q]: no integer is strictly closer. *)
Definition nearest_integer (q : Q) (n : Z) : Prop :=
  forall k : Z, (Qabs (q - inject_Z n) <= Qabs (q - inject_Z k))%Q.

(** The size in the words of the specification: the nearest-integer
    rounding of original spacing / new spacing x original size. *)
Definition spec_rounded_size (spacing new_s : float) (size k : Z) : Prop :=
  nearest_integer (to_Q spacing / to_Q new_s * inject_Z size) k.

(** ** The resampling-size computation

<<
resampled_image_size = [
    int(spacing / new_s * size)
    for spacing, size, new_s in zip(original_spacing, original_size, new_spacing)
]
>> *)

(** The double [spacing / new_s * size]. *)
Definition computed_extent {E} (spacing : float) (size : Z) (new_s : float)
  : Result E float :=
  rbind (truediv spacing new_s) (fun q => mul_int q size).

Definition resampled_size_dim {E} (spacing : float) (size : Z) (new_s : float)
  : Result E Z :=
  rbind (computed_extent spacing size new_s) to_int.

(** Python's [zip] of three sequences stops at the shortest one. *)
Fixpoint zip3 {A B C} (xs : list A) (ys : list B) (zs : list C)
  : list (A * B * C) :=
  match xs, ys, zs with
  | x :: xs', y :: ys', z :: zs' => (x, y, z) :: zip3 xs' ys' zs'
  | _, _, _ => []
  end.

(** A list comprehension whose body may raise: elements are evaluated
    left to right and the first exception ends the evaluation. *)
Fixpoint comprehension {E A B} (f : A -> Result E B) (l : list A)
  : Result E (list B) :=
  match l with
  | [] => Ok []
  | a :: l' => rbind (f a) (fun b =>
               rbind (comprehension f l') (fun bs => Ok (b :: bs)))
  end.

Definition resampled_image_size {E}
  (original_spacing : list float) (original_size : list Z)
  (new_spacing : list float) : Result E (list Z) :=
  comprehension
    (fun '(spacing, size, new_s) => resampled_size_dim spacing size new_s)
    (zip3 original_spacing original_size new_spacing).

(** [[1.0] * dim] *)
Definition isotropic_spacing (dim : nat) : list float := repeat f1_0 dim.

(** ** SimpleITK enumerations used by the notebooks *)

Inductive Interpolator : Type :=
| sitkNearestNeighbor
| sitkLinear
| sitkBSpline
| sitkGaussian
| sitkHammingWindowedSinc
| sitkBlackmanWindowedSinc
| sitkCosineWindowedSinc
| sitkWelchWindowedSinc
| sitkLanczosWindowedSinc.

Inductive PixelID : Type :=
| sitkUnknown
| sitkUInt8
| sitkInt16
| sitkFloat32
| sitkFloat64
| sitkVectorFloat32.

(** The interpolation rules the glossary of the specification names:
    nearest-neighbor, linear, B-spline, windowed-sinc. *)
Inductive InterpolationRule : Type :=
| NearestNeighborRule
| LinearRule
| BSplineRule
| WindowedSincRule.

(** The rule of the glossary an interpolator of the library implements,
    if any: the Gaussian interpolator is none of the four. *)
Definition glossary_rule (i : Interpolator) : option InterpolationRule :=
  match i with
  | sitkNearestNeighbor => Some NearestNeighborRule
  | sitkLinear => Some LinearRule
  | sitkBSpline => Some BSplineRule
  | sitkGaussian => None
  | sitkHammingWindowedSinc
  | sitkBlackmanWindowedSinc
  | sitkCosineWindowedSinc
  | sitkWelchWindowedSinc
  | sitkLanczosWindowedSinc => Some WindowedSincRule
  end.

Definition named_by_glossary (i : Interpolator) : bool :=
  match glossary_rule i with
  | Some _ => true
  | None => false
  end.

Definition is_gaussian (i : Interpolator) : bool :=
  match i with
  | sitkGaussian => true
  | _ => false
  end.

Inductive SamplingStrategy : Type := NONE | REGULAR | RANDOM.

Inductive Metric : Type :=
| MattesMutualInformation (numberOfHistogramBins : Z).

Inductive Optimizer : Type :=
| GradientDescent (learningRate : float) (numberOfIterations : Z).

Inductive OptimizerScales : Type :=
| ScalesFromPhysicalShift.

Inductive InitializerMode : Type := GEOMETRY | MOMENTS.

(** ** The library interface *)

(** The data the libraries own and the notebooks only pass around. *)
Class LibTypes : Type := {
  Pixels : Type;      (* voxel buffers *)
  TransformV : Type;  (* the state of a transform object *)
  NDArray : Type;     (* numpy arrays *)
  Handle : Type;      (* matplotlib figures, axes and artists *)
  LibExn : Type       (* what a library raises *)
}.

Definition Point : Type := list float.

(** A reference to a transform object in the store. *)
Definition TransformRef : Type := nat.

(** An image: its grid and pixel type, which the notebooks read and set,
    and its voxels. *)
Record Image {T : LibTypes} : Type := mkImage {
  img_size : list Z;
  img_spacing : list float;
  img_origin : list float;
  img_direction : list float;
  img_pixel_id : PixelID;
  img_pixels : Pixels
}.

Arguments mkImage {T} _ _ _ _ _ _.

(** The settings of an [ImageRegistrationMethod]; [None] is a setting the
    code never made (the library's default applies). *)
Record RegistrationSettings : Type := mkSettings {
  rs_metric : option Metric;
  rs_sampling_strategy : option SamplingStrategy;
  rs_sampling_percentage : option float;
  rs_interpolator : option Interpolator;
  rs_optimizer : option Optimizer;
  rs_optimizer_scales : option OptimizerScales
}.

(** An [ImageRegistrationMethod] object: its settings, the initial
    transform with its [inPlace] flag, and the stop description its last
    [Execute] left. *)
Record RegistrationMethod : Type := mkMethod {
  rm_settings : RegistrationSettings;
  rm_initial_transform : option (TransformRef * bool);
  rm_stop_description : option string
}.

(** A [ResampleImageFilter] object. *)
Record ResampleImageFilter {T : LibTypes} : Type := mkResample {
  rf_size : list Z;
  rf_spacing : list float;
  rf_origin : list float;
  rf_direction : list float;
  rf_interpolator : Interpolator;
  rf_transform : option TransformV;
  rf_output_pixel_type : PixelID
}.

Arguments mkResample {T} _ _ _ _ _ _ _.

(** The pieces of an f-string handed to [print]. *)
Inductive Fmt : Type :=
| Lit (s : string)
| FmtStr (s : string)
| FmtInts (l : list Z)
| FmtFloats (l : list float)
| FmtFloat (x : float) (spec : string).

(** An index expression of an image subscript: [k] or [:]. *)
Inductive Subscript : Type :=
| At (k : Z)
| All.

(** Every call the notebooks make into a library, with its arguments;
    the index is the type of what the call returns. *)
Inductive LibCall {T : LibTypes} : Type -> Type :=
(* IPython *)
| py_import (module : string) : LibCall unit
| line_magic (line : string) : LibCall unit
| timeit_report : LibCall unit
| print (pieces : list Fmt) : LibCall unit
| interact (image1_z image2_z : Z * Z) (image1 image2 : Image) : LibCall unit
(* downloaddata, registration_utilities *)
| fdata (name : string) : LibCall string
| ru_load_RIRE_ground_truth (path : string) : LibCall (list Point * list Point)
| ru_absolute_orientation_m (fixed moving : list Point) : LibCall (NDArray * NDArray)
| ru_generate_random_pointset (image : Image) (num_points : Z) : LibCall (list Point)
| ru_registration_errors (tx : TransformV) (fixed_points moving_points : list Point)
  : LibCall (float * float * float * float * list float)
(* numpy *)
| np_flatten (a : NDArray) : LibCall NDArray
| np_shape (a : NDArray) : LibCall (list Z)
| np_ratio_prod (a b : list Z) : LibCall float
(* SimpleITK: images *)
| sitk_ReadImage (path : string) (pid : PixelID) : LibCall Image
| sitk_Image_alloc (size : list Z) (pid : PixelID) : LibCall Pixels
| sitk_PhysicalPointSource (pid : PixelID) (size : list Z) (origin : list Z)
    (spacing : list float) : LibCall Image
| sitk_VectorIndexSelectionCast (img : Image) (index : Z) : LibCall Image
| sitk_Sqrt (img : Image) : LibCall Image
| sitk_Cos (img : Image) : LibCall Image
| sitk_Sin (img : Image) : LibCall Image
| img_pow (img : Image) (n : Z) : LibCall Image
| img_add (a b : Image) : LibCall Image
| img_rmul (c : float) (img : Image) : LibCall Image
| img_radd (c : float) (img : Image) : LibCall Image
| img_rsub (c : float) (img : Image) : LibCall Image
| img_div (img : Image) (c : float) : LibCall Image
| img_getitem (img : Image) (idx : list Subscript) : LibCall Image
| sitk_Tile (imgs : list Image) (layout : list Z) : LibCall Image
| sitk_Expand (img : Image) (factors : list Z) (interp : Interpolator) : LibCall Image
| sitk_GetArrayViewFromImage (img : Image) : LibCall NDArray
| sitk_Resample_Execute (f : ResampleImageFilter) (img : Image) : LibCall Pixels
(* SimpleITK: transforms and registration *)
| sitk_Transform_init : LibCall TransformV
| sitk_Euler3DTransform_init : LibCall TransformV
| tx_SetMatrix (tx : TransformV) (m : NDArray) : LibCall TransformV
| tx_SetTranslation (tx : TransformV) (t : NDArray) : LibCall TransformV
| tx_TransformPoint (tx : TransformV) (p : Point) : LibCall Point
| sitk_CenteredTransformInitializer (fixed moving : Image) (tx : TransformV)
    (mode : InitializerMode) : LibCall TransformV
| sitk_Registration_Execute (s : RegistrationSettings)
    (initial : option TransformV) (fixed moving : Image)
  : LibCall (TransformV * string)
(* matplotlib *)
| plt_figure (figsize : float * float) (dpi : Z) : LibCall Handle
| fig_add_axes (fig : Handle) (rect : list float) : LibCall Handle
| ax_imshow (ax : Handle) (aimg : NDArray) : LibCall Handle
| artist_set_cmap (t : Handle) (name : string) : LibCall unit
| plt_title (s : string) : LibCall unit
| plt_show : LibCall unit
| plt_hist (x : list float) (bins : Z) (alpha : float) (label color : string)
  : LibCall unit
| plt_legend : LibCall unit.

(** A library: an environment (file system, dataset cache, random
    generator, display) and a handler answering every call, with a value
    or an exception, and the environment after the call. *)
Class Library {T : LibTypes} : Type := {
  Env : Type;
  lib : forall A, LibCall A -> Env -> Result LibExn A * Env
}.

(** One library call and its outcome. *)
Inductive Event {T : LibTypes} : Type :=
| Ev {A : Type} (c : LibCall A) (r : Result LibExn A).

(** ** The monad of the notebook code *)

Record World {T : LibTypes} {L : Library} : Type := mkWorld {
  env : Env;
  store : list TransformV;
  trace : list Event
}.

Arguments mkWorld {T L} _ _ _.

Definition M {T : LibTypes} {L : Library} (A : Type) : Type :=
  World -> Result LibExn A * World.

Section Monad.
Context {T : LibTypes} {L : Library}.

Definition ret {A} (a : A) : M A := fun w => (Ok a, w).

Definition raise {A} (e : Exn LibExn) : M A := fun w => (Raise e, w).

Definition bind {A B} (m : M A) (k : A -> M B) : M B :=
  fun w =>
    match m w with
    | (Ok a, w') => k a w'
    | (Raise e, w') => (Raise e, w')
    end.

(** A Python-level operation that may raise. *)
Definition lift {A} (r : Result LibExn A) : M A := fun w => (r, w).

(** A call into a library: the handler answers, the trace records. *)
Definition call {A} (c : LibCall A) : M A :=
  fun w =>
    let (r, env') := lib A c (env w) in
    (r, mkWorld env' (store w) (trace w ++ [Ev c r])).

(** The store of transform objects. *)
Definition alloc (v : TransformV) : M TransformRef :=
  fun w => (Ok (List.length (store w)), mkWorld (env w) (store w ++ [v]) (trace w)).

Definition deref (r : TransformRef) : M TransformV :=
  fun w =>
    match nth_error (store w) r with
    | Some v => (Ok v, w)
    | None => (Raise ReferenceError, w)
    end.

Fixpoint list_set {A} (l : list A) (n : nat) (a : A) : list A :=
  match l, n with
  | [], _ => []
  | _ :: l', O => a :: l'
  | x :: l', S n' => x :: list_set l' n' a
  end.

Definition assign (r : TransformRef) (v : TransformV) : M unit :=
  fun w => (Ok tt, mkWorld (env w) (list_set (store w) r v) (trace w)).

End Monad.

Declare Scope py_scope.
Delimit Scope py_scope with py.
Notation "x <- m ;; k" := (bind m (fun x => k))
  (at level 61, m at next level, right associativity) : py_scope.
Notation "' p <- m ;; k" := (bind m (fun p => k))
  (at level 61, p pattern, m at next level, right associativity) : py_scope.
Notation "m ;; k" := (bind m (fun _ => k))
  (at level 61, right associativity) : py_scope.
Local Open Scope py_scope.

(** ** Python sequences *)

(** [l[i]], negative indices counting from the end. *)
Definition getitem {E A} (l : list A) (i : Z) : Result E A :=
  let n := Z.of_nat (List.length l) in
  let j := if i <? 0 then i + n else i in
  if (0 <=? j) && (j <? n) then
    match nth_error l (Z.to_nat j) with
    | Some a => Ok a
    | None => Raise IndexError
    end
  else Raise IndexError.

(** [a, b = l] *)
Definition unpack2 {E A} (l : list A) : Result E (A * A) :=
  match l with
  | [a; b] => Ok (a, b)
  | _ => Raise ValueError
  end.

(** ** The SimpleITK objects the notebooks handle

    The methods below are the part of the wrapper the notebooks rely on:
    getters and setters of an image grid (a setter raises when it is given
    fewer values than the image has dimensions), the settings of the
    resampling filter and of the registration method, and the two
    [Execute] methods, whose computation is a library call. *)

Section Objects.
Context {T : LibTypes} {L : Library}.

Definition GetDimension (img : Image) : nat := List.length (img_size img).
Definition GetSize (img : Image) : list Z := img_size img.
Definition GetSpacing (img : Image) : list float := img_spacing img.
Definition GetOrigin (img : Image) : list float := img_origin img.
Definition GetDirection (img : Image) : list float := img_direction img.
Definition GetPixelID (img : Image) : PixelID := img_pixel_id img.

(** An image whose grid has one spacing and one origin per dimension and
    a square direction matrix, as every image of the library has. *)
Definition wf_image (img : Image) : Prop :=
  List.length (img_spacing img) = GetDimension img
  /\ List.length (img_origin img) = GetDimension img
  /\ List.length (img_direction img) = (GetDimension img * GetDimension img)%nat.

(** The row-major identity matrix of a [dim]-dimensional grid. *)
Definition identity_direction (dim : nat) : list float :=
  flat_map (fun i => map (fun j => if Nat.eqb i j then f1_0 else f0_0) (seq 0 dim))
           (seq 0 dim).

(** [sitk.Image(size, pixelID)]: a zero image with unit spacing, zero
    origin and identity direction. *)
Definition sitk_Image (size : list Z) (pid : PixelID) : M Image :=
  px <- call (sitk_Image_alloc size pid) ;;
  let dim := List.length size in
  ret (mkImage size (repeat f1_0 dim) (repeat f0_0 dim) (identity_direction dim) pid px).

(** The grid setters take the first [dim] values of their argument and
    raise when there are fewer; the direction must be [dim * dim] long. *)
Definition SetSpacing (img : Image) (spacing : list float) : M Image :=
  if (GetDimension img <=? List.length spacing)%nat then
    ret (mkImage (img_size img) (firstn (GetDimension img) spacing) (img_origin img)
           (img_direction img) (img_pixel_id img) (img_pixels img))
  else raise RuntimeError.

Definition SetOrigin (img : Image) (origin : list float) : M Image :=
  if (GetDimension img <=? List.length origin)%nat then
    ret (mkImage (img_size img) (img_spacing img) (firstn (GetDimension img) origin)
           (img_direction img) (img_pixel_id img) (img_pixels img))
  else raise RuntimeError.

Definition SetDirection (img : Image) (direction : list float) : M Image :=
  if (List.length direction =? GetDimension img * GetDimension img)%nat then
    ret (mkImage (img_size img) (img_spacing img) (img_origin img)
           direction (img_pixel_id img) (img_pixels img))
  else raise RuntimeError.

(** Transform objects live in the store. *)
Definition sitk_Transform : M TransformRef :=
  v <- call sitk_Transform_init ;; alloc v.

Definition sitk_Euler3DTransform : M TransformRef :=
  v <- call sitk_Euler3DTransform_init ;; alloc v.

Definition SetMatrix (tx : TransformRef) (m : NDArray) : M unit :=
  v <- deref tx ;;
  v' <- call (tx_SetMatrix v m) ;;
  assign tx v'.

Definition SetTranslation (tx : TransformRef) (t : NDArray) : M unit :=
  v <- deref tx ;;
  v' <- call (tx_SetTranslation v t) ;;
  assign tx v'.

Definition TransformPoint (tx : TransformRef) (p : Point) : M Point :=
  v <- deref tx ;;
  call (tx_TransformPoint v p).

(** [sitk.ResampleImageFilter()] *)
Definition sitk_ResampleImageFilter : ResampleImageFilter :=
  mkResample [0; 0; 0] (repeat f1_0 3) (repeat f0_0 3) (identity_direction 3)
    sitkLinear None sitkUnknown.

(** [SetReferenceImage] copies the grid of the reference image. *)
Definition rf_SetReferenceImage (f : ResampleImageFilter) (ref : Image)
  : ResampleImageFilter :=
  mkResample (img_size ref) (img_spacing ref) (img_origin ref) (img_direction ref)
    (rf_interpolator f) (rf_transform f) (rf_output_pixel_type f).

Definition rf_SetInterpolator (f : ResampleImageFilter) (i : Interpolator)
  : ResampleImageFilter :=
  mkResample (rf_size f) (rf_spacing f) (rf_origin f) (rf_direction f)
    i (rf_transform f) (rf_output_pixel_type f).

(** [SetTransform] keeps a copy of the transform it is given. *)
Definition rf_SetTransform (f : ResampleImageFilter) (tx : TransformRef)
  : M ResampleImageFilter :=
  v <- deref tx ;;
  ret (mkResample (rf_size f) (rf_spacing f) (rf_origin f) (rf_direction f)
         (rf_interpolator f) (Some v) (rf_output_pixel_type f)).

(** [Execute]: the output lies on the filter's grid; its pixel type is
    the input's unless an output pixel type was set. *)
Definition rf_Execute (f : ResampleImageFilter) (img : Image) : M Image :=
  px <- call (sitk_Resample_Execute f img) ;;
  ret (mkImage (rf_size f) (rf_spacing f) (rf_origin f) (rf_direction f)
         (match rf_output_pixel_type f with
          | sitkUnknown => img_pixel_id img
          | pid => pid
          end) px).

(** [sitk.ImageRegistrationMethod()] *)
Definition sitk_ImageRegistrationMethod : RegistrationMethod :=
  mkMethod (mkSettings None None None None None None) None None.

Definition with_settings (rm : RegistrationMethod) (s : RegistrationSettings)
  : RegistrationMethod :=
  mkMethod s (rm_initial_transform rm) (rm_stop_description rm).

Definition SetMetricAsMattesMutualInformation (rm : RegistrationMethod)
  (numberOfHistogramBins : Z) : RegistrationMethod :=
  let s := rm_settings rm in
  with_settings rm
    (mkSettings (Some (MattesMutualInformation numberOfHistogramBins))
       (rs_sampling_strategy s) (rs_sampling_percentage s) (rs_interpolator s)
       (rs_optimizer s) (rs_optimizer_scales s)).

Definition SetMetricSamplingStrategy (rm : RegistrationMethod)
  (strategy : SamplingStrategy) : RegistrationMethod :=
  let s := rm_settings rm in
  with_settings rm
    (mkSettings (rs_metric s) (Some strategy) (rs_sampling_percentage s)
       (rs_interpolator s) (rs_optimizer s) (rs_optimizer_scales s)).

Definition SetMetricSamplingPercentage (rm : RegistrationMethod)
  (percentage : float) : RegistrationMethod :=
  let s := rm_settings rm in
  with_settings rm
    (mkSettings (rs_metric s) (rs_sampling_strategy s) (Some percentage)
       (rs_interpolator s) (rs_optimizer s) (rs_optimizer_scales s)).

Definition SetInterpolator (rm : RegistrationMethod) (i : Interpolator)
  : RegistrationMethod :=
  let s := rm_settings rm in
  with_settings rm
    (mkSettings (rs_metric s) (rs_sampling_strategy s) (rs_sampling_percentage s)
       (Some i) (rs_optimizer s) (rs_optimizer_scales s)).

Definition SetOptimizerAsGradientDescent (rm : RegistrationMethod)
  (learningRate : float) (numberOfIterations : Z) : RegistrationMethod :=
  let s := rm_settings rm in
  with_settings rm
    (mkSettings (rs_metric s) (rs_sampling_strategy s) (rs_sampling_percentage s)
       (rs_interpolator s) (Some (GradientDescent learningRate numberOfIterations))
       (rs_optimizer_scales s)).

Definition SetOptimizerScalesFromPhysicalShift (rm : RegistrationMethod)
  : RegistrationMethod :=
  let s := rm_settings rm in
  with_settings rm
    (mkSettings (rs_metric s) (rs_sampling_strategy s) (rs_sampling_percentage s)
       (rs_interpolator s) (rs_optimizer s) (Some ScalesFromPhysicalShift)).

Definition SetInitialTransform (rm : RegistrationMethod) (tx : TransformRef)
  (inPlace : bool) : RegistrationMethod :=
  mkMethod (rm_settings rm) (Some (tx, inPlace)) (rm_stop_description rm).

(** [Execute]: the optimisation is the library's.  It starts from the
    state of the initial transform; with [inPlace=True] the optimised
    state is written into the caller's transform object, with
    [inPlace=False] the method works on a copy and the caller's object is
    not written.  The result is a new transform object; the method keeps
    the optimizer's stop description. *)
Definition Execute (rm : RegistrationMethod) (fixed moving : Image)
  : M (TransformRef * RegistrationMethod) :=
  initial <- match rm_initial_transform rm with
             | Some (tx, _) => v <- deref tx ;; ret (Some v)
             | None => ret None
             end ;;
  ' (v', description) <-
     call (sitk_Registration_Execute (rm_settings rm) initial fixed moving) ;;
  match rm_initial_transform rm with
  | Some (tx, true) => assign tx v'
  | _ => ret tt
  end ;;
  final <- alloc v' ;;
  ret (final, mkMethod (rm_settings rm) (rm_initial_transform rm) (Some description)).

Definition GetOptimizerStopConditionDescription (rm : RegistrationMethod) : string :=
  match rm_stop_description rm with
  | Some s => s
  | None => EmptyString
  end.

(** A list comprehension whose body calls a library. *)
Fixpoint mapM {A B} (f : A -> M B) (l : list A) : M (list B) :=
  match l with
  | [] => ret []
  | a :: l' => b <- f a ;; bs <- mapM f l' ;; ret (b :: bs)
  end.

End Objects.

(** ** Notebook 64: registration, memory-time trade-off *)

Section RegistrationNotebook.
Context {T : LibTypes} {L : Library}.

(** The imports and magics of the first code cell. *)
Definition setup_cell : M unit :=
  call (py_import "SimpleITK"%string) ;;
  call (py_import "numpy"%string) ;;
  call (line_magic "matplotlib inline"%string) ;;
  call (py_import "matplotlib.pyplot"%string) ;;
  call (line_magic "run update_path_to_download_script"%string) ;;
  call (py_import "downloaddata"%string) ;;
  call (py_import "registration_utilities"%string) ;;
  call (py_import "ipywidgets"%string).

(**
<<
def register_images(fixed_image, moving_image, initial_transform, interpolator):
    registration_method = sitk.ImageRegistrationMethod()
    registration_method.SetMetricAsMattesMutualInformation(numberOfHistogramBins=50)
    registration_method.SetMetricSamplingStrategy(registration_method.REGULAR)
    registration_method.SetMetricSamplingPercentage(0.01)
    registration_method.SetInterpolator(interpolator)
    registration_method.SetOptimizerAsGradientDescent(
        learningRate=1.0, numberOfIterations=1000)
    registration_method.SetOptimizerScalesFromPhysicalShift()
    registration_method.SetInitialTransform(initial_transform, inPlace=False)
    final_transform = registration_method.Execute(fixed_image, moving_image)
    return (final_transform, registration_method.GetOptimizerStopConditionDescription())
>> *)
Definition register_images (fixed_image moving_image : Image)
  (initial_transform : TransformRef) (interpolator : Interpolator)
  : M (TransformRef * string) :=
  let registration_method := sitk_ImageRegistrationMethod in
  let registration_method :=
    SetMetricAsMattesMutualInformation registration_method 50 in
  let registration_method :=
    SetMetricSamplingStrategy registration_method REGULAR in
  let registration_method :=
    SetMetricSamplingPercentage registration_method f0_01 in
  let registration_method := SetInterpolator registration_method interpolator in
  let registration_method :=
    SetOptimizerAsGradientDescent registration_method f1_0 1000 in
  let registration_method :=
    SetOptimizerScalesFromPhysicalShift registration_method in
  let registration_method :=
    SetInitialTransform registration_method initial_transform false in
  ' (final_transform, registration_method) <-
     Execute registration_method fixed_image moving_image ;;
  ret (final_transform, GetOptimizerStopConditionDescription registration_method).

(** What the data-loading cell leaves in the notebook's namespace. *)
Record Loaded : Type := mkLoaded {
  fixed_image : Image;
  moving_image : Image;
  reference_transform : TransformRef;
  fixed_points : list Point;
  moving_points : list Point
}.

(** The data-loading cell. *)
Definition load_data_cell : M Loaded :=
  path <- call (fdata "training_001_ct.mha"%string) ;;
  fixed_image <- call (sitk_ReadImage path sitkFloat32) ;;
  path <- call (fdata "training_001_mr_T1.mha"%string) ;;
  moving_image <- call (sitk_ReadImage path sitkFloat32) ;;
  path <- call (fdata "ct_T1.standard"%string) ;;
  ' (fixed_fiducial_points, moving_fiducial_points) <-
     call (ru_load_RIRE_ground_truth path) ;;
  ' (R, t) <-
     call (ru_absolute_orientation_m fixed_fiducial_points moving_fiducial_points) ;;
  reference_transform <- sitk_Euler3DTransform ;;
  R_flat <- call (np_flatten R) ;;
  SetMatrix reference_transform R_flat ;;
  SetTranslation reference_transform t ;;
  fixed_points <- call (ru_generate_random_pointset fixed_image 1000) ;;
  moving_points <- mapM (TransformPoint reference_transform) fixed_points ;;
  z1 <- lift (getitem (GetSize fixed_image) 2) ;;
  z2 <- lift (getitem (GetSize moving_image) 2) ;;
  call (interact (0, z1 - 1) (0, z2 - 1) fixed_image moving_image) ;;
  ret (mkLoaded fixed_image moving_image reference_transform fixed_points moving_points).

(** The resampling cell. *)
Definition resampling_cell (moving_image : Image) : M Image :=
  let new_spacing := isotropic_spacing (GetDimension moving_image) in
  let original_size := GetSize moving_image in
  let original_spacing := GetSpacing moving_image in
  resampled_image_size <-
    lift (resampled_image_size original_spacing original_size new_spacing) ;;
  resampled_moving_image <-
    sitk_Image resampled_image_size (GetPixelID moving_image) ;;
  resampled_moving_image <- SetSpacing resampled_moving_image new_spacing ;;
  resampled_moving_image <-
    SetOrigin resampled_moving_image (GetOrigin moving_image) ;;
  resampled_moving_image <-
    SetDirection resampled_moving_image (GetDirection moving_image) ;;
  let resample := sitk_ResampleImageFilter in
  let resample := rf_SetReferenceImage resample resampled_moving_image in
  let resample := rf_SetInterpolator resample sitkBSpline in
  identity <- sitk_Transform ;;
  resample <- rf_SetTransform resample identity ;;
  resampled_moving_image <- rf_Execute resample moving_image ;;
  call (print [Lit "Original image size and spacing: "%string;
               FmtInts original_size; Lit " "%string; FmtFloats original_spacing]) ;;
  call (print [Lit "Resampled image size and spacing: "%string;
               FmtInts (GetSize resampled_moving_image); Lit " "%string;
               FmtFloats (GetSpacing resampled_moving_image)]) ;;
  ratio <- call (np_ratio_prod resampled_image_size original_size) ;;
  call (print [Lit "Memory ratio: 1 : "%string; FmtFloat ratio EmptyString]) ;;
  ret resampled_moving_image.

(** The initial-alignment cell. *)
Definition initial_alignment_cell (fixed_image moving_image : Image)
  : M TransformRef :=
  euler <- sitk_Euler3DTransform ;;
  v <- deref euler ;;
  v' <- call (sitk_CenteredTransformInitializer fixed_image moving_image v GEOMETRY) ;;
  alloc v'.

(** The body shared by the two registration cells, run once by
    [%%timeit -r1 -n1], which then reports the running time. *)
Definition timed_registration (fixed_image moving_image : Image)
  (initial_transform : TransformRef) (interpolator : Interpolator)
  (fixed_points moving_points : list Point) : M (list float) :=
  ' (final_transform, optimizer_termination) <-
     register_images fixed_image moving_image initial_transform interpolator ;;
  tx <- deref final_transform ;;
  ' (final_errors_mean, final_errors_std, _, final_errors_max, errors) <-
     call (ru_registration_errors tx fixed_points moving_points) ;;
  call (print [FmtStr optimizer_termination]) ;;
  call (print [Lit "After registration, errors in millimeters, mean(std): "%string;
               FmtFloat final_errors_mean ".2f"%string; Lit "("%string;
               FmtFloat final_errors_std ".2f"%string; Lit "), max: "%string;
               FmtFloat final_errors_max ".2f"%string]) ;;
  call timeit_report ;;
  ret errors.

(** Original resolution, linear interpolation. *)
Definition original_resolution_cell (d : Loaded) (initial_transform : TransformRef)
  : M (list float) :=
  timed_registration (fixed_image d) (moving_image d) initial_transform sitkLinear
    (fixed_points d) (moving_points d).

(** Higher resolution, nearest-neighbor interpolation. *)
Definition higher_resolution_cell (d : Loaded) (resampled_moving_image : Image)
  (initial_transform : TransformRef) : M (list float) :=
  timed_registration (fixed_image d) resampled_moving_image initial_transform
    sitkNearestNeighbor (fixed_points d) (moving_points d).

(** The histogram cell. *)
Definition compare_cell (original_resolution_errors resampled_resolution_errors
  : list float) : M unit :=
  call (plt_hist original_resolution_errors 20 f0_5
          "original resolution"%string "blue"%string) ;;
  call (plt_hist resampled_resolution_errors 20 f0_5
          "higher resolution"%string "green"%string) ;;
  call plt_legend ;;
  call (plt_title "TRE histogram"%string).

(** The notebook, its code cells run from top to bottom. *)
Definition registration_notebook : M unit :=
  setup_cell ;;
  d <- load_data_cell ;;
  resampled_moving_image <- resampling_cell (moving_image d) ;;
  initial_transform <- initial_alignment_cell (fixed_image d) (moving_image d) ;;
  original_resolution_errors <- original_resolution_cell d initial_transform ;;
  resampled_resolution_errors <-
    higher_resolution_cell d resampled_moving_image initial_transform ;;
  compare_cell original_resolution_errors resampled_resolution_errors.

End RegistrationNotebook.

(** ** Notebook 20: expand with interpolators *)

Section ExpandNotebook.
Context {T : LibTypes} {L : Library}.

Definition expand_setup_cell : M unit :=
  call (line_magic "matplotlib inline"%string) ;;
  call (py_import "matplotlib.pyplot"%string) ;;
  call (py_import "SimpleITK"%string) ;;
  call (py_import "numpy"%string) ;;
  call (py_import "math"%string).

(** [if title:] *)
Definition truthy (title : option string) : bool :=
  match title with
  | None | Some EmptyString => false
  | Some _ => true
  end.

(** [myshow(img, title=None, margin=0.05)] *)
Definition myshow (img : Image) (title : option string) (margin : float) : M unit :=
  img <- (if (GetDimension img =? 3)%nat then
            s0 <- lift (getitem (GetSize img) 0) ;;
            a <- call (img_getitem img [At (s0 / 2); All; All]) ;;
            s1 <- lift (getitem (GetSize img) 1) ;;
            b <- call (img_getitem img [All; At (s1 / 2); All]) ;;
            s2 <- lift (getitem (GetSize img) 2) ;;
            c <- call (img_getitem img [All; All; At (s2 / 2)]) ;;
            call (sitk_Tile [a; b; c] [2; 2])
          else ret img) ;;
  aimg <- call (sitk_GetArrayViewFromImage img) ;;
  shape <- call (np_shape aimg) ;;
  ' (xsize, ysize) <- lift (unpack2 shape) ;;
  let dpi := 80 in
  width <- lift (rbind (int_add 1 margin) (fun m1 =>
                 rbind (mul_int m1 ysize) (fun p => div_int p dpi))) ;;
  height <- lift (rbind (int_add 1 margin) (fun m1 =>
                  rbind (mul_int m1 xsize) (fun p => div_int p dpi))) ;;
  fig <- call (plt_figure (width, height) dpi) ;;
  w1 <- lift (rbind (int_mul 2 margin) (fun m2 => int_sub 1 m2)) ;;
  w2 <- lift (rbind (int_mul 2 margin) (fun m2 => int_sub 1 m2)) ;;
  ax <- call (fig_add_axes fig [margin; margin; w1; w2]) ;;
  t <- call (ax_imshow ax aimg) ;;
  shape <- call (np_shape aimg) ;;
  (if (List.length shape =? 2)%nat then call (artist_set_cmap t "gray"%string)
   else ret tt) ;;
  (if truthy title then
     match title with
     | Some s => call (plt_title s)
     | None => ret tt
     end
   else ret tt) ;;
  call plt_show.

(** [marschner_lobb(size=40, alpha=0.25, f_M=6.0)] *)
Definition marschner_lobb (size : Z) (alpha f_M : float) : M Image :=
  step <- lift (div_int f2_0 size) ;;
  img <- call (sitk_PhysicalPointSource sitkVectorFloat32
                 [size; size; size] [-1; -1; -1] [step; step; step]) ;;
  imgx <- call (sitk_VectorIndexSelectionCast img 0) ;;
  imgy <- call (sitk_VectorIndexSelectionCast img 1) ;;
  imgz <- call (sitk_VectorIndexSelectionCast img 2) ;;
  x2 <- call (img_pow imgx 2) ;;
  y2 <- call (img_pow imgy 2) ;;
  sum <- call (img_add x2 y2) ;;
  r <- call (sitk_Sqrt sum) ;;
  inner <- call (img_rmul (fdiv_ieee math_pi f2_0) r) ;;
  cos_inner <- call (sitk_Cos inner) ;;
  outer <- call (img_rmul (fmul (fmul f2_0 math_pi) f_M) cos_inner) ;;
  pr <- call (sitk_Cos outer) ;;
  zarg <- call (img_rmul (fdiv_ieee math_pi f2_0) imgz) ;;
  sin_z <- call (sitk_Sin zarg) ;;
  lhs <- call (img_rsub f1_0 sin_z) ;;
  one_pr <- call (img_radd f1_0 pr) ;;
  rhs <- call (img_rmul alpha one_pr) ;;
  numerator <- call (img_add lhs rhs) ;;
  call (img_div numerator (fmul f2_0 (fadd f1_0 alpha))).

Definition show_cell : M unit :=
  ml <- marschner_lobb 40 f0_25 f6_0 ;;
  myshow ml None f0_05 ;;
  ml <- marschner_lobb 100 f0_25 f6_0 ;;
  myshow ml None f0_05.

(** One line of the demonstration cell:
    [myshow(sitk.Expand(ml, [5] * 3, interp), title=...)]. *)
Definition demonstrate (ml : Image) (interp : Interpolator) (title : string)
  : M unit :=
  expanded <- call (sitk_Expand ml [5; 5; 5] interp) ;;
  myshow expanded (Some title) f0_05.

(** The demonstration cell. *)
Definition expand_demonstration_cell : M unit :=
  ml <- marschner_lobb 40 f0_25 f6_0 ;;
  last <- lift (getitem (GetSize ml) (-1)) ;;
  ml <- call (img_getitem ml [All; All; At (last / 2)]) ;;
  demonstrate ml sitkNearestNeighbor "nearest neighbor"%string ;;
  demonstrate ml sitkLinear "linear"%string ;;
  demonstrate ml sitkBSpline "b-spline"%string ;;
  demonstrate ml sitkGaussian "Gaussian"%string ;;
  demonstrate ml sitkHammingWindowedSinc "Hamming windowed sinc"%string ;;
  demonstrate ml sitkBlackmanWindowedSinc "Blackman windowed sinc"%string ;;
  demonstrate ml sitkCosineWindowedSinc "Cosine windowed sinc"%string ;;
  demonstrate ml sitkWelchWindowedSinc "Welch windowed sinc"%string ;;
  demonstrate ml sitkLanczosWindowedSinc "Lanczos windowed sinc"%string.

Definition expand_notebook : M unit :=
  expand_setup_cell ;;
  show_cell ;;
  expand_demonstration_cell.

End ExpandNotebook.

(** ** Observations on traces *)

Fixpoint filter_map {A B} (f : A -> option B) (l : list A) : list B :=
  match l with
  | [] => []
  | a :: l' =>
      match f a with
      | Some b => b :: filter_map f l'
      | None => filter_map f l'
      end
  end.

Section Observations.
Context {T : LibTypes}.

(** The call was answered with a value. *)
Definition succeeded (e : Event) : bool :=
  match e with
  | Ev _ (Ok _) => true
  | Ev _ (Raise _) => false
  end.

(** The interpolators handed to [sitk.Expand] in a trace, in order. *)
Definition expand_interpolator (e : Event) : option Interpolator :=
  match e with
  | Ev (sitk_Expand _ _ interp) _ => Some interp
  | Ev _ _ => None
  end.

Definition demonstrated_interpolators (tr : list Event) : list Interpolator :=
  filter_map expand_interpolator tr.

(** The state each optimisation of a trace started from. *)
Definition registration_initial (e : Event) : option (option TransformV) :=
  match e with
  | Ev (sitk_Registration_Execute _ initial _ _) _ => Some initial
  | Ev _ _ => None
  end.

Definition registration_initials (tr : list Event) : list (option TransformV) :=
  filter_map registration_initial tr.

(** All the optimisations started from one and the same state. *)
Definition same_initial (l : list (option TransformV)) : Prop :=
  forall a b, In a l -> In b l -> a = b /\ a <> None.

(** The steps of the registration demonstration. *)
Inductive Step : Type :=
| LoadImage
| LoadFiducials
| Resample
| Register (interpolator : option Interpolator)
| ErrorStatistics
| Histogram.

Definition step_of (e : Event) : option Step :=
  match e with
  | Ev (sitk_ReadImage _ _) _ => Some LoadImage
  | Ev (ru_load_RIRE_ground_truth _) _ => Some LoadFiducials
  | Ev (sitk_Resample_Execute _ _) _ => Some Resample
  | Ev (sitk_Registration_Execute s _ _ _) _ => Some (Register (rs_interpolator s))
  | Ev (ru_registration_errors _ _ _) _ => Some ErrorStatistics
  | Ev (plt_hist _ _ _ _ _) _ => Some Histogram
  | Ev _ _ => None
  end.

Definition steps (tr : list Event) : list Step := filter_map step_of tr.

(** What a line written to the console is about, read off the literal
    its f-string starts with. *)
Inductive ConsoleLine : Type :=
| GridReport
| MemoryRatio
| StopCondition
| ErrorReport
| TimingReport
| OtherLine.

Definition print_kind (pieces : list Fmt) : ConsoleLine :=
  match pieces with
  | [FmtStr _] => StopCondition
  | Lit s :: _ =>
      if String.eqb s "After registration, errors in millimeters, mean(std): "
      then ErrorReport
      else if String.eqb s "Original image size and spacing: " then GridReport
      else if String.eqb s "Resampled image size and spacing: " then GridReport
      else if String.eqb s "Memory ratio: 1 : " then MemoryRatio
      else OtherLine
  | _ => OtherLine
  end.

(** The effects of a call outside the Python process. *)
Inductive Effect : Type :=
| Setup (what : string)
| Fetch (name : string)
| ReadImageFile
| ReadGroundTruthFile
| Console (line : ConsoleLine)
| Display.

Definition effect_of (e : Event) : option Effect :=
  match e with
  | Ev (py_import module) _ => Some (Setup module)
  | Ev (line_magic line) _ => Some (Setup line)
  | Ev (fdata name) _ => Some (Fetch name)
  | Ev (sitk_ReadImage _ _) _ => Some ReadImageFile
  | Ev (ru_load_RIRE_ground_truth _) _ => Some ReadGroundTruthFile
  | Ev (print pieces) _ => Some (Console (print_kind pieces))
  | Ev timeit_report _ => Some (Console TimingReport)
  | Ev (interact _ _ _ _) _ => Some Display
  | Ev (plt_figure _ _) _ => Some Display
  | Ev (fig_add_axes _ _) _ => Some Display
  | Ev (ax_imshow _ _) _ => Some Display
  | Ev (artist_set_cmap _ _) _ => Some Display
  | Ev (plt_title _) _ => Some Display
  | Ev plt_show _ => Some Display
  | Ev (plt_hist _ _ _ _ _) _ => Some Display
  | Ev plt_legend _ => Some Display
  | Ev _ _ => None
  end.

Definition effects (tr : list Event) : list Effect := filter_map effect_of tr.

(** The effects the specification lists: reading the two image files and
    the ground-truth file through the dataset cache, and printing error
    statistics and stop conditions. *)
Definition listed_effect (x : Effect) : bool :=
  match x with
  | Fetch _ | ReadImageFile | ReadGroundTruthFile => true
  | Console ErrorReport | Console StopCondition => true
  | _ => false
  end.

(** The path a call reads a file from, and the path a fetch returned. *)
Definition read_path (e : Event) : option string :=
  match e with
  | Ev (sitk_ReadImage path _) _ => Some path
  | Ev (ru_load_RIRE_ground_truth path) _ => Some path
  | Ev _ _ => None
  end.

Definition fetched_path (e : Event) : option string :=
  match e with
  | Ev (fdata _) (Ok path) => Some path
  | Ev _ _ => None
  end.

(** Every file a run reads was handed out by the dataset cache. *)
Definition reads_fetched (evs : list Event) : Prop :=
  forall path, In path (filter_map read_path evs) ->
               In path (filter_map fetched_path evs).

(** The exception a failed call raised. *)
Definition raised (e : Event) : option (Exn LibExn) :=
  match e with
  | Ev _ (Raise x) => Some x
  | Ev _ (Ok _) => None
  end.

(** The calls [evs] of a run and its result [r] are consistent with
    failure propagation: either no call failed, or the one call that failed
    is the last one made and the run raised what that call raised. *)
Inductive outcome_of {A : Type} : list Event -> Result LibExn A -> Prop :=
| no_failure (evs : list Event) (r : Result LibExn A) :
    forallb succeeded evs = true -> outcome_of evs r
| failure_last (evs : list Event) (B : Type) (c : LibCall B) (e : Exn LibExn) :
    forallb succeeded evs = true ->
    outcome_of (evs ++ [Ev c (Raise e)]) (Raise e).

End Observations.

Section Propagation.
Context {T : LibTypes} {L : Library}.

(** A computation that only adds calls to the trace and handles no failure
    of a call. *)
Definition propagates {A} (m : M A) : Prop :=
  forall w, exists evs,
    trace (snd (m w)) = trace w ++ evs /\ outcome_of evs (fst (m w)).

(** The same, read off the trace: a call of the run that failed is the
    last call of the run, every call before it succeeded, and the run ends
    with the exception of that call. *)
Definition propagates_failures {A} (m : M A) : Prop :=
  forall (w : World) (evs : list Event) (B : Type) (c : LibCall B) (e : Exn LibExn),
    trace (snd (m w)) = trace w ++ evs ->
    In (Ev c (Raise e)) evs ->
    fst (m w) = Raise e
    /\ exists before, evs = before ++ [Ev c (Raise e)]
                      /\ forallb succeeded before = true.

(** [xs] is an initial segment of [l]. *)
Definition prefix {X} (xs l : list X) : Prop := exists rest, l = xs ++ rest.

(** The calls of every run of [m] satisfy [P]. *)
Definition respects {A} (P : list Event -> Prop) (m : M A) : Prop :=
  forall w, exists evs, trace (snd (m w)) = trace w ++ evs /\ P evs.

(** Under the observation [f] of events, a run of [m] shows nothing. *)
Definition silent {A X} (f : Event -> option X) (m : M A) : Prop :=
  respects (fun evs => filter_map f evs = []) m.

(** Under the observation [f], a run of [m] that returns shows exactly [l],
    and a run that raises shows an initial segment of [l]. *)
Definition performs {A X} (f : Event -> option X) (m : M A) (l : list X) : Prop :=
  forall w, exists evs,
    trace (snd (m w)) = trace w ++ evs
    /\ match fst (m w) with
       | Ok _ => filter_map f evs = l
       | Raise _ => prefix (filter_map f evs) l
       end.

End Propagation.

(** ** Further observations on traces *)

Section MoreObservations.
Context {T : LibTypes}.

(** The shapes numpy answered. *)
Definition shape_answer (e : Event) : option (list Z) :=
  match e with
  | Ev (np_shape _) (Ok s) => Some s
  | Ev _ _ => None
  end.

(** The calls into matplotlib. *)
Definition plot_call (e : Event) : option unit :=
  match e with
  | Ev (plt_figure _ _) _ => Some tt
  | Ev (fig_add_axes _ _) _ => Some tt
  | Ev (ax_imshow _ _) _ => Some tt
  | Ev (artist_set_cmap _ _) _ => Some tt
  | Ev (plt_title _) _ => Some tt
  | Ev plt_show _ => Some tt
  | Ev (plt_hist _ _ _ _ _) _ => Some tt
  | Ev plt_legend _ => Some tt
  | Ev _ _ => None
  end.

Definition title_call (e : Event) : option string :=
  match e with
  | Ev (plt_title s) _ => Some s
  | Ev _ _ => None
  end.

(** The colour maps set. *)
Definition cmap_call (e : Event) : option string :=
  match e with
  | Ev (artist_set_cmap _ name) _ => Some name
  | Ev _ _ => None
  end.

(** The images whose voxels were viewed as an array. *)
Definition viewed (e : Event) : option Image :=
  match e with
  | Ev (sitk_GetArrayViewFromImage img) _ => Some img
  | Ev _ _ => None
  end.

(** The subscripts that succeeded: the image, the index and the result. *)
Definition subscripted (e : Event) : option (Image * list Subscript * Image) :=
  match e with
  | Ev (img_getitem img idx) (Ok a) => Some (img, idx, a)
  | Ev _ _ => None
  end.

(** The tilings that succeeded: the images, the layout and the result. *)
Definition tiled (e : Event) : option (list Image * list Z * Image) :=
  match e with
  | Ev (sitk_Tile imgs layout) (Ok a) => Some (imgs, layout, a)
  | Ev _ _ => None
  end.

(** The image and the factors of a call of [sitk.Expand]. *)
Definition expand_call (e : Event) : option (Image * list Z) :=
  match e with
  | Ev (sitk_Expand img factors _) _ => Some (img, factors)
  | Ev _ _ => None
  end.

(** What a figure of the demonstration shows: the interpolator of the
    expansion, then the title. *)
Definition shown (e : Event) : option (Interpolator + string) :=
  match e with
  | Ev (sitk_Expand _ _ interp) _ => Some (inl interp)
  | Ev (plt_title s) _ => Some (inr s)
  | Ev _ _ => None
  end.

(** The filter and the input of a resampling. *)
Definition resample_call (e : Event) : option (ResampleImageFilter * Image) :=
  match e with
  | Ev (sitk_Resample_Execute f img) _ => Some (f, img)
  | Ev _ _ => None
  end.

(** The input of a resampling and the voxels it produced. *)
Definition resample_answer (e : Event) : option (Image * Pixels) :=
  match e with
  | Ev (sitk_Resample_Execute _ img) (Ok px) => Some (img, px)
  | Ev _ _ => None
  end.

Definition identity_answer (e : Event) : option TransformV :=
  match e with
  | Ev sitk_Transform_init (Ok v) => Some v
  | Ev _ _ => None
  end.

(** The fixed and the moving image of an optimisation. *)
Definition registration_images (e : Event) : option (Image * Image) :=
  match e with
  | Ev (sitk_Registration_Execute _ _ fixed moving) _ => Some (fixed, moving)
  | Ev _ _ => None
  end.

(** The transform an optimisation returned, and the error list an
    evaluation returned. *)
Definition optimised_transform (e : Event) : option TransformV :=
  match e with
  | Ev (sitk_Registration_Execute _ _ _ _) (Ok (v, _)) => Some v
  | Ev _ _ => None
  end.

Definition error_list (e : Event) : option (list float) :=
  match e with
  | Ev (ru_registration_errors _ _ _) (Ok (_, _, _, _, errors)) => Some errors
  | Ev _ _ => None
  end.

(** The lines printed, piece by piece. *)
Definition printed (e : Event) : option (list Fmt) :=
  match e with
  | Ev (print pieces) _ => Some pieces
  | Ev _ _ => None
  end.

(** The stop descriptions the optimisations returned. *)
Definition stop_description (e : Event) : option string :=
  match e with
  | Ev (sitk_Registration_Execute _ _ _ _) (Ok (_, description)) => Some description
  | Ev _ _ => None
  end.

(** The transform and the point lists of an evaluation of the errors. *)
Definition evaluation (e : Event)
  : option (TransformV * list Point * list Point) :=
  match e with
  | Ev (ru_registration_errors tx fixed_points moving_points) _ =>
      Some (tx, fixed_points, moving_points)
  | Ev _ _ => None
  end.

(** The data that flows through the registration notebook: the images
    read, the points drawn, the voxels resampled, the initial alignment,
    the state each optimisation started from and the transform it
    returned, the errors evaluated and the lists plotted. *)
Inductive Flow : Type :=
| WasRead (img : Image)
| Drawn (img : Image) (num_points : Z) (points : list Point)
| Resampled (input : Image) (px : Pixels)
| Aligned (fixed moving : Image) (initial : TransformV)
| Registered (fixed moving : Image) (initial : option TransformV)
    (final : TransformV)
| Evaluated (tx : TransformV) (fixed_points moving_points : list Point)
    (errors : list float)
| Plotted (x : list float) (label : string).

Definition flow (e : Event) : option Flow :=
  match e with
  | Ev (sitk_ReadImage _ _) (Ok img) => Some (WasRead img)
  | Ev (ru_generate_random_pointset img n) (Ok points) => Some (Drawn img n points)
  | Ev (sitk_Resample_Execute _ img) (Ok px) => Some (Resampled img px)
  | Ev (sitk_CenteredTransformInitializer fixed moving _ GEOMETRY) (Ok v) =>
      Some (Aligned fixed moving v)
  | Ev (sitk_Registration_Execute _ initial fixed moving) (Ok (v, _)) =>
      Some (Registered fixed moving initial v)
  | Ev (ru_registration_errors tx fixed_points moving_points)
       (Ok (_, _, _, _, errors)) =>
      Some (Evaluated tx fixed_points moving_points errors)
  | Ev (plt_hist x _ _ label _) _ => Some (Plotted x label)
  | Ev _ _ => None
  end.

(** The images read from files. *)
Definition read_image (e : Event) : option Image :=
  match e with
  | Ev (sitk_ReadImage _ _) (Ok img) => Some img
  | Ev _ _ => None
  end.

(** The accesses to the dataset: the path a fetch returned for a file
    name, and the path an image or the ground truth was read at. *)
Inductive FileAccess : Type :=
| Fetched (name path : string)
| ImageRead (path : string)
| GroundTruthRead (path : string).

Definition file_access (e : Event) : option FileAccess :=
  match e with
  | Ev (fdata name) (Ok path) => Some (Fetched name path)
  | Ev (sitk_ReadImage path _) _ => Some (ImageRead path)
  | Ev (ru_load_RIRE_ground_truth path) _ => Some (GroundTruthRead path)
  | Ev _ _ => None
  end.

(** Every expansion of [evs] is of the image [ml], by 5 on each axis. *)
Definition expands_only (ml : Image) (evs : list Event) : Prop :=
  forall x, In x (filter_map expand_call evs) -> x = (ml, [5; 5; 5]).

End MoreObservations.

Section MoreProperties.
Context {T : LibTypes} {L : Library}.

(** A computation that writes no transform object that exists. *)
Definition preserves_store {A} (m : M A) : Prop :=
  forall (w : World) (r : TransformRef) (v : TransformV),
    nth_error (store w) r = Some v ->
    nth_error (store (snd (m w))) r = Some v.

(** An image the resampling cell accepts: its spacing, origin and
    direction fit its dimension, and its resampled size can be computed. *)
Definition resamplable (img : Image) : Prop :=
  wf_image img
  /\ exists sizes,
       resampled_image_size (E := LibExn) (GetSpacing img) (GetSize img)
         (isotropic_spacing (GetDimension img)) = Ok sizes.

(** A computation that returns whenever none of its library calls
    fails. *)
Definition completes {A} (m : M A) : Prop :=
  forall w, exists evs,
    trace (snd (m w)) = trace w ++ evs
    /\ (forallb succeeded evs = true -> exists a, fst (m w) = Ok a).

(** A run of [m] from [w] that accesses no file of the dataset and, when
    [pre] holds, returns whenever none of its library calls fails. *)
Definition runs_through {A} (pre : Prop) (m : M A) (w : World) : Prop :=
  exists evs,
    trace (snd (m w)) = trace w ++ evs
    /\ filter_map file_access evs = []
    /\ filter_map read_image evs = []
    /\ (forallb succeeded evs = true -> pre -> exists a, fst (m w) = Ok a).

(** A computation that writes, of the transform objects that exist, at
    most those of [S]. *)
Definition writes_only {A} (S : TransformRef -> Prop) (m : M A) : Prop :=
  forall (w : World) (r : TransformRef) (v : TransformV),
    ~ S r ->
    nth_error (store w) r = Some v ->
    nth_error (store (snd (m w))) r = Some v.

End MoreProperties.

(** *** The pixels of the Marschner-Lobb image, in exact real arithmetic

    The image operators of [marschner_lobb] act pixel by pixel; over the
    reals, an image is the function from a voxel index to its value. *)

Module MarschnerLobbReal.

Local Open Scope R_scope.

Definition RImage : Type := Z -> Z -> Z -> R.

(** Component [c] of [PhysicalPointSource(_, [size]*3, [-1]*3, [2.0/size]*3)]:
    the physical coordinate of the voxel, origin + index * spacing. *)
Definition PhysicalPointSource (size : Z) (c : nat) : RImage :=
  fun i j k =>
    let index := match c with O => i | S O => j | _ => k end in
    -1 + IZR index * (2 / IZR size).

Definition pixelwise1 (f : R -> R) (a : RImage) : RImage :=
  fun i j k => f (a i j k).

Definition pixelwise2 (f : R -> R -> R) (a b : RImage) : RImage :=
  fun i j k => f (a i j k) (b i j k).

Definition marschner_lobb (size : Z) (alpha f_M : R) : RImage :=
  let imgx := PhysicalPointSource size 0 in
  let imgy := PhysicalPointSource size 1 in
  let imgz := PhysicalPointSource size 2 in
  let r := pixelwise1 sqrt (pixelwise2 Rplus (pixelwise1 (fun x => x ^ 2) imgx)
                                             (pixelwise1 (fun y => y ^ 2) imgy)) in
  let pr := pixelwise1 cos
              (pixelwise1 (Rmult (2 * PI * f_M))
                 (pixelwise1 cos (pixelwise1 (Rmult (PI / 2)) r))) in
  pixelwise1 (fun v => v / (2 * (1 + alpha)))
    (pixelwise2 Rplus
       (pixelwise1 (Rminus 1) (pixelwise1 sin (pixelwise1 (Rmult (PI / 2)) imgz)))
       (pixelwise1 (Rmult alpha) (pixelwise1 (Rplus 1) pr))).

End MarschnerLobbReal.

(** ** A test double of the libraries

    A concrete library to run the notebooks on: the dataset cache maps a
    name to itself, the two volumes have grids like those of the RIRE data
    (CT: 512 x 512 x 29 voxels of 0.653595 x 0.653595 x 4 mm, MR T1:
    256 x 256 x 26 voxels of 1.25 x 1.25 x 4 mm), a transform is a single
    integer that an optimisation increments, and the environment is a
    countdown: [Some n] makes the call after the next [n] fail, [None] lets
    every call succeed. *)

Module TestLibrary.

Definition types : LibTypes :=
  {| Pixels := unit; TransformV := Z; NDArray := unit; Handle := unit;
     LibExn := string |}.

Definition f0_653595 : float := S754_finite false 5887060396902439 (-53).

Definition ct_image : @Image types :=
  @mkImage types [512; 512; 29] [f0_653595; f0_653595; f4_0] [f0_0; f0_0; f0_0]
    [f1_0; f0_0; f0_0; f0_0; f1_0; f0_0; f0_0; f0_0; f1_0] sitkFloat32 tt.

Definition mr_image : @Image types :=
  @mkImage types [256; 256; 26] [f1_25; f1_25; f4_0] [f0_0; f0_0; f0_0]
    [f1_0; f0_0; f0_0; f0_0; f1_0; f0_0; f0_0; f0_0; f1_0] sitkFloat32 tt.

Definition slice_image : @Image types :=
  @mkImage types [40; 40] [f0_05; f0_05] [f0_0; f0_0] [f1_0; f0_0; f0_0; f1_0]
    sitkFloat32 tt.

Definition answer (A : Type) (c : @LibCall types A) : A :=
  match c in LibCall A return A with
  | py_import _ => tt
  | line_magic _ => tt
  | timeit_report => tt
  | print _ => tt
  | interact _ _ _ _ => tt
  | fdata name => name
  | ru_load_RIRE_ground_truth _ => ([[f0_0; f0_0; f0_0]], [[f1_0; f1_0; f1_0]])
  | ru_absolute_orientation_m _ _ => (tt, tt)
  | ru_generate_random_pointset _ _ => [[f0_0; f0_0; f0_0]; [f1_0; f1_0; f1_0]]
  | ru_registration_errors _ _ _ => (f1_5, f0_5, f1_0, f2_0, [f1_0; f2_0])
  | np_flatten a => a
  | np_shape _ => [40; 40]
  | np_ratio_prod _ _ => f1_0
  | sitk_ReadImage path _ =>
      if String.eqb path "training_001_mr_T1.mha" then mr_image else ct_image
  | sitk_Image_alloc _ _ => tt
  | sitk_PhysicalPointSource pid size origin spacing =>
      @mkImage types size spacing (repeat f0_0 (List.length size))
        (identity_direction (List.length size)) pid tt
  | sitk_VectorIndexSelectionCast img _ => img
  | sitk_Sqrt img => img
  | sitk_Cos img => img
  | sitk_Sin img => img
  | img_pow img _ => img
  | img_add a _ => a
  | img_rmul _ img => img
  | img_radd _ img => img
  | img_rsub _ img => img
  | img_div img _ => img
  | img_getitem _ _ => slice_image
  | sitk_Tile _ _ => slice_image
  | sitk_Expand _ _ _ => slice_image
  | sitk_GetArrayViewFromImage _ => tt
  | sitk_Resample_Execute _ _ => tt
  | sitk_Transform_init => 0
  | sitk_Euler3DTransform_init => 0
  | tx_SetMatrix tx _ => tx
  | tx_SetTranslation tx _ => tx
  | tx_TransformPoint _ p => p
  | sitk_CenteredTransformInitializer _ _ tx _ => tx + 10
  | sitk_Registration_Execute _ initial _ _ =>
      (match initial with Some v => v + 1 | None => 1 end,
       "Convergence checker passed."%string)
  | plt_figure _ _ => tt
  | fig_add_axes _ _ => tt
  | ax_imshow _ _ => tt
  | artist_set_cmap _ _ => tt
  | plt_title _ => tt
  | plt_show => tt
  | plt_hist _ _ _ _ _ => tt
  | plt_legend => tt
  end.

(** What the failing call raises. *)
Definition injected_failure : Exn (@LibExn types) :=
  LibraryError "injected failure"%string.

Definition handler (A : Type) (c : @LibCall types A) (countdown : option nat)
  : Result string A * option nat :=
  match countdown with
  | Some O => (Raise injected_failure, None)
  | Some (S n) => (Ok (answer A c), Some n)
  | None => (Ok (answer A c), None)
  end.

Definition library : @Library types :=
  {| Env := option nat; lib := handler |}.

(** The world before the first cell runs. *)
Definition fresh (countdown : option nat) : @World types library :=
  @mkWorld types library countdown [] [].

(** A wrapper that is not in the notebooks: it calls again when a call
    fails, so a failure of the first call is not the outcome. *)
Definition retry {A} (c : @LibCall types A) : @M types library A :=
  fun w =>
    match call (T := types) (L := library) c w with
    | (Raise _, w1) => call (T := types) (L := library) c w1
    | done => done
    end.

End TestLibrary.

(** * Properties *)

(** ** Floats: the exact value of [int(x)] *)

Lemma pow2_Q (e : Z) : 0 <= e -> (Qpower 2 e == inject_Z (2 ^ e))%Q.
Proof.
  intros He. rewrite Zpower_Qpower by assumption. reflexivity.
Qed.

Lemma pow2_Q_neg (e : Z) : e < 0 -> (Qpower 2 e == / inject_Z (2 ^ (- e)))%Q.
Proof.
  intros He.
  replace e with (- (- e)) at 1 by lia.
  rewrite Qpower_opp, pow2_Q by lia. reflexivity.
Qed.

Lemma Qfloor_mantissa (m : positive) (e : Z) :
  Qfloor (inject_Z (Zpos m) * Qpower 2 e) =
  if 0 <=? e then Z.shiftl (Zpos m) e else Z.shiftr (Zpos m) (- e).
Proof.
  destruct (Z.leb_spec 0 e) as [He | He].
  - rewrite pow2_Q by assumption.
    rewrite <- inject_Z_mult, Qfloor_Z, Z.shiftl_mul_pow2 by assumption.
    reflexivity.
  - rewrite pow2_Q_neg by assumption.
    rewrite Z.shiftr_div_pow2 by lia.
    rewrite Zdiv_Qdiv. reflexivity.
Qed.

Lemma mantissa_pos (m : positive) (e : Z) :
  (0 < inject_Z (Zpos m) * Qpower 2 e)%Q.
Proof.
  apply Qmult_lt_0_compat.
  - reflexivity.
  - apply Qpower_0_lt. reflexivity.
Qed.

(** [int(x)] is the truncation toward zero of the exact value of [x]. *)
Lemma to_int_trunc {E} (x : float) (n : Z) :
  to_int (E := E) x = Ok n -> n = Qtrunc (to_Q x).
Proof.
  destruct x as [s | s | | s m e]; simpl; intros H; try discriminate.
  - injection H as <-. reflexivity.
  - injection H as <-. unfold Qtrunc.
    pose proof (mantissa_pos m e) as Hpos.
    destruct s; simpl cond_Zopp.
    + assert (Hneg : (inject_Z (Zneg m) * Qpower 2 e
                      == - (inject_Z (Zpos m) * Qpower 2 e))%Q).
      { change (Zneg m) with (- Zpos m). rewrite inject_Z_opp. ring. }
      assert (Hb : Qle_bool 0 (inject_Z (Zneg m) * Qpower 2 e) = false).
      { destruct (Qle_bool 0 (inject_Z (Zneg m) * Qpower 2 e)) eqn:Hq; [|reflexivity].
        apply Qle_bool_iff in Hq. rewrite Hneg in Hq.
        exfalso. apply (Qlt_not_le _ _ Hpos).
        apply Qopp_le_compat in Hq. rewrite Qopp_involutive in Hq. exact Hq. }
      rewrite Hb. unfold Qceiling.
      rewrite Hneg, Qopp_involutive, Qfloor_mantissa. reflexivity.
    + assert (Hb : Qle_bool 0 (inject_Z (Zpos m) * Qpower 2 e) = true).
      { apply Qle_bool_iff. apply Qlt_le_weak. exact Hpos. }
      rewrite Hb. apply eq_sym, Qfloor_mantissa.
Qed.

(** Rounding keeps the sign. *)
Lemma binary_round_aux_not_negative (m e : Z) (l : location) :
  not_negative (binary_round_aux prec emax false m e l) = true.
Proof.
  unfold binary_round_aux.
  destruct (shr_fexp prec emax m e l) as [mrs' e'].
  destruct (shr_fexp prec emax _ e' loc_Exact) as [mrs'' e''].
  destruct (shr_m mrs'') as [| p | p]; simpl; try reflexivity.
  destruct (_ <=? _); reflexivity.
Qed.

Lemma fdiv_not_negative (x y : float) :
  is_pos x = true -> is_pos y = true -> not_negative (fdiv_ieee x y) = true.
Proof.
  destruct x as [| | | [] mx ex]; try discriminate.
  destruct y as [| | | [] my ey]; try discriminate.
  intros _ _. unfold fdiv_ieee, SFdiv.
  destruct (SFdiv_core_binary prec emax (Zpos mx) ex (Zpos my) ey) as [[mz ez] lz].
  apply binary_round_aux_not_negative.
Qed.

Lemma of_int_not_negative {E} (n : Z) (y : float) :
  0 < n -> of_int (E := E) n = Ok y -> not_negative y = true.
Proof.
  intros Hn. unfold of_int.
  destruct n as [| p | p]; try lia.
  unfold binary_normalize, binary_round.
  destruct (shl_align p 0 _) as [mz ez].
  pose proof (binary_round_aux_not_negative (Zpos mz) ez loc_Exact) as H.
  destruct (binary_round_aux prec emax false (Zpos mz) ez loc_Exact);
    intros Hy; inversion Hy; subst; exact H.
Qed.

Lemma fmul_not_negative (x y : float) :
  not_negative x = true -> not_negative y = true -> not_negative (fmul x y) = true.
Proof.
  destruct x as [[] | [] | | [] mx ex]; try discriminate;
    destruct y as [[] | [] | | [] my ey]; try discriminate; intros _ _;
    try reflexivity.
  apply binary_round_aux_not_negative.
Qed.

(** The double [spacing / new_s * size] is not negative when its three
    operands are positive. *)
Lemma computed_extent_not_negative {E} (spacing new_s : float) (size : Z) (p : float) :
  is_pos spacing = true -> is_pos new_s = true -> 0 < size ->
  computed_extent (E := E) spacing size new_s = Ok p ->
  not_negative p = true.
Proof.
  intros Hs Hn Hz. unfold computed_extent, truediv, mul_int.
  destruct new_s as [| | | [] mn en]; try discriminate. simpl is_zero. cbv iota.
  simpl rbind.
  destruct (of_int size) as [y | e] eqn:Hy; simpl; [| discriminate].
  intros Hp. injection Hp as <-.
  apply fmul_not_negative.
  - apply fdiv_not_negative; [exact Hs | reflexivity].
  - exact (of_int_not_negative size y Hz Hy).
Qed.

(** For a float that is not negative, [int(x)] is the floor of its exact
    value: [0 <= int(x) <= x < int(x) + 1]. *)
Lemma to_int_floor {E} (x : float) (n : Z) :
  not_negative x = true -> to_int (E := E) x = Ok n ->
  0 <= n /\ (inject_Z n <= to_Q x)%Q /\ (to_Q x < inject_Z n + 1)%Q.
Proof.
  intros Hx Hn.
  destruct x as [s | s | | s m e]; simpl in Hn; try discriminate.
  - injection Hn as <-. simpl. split; [lia | split; [apply Qle_refl | reflexivity]].
  - destruct s; try discriminate. simpl cond_Zopp in Hn. injection Hn as <-.
    rewrite <- Qfloor_mantissa. simpl to_Q.
    pose proof (mantissa_pos m e) as Hpos.
    repeat split.
    + change 0 with (Qfloor 0). apply Qfloor_resp_le, Qlt_le_weak, Hpos.
    + apply Qfloor_le.
    + rewrite <- (inject_Z_plus _ 1). apply Qlt_floor.
Qed.

(** ** The resampling-size computation *)

Lemma comprehension_Forall2 {E A B} (f : A -> Result E B) (l : list A) (r : list B) :
  comprehension f l = Ok r -> Forall2 (fun a b => f a = Ok b) l r.
Proof.
  revert r. induction l as [| a l IH]; intros r; simpl.
  - intros H. injection H as <-. constructor.
  - destruct (f a) as [b | e] eqn:Hb; simpl; [| discriminate].
    destruct (comprehension f l) as [bs | e]; simpl; [| discriminate].
    intros H. injection H as <-. constructor; auto.
Qed.

Lemma resampled_size_dim_inv {E} (spacing new_s : float) (size k : Z) :
  resampled_size_dim (E := E) spacing size new_s = Ok k ->
  exists p, computed_extent (E := E) spacing size new_s = Ok p /\ to_int (E := E) p = Ok k.
Proof.
  unfold resampled_size_dim.
  destruct (computed_extent spacing size new_s) as [p | e]; simpl; [| discriminate].
  intros H. exists p. split; [reflexivity | exact H].
Qed.

Example resampled_rire :
  resampled_image_size (E := unit) [f1_25; f1_25; f4_0] [256; 256; 26]
    (isotropic_spacing 3) = Ok [320; 320; 104].
Proof. vm_compute. reflexivity. Qed.

Example literal_0_01 :
  rbind (E := unit) (of_int 1) (fun a => rbind (of_int 100) (fun b => Ok (fdiv_ieee a b)))
  = Ok f0_01.
Proof. vm_compute. reflexivity. Qed.

Example literal_11_7 :
  rbind (E := unit) (of_int 11) (fun a => rbind (of_int 7) (fun b => Ok (fdiv_ieee a b)))
  = Ok f11_7.
Proof. vm_compute. reflexivity. Qed.

(** C1, as stated, fails: for a 3 x 3 x 3 volume with spacing
    1.5 x 1.5 x 1.25 the cell computes the size 4 x 4 x 3, and 3 is not the
    nearest integer of 1.25 / 1.0 x 3 = 3.75. *)
Lemma resampled_size_is_not_rounded :
  resampled_image_size (E := unit) [f1_5; f1_5; f1_25] [3; 3; 3]
    (isotropic_spacing 3) = Ok [4; 4; 3]
  /\ ~ spec_rounded_size f1_25 f1_0 3 3.
Proof.
  split.
  - vm_compute. reflexivity.
  - intros H. specialize (H 4).
    apply Qle_bool_iff in H. vm_compute in H. discriminate.
Qed.

(** C1, amended: for every dimension the resampled size is the truncation
    toward zero of the double [spacing / new_s * size] the cell computes. *)
Theorem resampled_image_size_truncates {E}
  (original_spacing : list float) (original_size : list Z)
  (new_spacing : list float) (sizes : list Z) :
  resampled_image_size (E := E) original_spacing original_size new_spacing = Ok sizes ->
  Forall2 (fun '(spacing, size, new_s) k =>
             exists p, computed_extent (E := E) spacing size new_s = Ok p
                       /\ k = Qtrunc (to_Q p))
          (zip3 original_spacing original_size new_spacing) sizes.
Proof.
  intros H. apply comprehension_Forall2 in H.
  induction H as [| [[spacing size] new_s] k l r Hk _ IH]; constructor; auto.
  apply resampled_size_dim_inv in Hk. destruct Hk as [p [Hp Hk]].
  exists p. split; [exact Hp | exact (to_int_trunc p k Hk)].
Qed.

Lemma resampled_image_size_truncates_witness :
  Forall2 (fun '(spacing, size, new_s) k =>
             exists p, computed_extent (E := unit) spacing size new_s = Ok p
                       /\ k = Qtrunc (to_Q p))
          (zip3 [f1_25; f1_25; f4_0] [256; 256; 26] (isotropic_spacing 3))
          [320; 320; 104].
Proof.
  apply (resampled_image_size_truncates (E := unit)).
  vm_compute. reflexivity.
Defined.

(** C9, as stated, fails: with spacing [11 / 7] (the double
    1.5714285714285714, just below 11/7) and 7 voxels the product rounds up
    to 11.0, so the resampled size is 11 and 11 x 1.0 exceeds the original
    extent, which is 11 - 2^-52. *)
Lemma resampled_extent_exceeds_original :
  is_pos f11_7 = true /\ 0 < 7
  /\ resampled_size_dim (E := unit) f11_7 7 f1_0 = Ok 11
  /\ ~ (inject_Z 11 * to_Q f1_0 <= to_Q f11_7 * inject_Z 7)%Q.
Proof.
  repeat split.
  intros H. apply Qle_bool_iff in H. vm_compute in H. discriminate.
Qed.

(** C9, amended: for positive spacings and sizes, the resampled size times
    the new spacing (1.0) is not negative and does not exceed the double the
    cell computes for [spacing / new_s * size]; it stays within the original
    extent whenever that double does not exceed the exact product. *)
Theorem resampled_extent_le_computed {E}
  (original_spacing : list float) (original_size sizes : list Z) :
  Forall (fun s => is_pos s = true) original_spacing ->
  Forall (fun z => 0 < z) original_size ->
  resampled_image_size (E := E) original_spacing original_size
    (isotropic_spacing (List.length original_size)) = Ok sizes ->
  Forall2 (fun '(spacing, size, new_s) k =>
             exists p, computed_extent (E := E) spacing size new_s = Ok p
               /\ 0 <= k
               /\ (inject_Z k * to_Q new_s <= to_Q p)%Q
               /\ ((to_Q p <= to_Q spacing * inject_Z size)%Q ->
                   (inject_Z k * to_Q new_s <= to_Q spacing * inject_Z size)%Q))
          (zip3 original_spacing original_size
             (isotropic_spacing (List.length original_size))) sizes.
Proof.
  intros Hs Hz H. apply comprehension_Forall2 in H.
  assert (Hin : Forall (fun '(spacing, size, new_s) =>
                          is_pos spacing = true /\ 0 < size /\ new_s = f1_0)
                  (zip3 original_spacing original_size
                     (isotropic_spacing (List.length original_size)))).
  { unfold isotropic_spacing. generalize (List.length original_size) as n.
    clear H sizes. revert original_size Hz.
    induction Hs as [| s sp Hs1 Hs IH]; intros sz Hz n; [constructor |].
    destruct Hz as [| z sz Hz1 Hz]; [constructor |].
    destruct n as [| n]; simpl; [constructor |].
    constructor; [auto | apply IH; exact Hz]. }
  revert Hin.
  induction H as [| [[spacing size] new_s] k l r Hk _ IH]; intros Hin;
    constructor.
  - inversion Hin as [| ? ? Hhd _]; subst.
    destruct Hhd as [Hpos [Hsize Hnew]]; subst new_s.
    apply resampled_size_dim_inv in Hk. destruct Hk as [p [Hp Hk]].
    pose proof (computed_extent_not_negative spacing f1_0 size p Hpos
                  (eq_refl : is_pos f1_0 = true) Hsize Hp) as Hnn.
    destruct (to_int_floor p k Hnn Hk) as [H0 [Hle _]].
    assert (H1 : (inject_Z k * to_Q f1_0 == inject_Z k)%Q).
    { assert (Hone : (to_Q f1_0 == 1)%Q) by (vm_compute; reflexivity).
      rewrite Hone. ring. }
    exists p. repeat split; auto.
    + rewrite H1. exact Hle.
    + intros Hexact. rewrite H1. eapply Qle_trans; eauto.
  - apply IH. inversion Hin; assumption.
Qed.

Lemma resampled_extent_le_computed_witness :
  Forall2 (fun '(spacing, size, new_s) k =>
             exists p, computed_extent (E := unit) spacing size new_s = Ok p
               /\ 0 <= k
               /\ (inject_Z k * to_Q new_s <= to_Q p)%Q
               /\ ((to_Q p <= to_Q spacing * inject_Z size)%Q ->
                   (inject_Z k * to_Q new_s <= to_Q spacing * inject_Z size)%Q))
          (zip3 [f1_25; f1_25; f4_0] [256; 256; 26]
             (isotropic_spacing (List.length [256; 256; 26]))) [320; 320; 104].
Proof.
  apply (resampled_extent_le_computed (E := unit)).
  - repeat constructor.
  - repeat constructor.
  - vm_compute. reflexivity.
Defined.

(** ** The Marschner-Lobb image *)

Module MarschnerLobbFacts.
Import MarschnerLobbReal.
Local Open Scope R_scope.

Lemma quotient_in_unit_interval (n d : R) :
  0 < d -> 0 <= n <= d -> 0 <= n / d <= 1.
Proof.
  intros Hd [H0 H1]. split.
  - apply Rmult_le_pos; [exact H0 | left; apply Rinv_0_lt_compat; exact Hd].
  - apply (Rmult_le_reg_r d); [exact Hd |].
    unfold Rdiv. rewrite Rmult_assoc, Rinv_l, Rmult_1_r, Rmult_1_l by lra.
    exact H1.
Qed.

(** C10: for every size >= 1, alpha >= 0 and f_M, every pixel of the
    Marschner-Lobb image lies in [0, 1] (exact real arithmetic). *)
Theorem marschner_lobb_in_unit_interval (size : Z) (alpha f_M : R) (i j k : Z) :
  (1 <= size)%Z -> 0 <= alpha ->
  0 <= marschner_lobb size alpha f_M i j k <= 1.
Proof.
  intros _ Halpha.
  unfold marschner_lobb, pixelwise1, pixelwise2.
  set (z := PhysicalPointSource size 2 i j k).
  set (r := sqrt (PhysicalPointSource size 0 i j k ^ 2
                  + PhysicalPointSource size 1 i j k ^ 2)).
  pose proof (SIN_bound (PI / 2 * z)) as [Hs1 Hs2].
  pose proof (COS_bound (2 * PI * f_M * cos (PI / 2 * r))) as [Hc1 Hc2].
  apply quotient_in_unit_interval; [lra |].
  split; nra.
Qed.

Lemma marschner_lobb_in_unit_interval_witness :
  0 <= marschner_lobb 40 (1 / 4) 6 0%Z 0%Z 20%Z <= 1.
Proof.
  apply marschner_lobb_in_unit_interval; [lia | lra].
Defined.

(** At voxel (20, 20, 20) of the default image, the point (0, 0, 0), the
    value is (1 + 2 alpha) / (2 (1 + alpha)) = 3/5. *)
Example marschner_lobb_centre :
  marschner_lobb 40 (1 / 4) 6 20%Z 20%Z 20%Z = 3 / 5.
Proof.
  unfold marschner_lobb, pixelwise1, pixelwise2, PhysicalPointSource.
  replace (-1 + 20 * (2 / 40)) with 0 by lra.
  replace (0 ^ 2 + 0 ^ 2) with 0 by lra.
  rewrite sqrt_0, !Rmult_0_r, sin_0, cos_0, Rmult_1_r.
  replace (2 * PI * 6) with (0 + 2 * INR 6 * PI) by (simpl; lra).
  rewrite cos_period, cos_0. lra.
Qed.

End MarschnerLobbFacts.

(** ** Running the monad *)

Section MonadFacts.
Context {T : LibTypes} {L : Library}.

Lemma nth_error_snoc {A} (l : list A) (n : nat) (a b : A) :
  nth_error l n = Some a -> nth_error (l ++ [b]) n = Some a.
Proof.
  intros H. rewrite nth_error_app1; [exact H |].
  apply nth_error_Some. congruence.
Qed.

Lemma nth_error_snoc_last {A} (l : list A) (b : A) :
  nth_error (l ++ [b]) (List.length l) = Some b.
Proof.
  rewrite nth_error_app2, Nat.sub_diag by apply Nat.le_refl. reflexivity.
Qed.

(** [register_images] makes one library call, the optimisation, with the
    settings of its seven setters and the state of the initial transform;
    the result is a new transform object. *)
Lemma register_images_run (fixed_image moving_image : Image)
  (initial_transform : TransformRef) (interpolator : Interpolator)
  (w : World) (v0 : TransformV) :
  nth_error (store w) initial_transform = Some v0 ->
  let c := sitk_Registration_Execute
             (mkSettings (Some (MattesMutualInformation 50)) (Some REGULAR)
                (Some f0_01) (Some interpolator)
                (Some (GradientDescent f1_0 1000)) (Some ScalesFromPhysicalShift))
             (Some v0) fixed_image moving_image in
  register_images fixed_image moving_image initial_transform interpolator w =
  match lib _ c (env w) with
  | (Ok (v', description), env') =>
      (Ok (List.length (store w), description),
       mkWorld env' (store w ++ [v']) (trace w ++ [Ev c (Ok (v', description))]))
  | (Raise e, env') =>
      (Raise e, mkWorld env' (store w) (trace w ++ [Ev c (Raise e)]))
  end.
Proof.
  intros Hv c.
  unfold register_images, Execute, bind, call, deref, ret, alloc. cbn.
  rewrite Hv. fold c.
  destruct (lib _ c (env w)) as [[[v' description] | e] env']; reflexivity.
Qed.

End MonadFacts.

Lemma filter_map_app {A B} (f : A -> option B) (l1 l2 : list A) :
  filter_map f (l1 ++ l2) = filter_map f l1 ++ filter_map f l2.
Proof.
  induction l1 as [| a l1 IH]; simpl; [reflexivity |].
  destruct (f a); simpl; rewrite IH; reflexivity.
Qed.

(** ** [register_images] *)

Section RegisterImages.
Context {T : LibTypes} {L : Library}.

(** C2: [register_images] sets the Mattes metric with 50 bins, regular
    sampling of 1 percent, the caller's interpolator, gradient descent and
    the initial transform on one registration method, executes it once, and
    returns the final transform with the optimizer's stop description. *)
Theorem register_images_configures_and_executes_once
  (fixed_image moving_image : Image) (initial_transform : TransformRef)
  (interpolator : Interpolator) (w : World) (v0 : TransformV) :
  nth_error (store w) initial_transform = Some v0 ->
  let run := register_images fixed_image moving_image initial_transform interpolator w in
  exists outcome,
    trace (snd run) =
      trace w ++
      [Ev (sitk_Registration_Execute
             (mkSettings (Some (MattesMutualInformation 50)) (Some REGULAR)
                (Some f0_01) (Some interpolator)
                (Some (GradientDescent f1_0 1000)) (Some ScalesFromPhysicalShift))
             (Some v0) fixed_image moving_image) outcome]
    /\ match outcome with
       | Ok (v', description) =>
           exists final_transform,
             fst run = Ok (final_transform, description)
             /\ nth_error (store (snd run)) final_transform = Some v'
       | Raise e => fst run = Raise e
       end.
Proof.
  intros Hv run. subst run.
  rewrite (register_images_run _ _ _ _ _ _ Hv).
  match goal with |- context [lib _ ?c ?e] =>
    destruct (lib _ c e) as [[[v' description] | e'] env'] end.
  - exists (Ok (v', description)). split; [reflexivity |].
    exists (List.length (store w)). split; [reflexivity |].
    apply nth_error_snoc_last.
  - exists (Raise e'). split; reflexivity.
Qed.

(** C8: [register_images] leaves the transform object it is given as it
    was, so a second registration given the same object starts from the
    same state as the first. *)
Theorem register_images_preserves_initial_transform
  (fixed_image moving_image moving_image' : Image) (initial_transform : TransformRef)
  (interpolator interpolator' : Interpolator) (w : World) (v0 : TransformV) :
  nth_error (store w) initial_transform = Some v0 ->
  let w1 := snd (register_images fixed_image moving_image initial_transform
                   interpolator w) in
  let w2 := snd (register_images fixed_image moving_image' initial_transform
                   interpolator' w1) in
  nth_error (store w1) initial_transform = Some v0
  /\ nth_error (store w2) initial_transform = Some v0
  /\ registration_initials (trace w2) =
       registration_initials (trace w) ++ [Some v0; Some v0].
Proof.
  intros Hv w1 w2.
  assert (H1 : nth_error (store w1) initial_transform = Some v0
               /\ registration_initials (trace w1) =
                    registration_initials (trace w) ++ [Some v0]).
  { subst w1. rewrite (register_images_run _ _ _ _ _ _ Hv).
    match goal with |- context [lib _ ?c ?e] =>
      destruct (lib _ c e) as [[[v' description] | e'] env'] end; cbn [snd store trace];
      unfold registration_initials; rewrite filter_map_app; cbn;
      auto using nth_error_snoc. }
  destruct H1 as [Hs1 Ht1].
  split; [exact Hs1 |].
  subst w2. rewrite (register_images_run _ _ _ _ _ _ Hs1).
  match goal with |- context [lib _ ?c ?e] =>
    destruct (lib _ c e) as [[[v' description] | e'] env'] end; cbn [snd store trace];
    unfold registration_initials in *; rewrite filter_map_app, Ht1, <- app_assoc; cbn;
    auto using nth_error_snoc.
Qed.

End RegisterImages.

(** ** The resampling cell *)

Lemma comprehension_length {E A B} (f : A -> Result E B) (l : list A) (r : list B) :
  comprehension f l = Ok r -> List.length r = List.length l.
Proof.
  intros H. apply comprehension_Forall2 in H.
  induction H; simpl; congruence.
Qed.

Lemma zip3_length_same {A B C} (xs : list A) (ys : list B) (zs : list C) :
  List.length xs = List.length ys -> List.length zs = List.length ys ->
  List.length (zip3 xs ys zs) = List.length ys.
Proof.
  revert xs zs. induction ys as [| y ys IH]; intros [| x xs] [| z zs]; simpl;
    try discriminate; auto.
Qed.

Lemma firstn_repeat {A} (a : A) (n : nat) : firstn n (repeat a n) = repeat a n.
Proof.
  apply firstn_all2. rewrite repeat_length. apply Nat.le_refl.
Qed.

(** Destructs the next library call, stuck test or stuck match of a run
    that is known to succeed; the failing branches contradict it. *)
Ltac run_step H :=
  match type of H with
  | context [lib ?A ?c ?e] =>
      let r := fresh "r" in
      let x := fresh "x" in
      let env' := fresh "env'" in
      destruct (lib A c e) as [[r | x] env'] eqn:?
  | context [match ?b with true => _ | false => _ end] =>
      destruct b eqn:?
  | context [match nth_error ?l ?n with _ => _ end] =>
      destruct (nth_error l n) eqn:?
  end; cbn in H; try discriminate H.

Section ResamplingCell.
Context {T : LibTypes} {L : Library}.

(** C4: the image the resampling cell produces has spacing 1.0 in every
    dimension, and the origin, direction and pixel type of the moving
    image; its grid is finer wherever the original spacing exceeds 1.0. *)
Theorem resampling_cell_grid (moving_image resampled : Image) (w w' : World) :
  wf_image moving_image ->
  resampling_cell moving_image w = (Ok resampled, w') ->
  GetSpacing resampled = repeat f1_0 (GetDimension moving_image)
  /\ GetOrigin resampled = GetOrigin moving_image
  /\ GetDirection resampled = GetDirection moving_image
  /\ GetPixelID resampled = GetPixelID moving_image
  /\ (Forall (fun s => fltb f1_0 s = true) (GetSpacing moving_image) ->
      Forall2 (fun new old => fltb new old = true)
        (GetSpacing resampled) (GetSpacing moving_image)).
Proof.
  intros [Hsp [Hor Hdir]] H.
  unfold resampling_cell, sitk_Image, SetSpacing, SetOrigin, SetDirection,
    sitk_Transform, rf_SetTransform, rf_Execute, bind, lift, call, ret, raise,
    alloc, deref in H.
  destruct (resampled_image_size _ _ _) as [sizes | e] eqn:Hsizes; [| discriminate H].
  assert (Hlen : List.length sizes = GetDimension moving_image).
  { apply comprehension_length in Hsizes. rewrite Hsizes.
    apply zip3_length_same; [exact Hsp |].
    unfold isotropic_spacing. apply repeat_length. }
  cbn in H.
  repeat run_step H.
  injection H as <- _.
  unfold GetSpacing, GetOrigin, GetDirection, GetPixelID, GetDimension in *. cbn.
  rewrite Hlen.
  assert (Hspacing : firstn (List.length (img_size moving_image))
                       (isotropic_spacing (List.length (img_size moving_image)))
                     = repeat f1_0 (List.length (img_size moving_image)))
    by apply firstn_repeat.
  rewrite Hspacing.
  repeat split.
  - apply firstn_all2. rewrite Hor. apply Nat.le_refl.
  - rewrite <- Hsp. clear. induction (img_spacing moving_image) as [| s l IH];
      intros Hall; simpl; [constructor |].
    inversion Hall; subst. constructor; auto.
Qed.

End ResamplingCell.

(** ** Propagation of failures *)

Section PropagationFacts.
Context {T : LibTypes} {L : Library}.

Lemma outcome_of_raise {A B} (evs : list Event) (e : Exn LibExn) :
  outcome_of (A := A) evs (Raise e) -> outcome_of (A := B) evs (Raise e).
Proof.
  intros H. inversion H; subst.
  - apply no_failure. assumption.
  - apply failure_last. assumption.
Qed.

Lemma outcome_of_ok {A} (evs : list Event) (a : A) :
  outcome_of evs (Ok a) -> forallb succeeded evs = true.
Proof.
  intros H. inversion H; subst. assumption.
Qed.

Lemma outcome_of_app {A B} (evs1 evs2 : list Event) (a : A) (r : Result LibExn B) :
  outcome_of evs1 (Ok a) -> outcome_of evs2 r -> outcome_of (evs1 ++ evs2) r.
Proof.
  intros H1 H2. apply outcome_of_ok in H1.
  inversion H2; subst.
  - apply no_failure. rewrite forallb_app, H1. assumption.
  - rewrite app_assoc. apply failure_last. rewrite forallb_app, H1. assumption.
Qed.

Lemma propagates_ret {A} (a : A) : propagates (ret a).
Proof.
  intros w. exists []. cbn. rewrite app_nil_r. split; [reflexivity |].
  apply no_failure. reflexivity.
Qed.

Lemma propagates_raise {A} (e : Exn LibExn) : propagates (raise (A := A) e).
Proof.
  intros w. exists []. cbn. rewrite app_nil_r. split; [reflexivity |].
  apply no_failure. reflexivity.
Qed.

Lemma propagates_lift {A} (r : Result LibExn A) : propagates (lift r).
Proof.
  intros w. exists []. cbn. rewrite app_nil_r. split; [reflexivity |].
  apply no_failure. reflexivity.
Qed.

Lemma propagates_call {A} (c : LibCall A) : propagates (call c).
Proof.
  intros w. unfold call.
  destruct (lib A c (env w)) as [[a | e] env']; cbn.
  - exists [Ev c (Ok a)]. split; [reflexivity |]. apply no_failure. reflexivity.
  - exists [Ev c (Raise e)]. split; [reflexivity |].
    apply (failure_last []). reflexivity.
Qed.

Lemma propagates_alloc (v : TransformV) : propagates (alloc v).
Proof.
  intros w. exists []. cbn. rewrite app_nil_r. split; [reflexivity |].
  apply no_failure. reflexivity.
Qed.

Lemma propagates_deref (r : TransformRef) : propagates (deref r).
Proof.
  intros w. exists []. unfold deref.
  destruct (nth_error (store w) r); cbn; rewrite app_nil_r;
    (split; [reflexivity | apply no_failure; reflexivity]).
Qed.

Lemma propagates_assign (r : TransformRef) (v : TransformV) :
  propagates (assign r v).
Proof.
  intros w. exists []. cbn. rewrite app_nil_r. split; [reflexivity |].
  apply no_failure. reflexivity.
Qed.

Lemma propagates_bind {A B} (m : M A) (k : A -> M B) :
  propagates m -> (forall a, propagates (k a)) -> propagates (bind m k).
Proof.
  intros Hm Hk w. unfold bind.
  destruct (Hm w) as [evs1 [Ht1 Ho1]].
  destruct (m w) as [[a | e] w1]; cbn in *.
  - destruct (Hk a w1) as [evs2 [Ht2 Ho2]].
    exists (evs1 ++ evs2). split.
    + rewrite Ht2, Ht1, app_assoc. reflexivity.
    + exact (outcome_of_app _ _ _ _ Ho1 Ho2).
  - exists evs1. split; [exact Ht1 | exact (outcome_of_raise _ _ Ho1)].
Qed.

Lemma propagates_mapM {A B} (f : A -> M B) (l : list A) :
  (forall a, propagates (f a)) -> propagates (mapM f l).
Proof.
  intros Hf. induction l as [| a l IH]; simpl.
  - apply propagates_ret.
  - apply propagates_bind; [apply Hf | intros b].
    apply propagates_bind; [exact IH | intros bs].
    apply propagates_ret.
Qed.

Lemma raised_not_succeeded (evs : list Event) (B : Type) (c : LibCall B)
  (e : Exn LibExn) :
  forallb succeeded evs = true -> ~ In (Ev c (Raise e)) evs.
Proof.
  intros Hall Hin. rewrite forallb_forall in Hall.
  specialize (Hall _ Hin). discriminate.
Qed.

Lemma propagates_propagates_failures {A} (m : M A) :
  propagates m -> propagates_failures m.
Proof.
  intros Hm w evs B c e Htrace Hin.
  destruct (Hm w) as [evs' [Htrace' Hout]].
  rewrite Htrace in Htrace'. apply app_inv_head in Htrace'. subst evs'.
  inversion Hout as [evs0 r Hall | evs0 B' c' e' Hall]; subst.
  - exfalso. exact (raised_not_succeeded _ _ _ _ Hall Hin).
  - apply in_app_or in Hin. destruct Hin as [Hin | [Heq | []]].
    + exfalso. exact (raised_not_succeeded _ _ _ _ Hall Hin).
    + assert (He : e' = e).
      { apply (f_equal raised) in Heq. cbn in Heq. congruence. }
      subst e'. split; [congruence |].
      exists evs0. rewrite Heq. split; [reflexivity | exact Hall].
Qed.

End PropagationFacts.

(** Decomposes a computation along its binds, calls and tests. *)
Ltac propagation :=
  repeat first
    [ apply propagates_ret
    | apply propagates_raise
    | apply propagates_lift
    | apply propagates_call
    | apply propagates_alloc
    | apply propagates_deref
    | apply propagates_assign
    | apply propagates_mapM; intros
    | apply propagates_bind; [| intros]
    | match goal with
      | |- propagates (let (_, _) := ?p in _) => destruct p
      | |- propagates (match ?x with _ => _ end) => destruct x
      end ].

Section NotebookPropagation.
Context {T : LibTypes} {L : Library}.

Lemma propagates_register_images (fixed_image moving_image : Image)
  (initial_transform : TransformRef) (interpolator : Interpolator) :
  propagates (register_images fixed_image moving_image initial_transform interpolator).
Proof.
  unfold register_images, Execute. cbn. propagation.
Qed.

Lemma propagates_load_data_cell : propagates load_data_cell.
Proof.
  unfold load_data_cell, sitk_Euler3DTransform, SetMatrix, SetTranslation,
    TransformPoint.
  propagation.
Qed.

Lemma propagates_resampling_cell (moving_image : Image) :
  propagates (resampling_cell moving_image).
Proof.
  unfold resampling_cell, sitk_Image, SetSpacing, SetOrigin, SetDirection,
    sitk_Transform, rf_SetTransform, rf_Execute.
  propagation.
Qed.

(** C5: in [register_images], in the data-loading cell and in the
    resampling cell, a library or data-fetch call that fails is the last
    call made, and the code ends with the very exception the call raised. *)
Theorem library_failures_propagate :
  (forall fixed_image moving_image initial_transform interpolator,
      propagates_failures
        (register_images fixed_image moving_image initial_transform interpolator))
  /\ propagates_failures load_data_cell
  /\ (forall moving_image, propagates_failures (resampling_cell moving_image)).
Proof.
  split; [| split]; intros; apply propagates_propagates_failures.
  - apply propagates_register_images.
  - apply propagates_load_data_cell.
  - apply propagates_resampling_cell.
Qed.

End NotebookPropagation.

(** ** Properties of the calls of a run *)

Section Respects.
Context {T : LibTypes} {L : Library}.
Variable P : list Event -> Prop.
Hypothesis P_nil : P [].
Hypothesis P_app : forall evs1 evs2, P evs1 -> P evs2 -> P (evs1 ++ evs2).

Lemma respects_ret {A} (a : A) : respects P (ret a).
Proof. intros w. exists []. cbn. rewrite app_nil_r. split; [reflexivity | exact P_nil]. Qed.

Lemma respects_raise {A} (e : Exn LibExn) : respects P (raise (A := A) e).
Proof. intros w. exists []. cbn. rewrite app_nil_r. split; [reflexivity | exact P_nil]. Qed.

Lemma respects_lift {A} (r : Result LibExn A) : respects P (lift r).
Proof. intros w. exists []. cbn. rewrite app_nil_r. split; [reflexivity | exact P_nil]. Qed.

Lemma respects_alloc (v : TransformV) : respects P (alloc v).
Proof. intros w. exists []. cbn. rewrite app_nil_r. split; [reflexivity | exact P_nil]. Qed.

Lemma respects_deref (r : TransformRef) : respects P (deref r).
Proof.
  intros w. exists []. unfold deref.
  destruct (nth_error (store w) r); cbn; rewrite app_nil_r;
    (split; [reflexivity | exact P_nil]).
Qed.

Lemma respects_assign (r : TransformRef) (v : TransformV) : respects P (assign r v).
Proof. intros w. exists []. cbn. rewrite app_nil_r. split; [reflexivity | exact P_nil]. Qed.

Lemma respects_call {A} (c : LibCall A) :
  (forall r, P [Ev c r]) -> respects P (call c).
Proof.
  intros Hc w. unfold call.
  destruct (lib A c (env w)) as [r env']. cbn.
  exists [Ev c r]. split; [reflexivity | apply Hc].
Qed.

Lemma respects_bind {A B} (m : M A) (k : A -> M B) :
  respects P m -> (forall a, respects P (k a)) -> respects P (bind m k).
Proof.
  intros Hm Hk w. unfold bind.
  destruct (Hm w) as [evs1 [Ht1 Ho1]].
  destruct (m w) as [[a | e] w1]; cbn in *.
  - destruct (Hk a w1) as [evs2 [Ht2 Ho2]].
    exists (evs1 ++ evs2). split.
    + rewrite Ht2, Ht1, app_assoc. reflexivity.
    + apply P_app; assumption.
  - exists evs1. split; assumption.
Qed.

Lemma respects_mapM {A B} (g : A -> M B) (l : list A) :
  (forall a, respects P (g a)) -> respects P (mapM g l).
Proof.
  intros Hg. induction l as [| a l IH]; simpl.
  - apply respects_ret.
  - apply respects_bind; [apply Hg | intros b].
    apply respects_bind; [exact IH | intros bs].
    apply respects_ret.
Qed.

(** A call whose result is the argument of the next call. *)
Lemma respects_call_then_call {A B C} (c1 : LibCall A) (c2 : A -> LibCall B)
  (k : B -> M C) :
  (forall e, P [Ev c1 (Raise e)]) ->
  (forall a r, P [Ev c1 (Ok a); Ev (c2 a) r]) ->
  (forall b, respects P (k b)) ->
  respects P (bind (call c1) (fun a => bind (call (c2 a)) k)).
Proof.
  intros H1 H2 Hk w. unfold bind, call.
  destruct (lib A c1 (env w)) as [[a | e] env1]; cbn.
  - destruct (lib B (c2 a) env1) as [[b | e] env2]; cbn.
    + match goal with |- context [k b ?w'] => destruct (Hk b w') as [evs [Ht Ho]] end.
      exists ([Ev c1 (Ok a); Ev (c2 a) (Ok b)] ++ evs). split.
      * rewrite Ht. cbn. rewrite <- !app_assoc. reflexivity.
      * apply P_app; [apply H2 | exact Ho].
    + exists [Ev c1 (Ok a); Ev (c2 a) (Raise e)]. split.
      * rewrite <- app_assoc. reflexivity.
      * apply H2.
  - exists [Ev c1 (Raise e)]. split; [reflexivity | apply H1].
Qed.

End Respects.

(** ** Observing a run *)

Section ObservationFacts.
Context {T : LibTypes} {L : Library} {X : Type} (f : Event -> option X).

Lemma prefix_nil (l : list X) : prefix [] l.
Proof. exists l. reflexivity. Qed.

Lemma prefix_refl (l : list X) : prefix l l.
Proof. exists []. rewrite app_nil_r. reflexivity. Qed.

Lemma prefix_app_r (xs l l' : list X) : prefix xs l -> prefix xs (l ++ l').
Proof.
  intros [rest ->]. exists (rest ++ l'). rewrite app_assoc. reflexivity.
Qed.

Lemma prefix_app_l (xs ys l : list X) : prefix ys l -> prefix (xs ++ ys) (xs ++ l).
Proof.
  intros [rest ->]. exists rest. rewrite app_assoc. reflexivity.
Qed.

Lemma silent_ret {A} (a : A) : silent f (ret a).
Proof. apply respects_ret. reflexivity. Qed.

Lemma silent_raise {A} (e : Exn LibExn) : silent f (raise (A := A) e).
Proof. apply respects_raise. reflexivity. Qed.

Lemma silent_lift {A} (r : Result LibExn A) : silent f (lift r).
Proof. apply respects_lift. reflexivity. Qed.

Lemma silent_alloc (v : TransformV) : silent f (alloc v).
Proof. apply respects_alloc. reflexivity. Qed.

Lemma silent_deref (r : TransformRef) : silent f (deref r).
Proof. apply respects_deref. reflexivity. Qed.

Lemma silent_assign (r : TransformRef) (v : TransformV) : silent f (assign r v).
Proof. apply respects_assign. reflexivity. Qed.

Lemma silent_call {A} (c : LibCall A) :
  (forall r, f (Ev c r) = None) -> silent f (call c).
Proof.
  intros Hf. apply respects_call. intros r. cbn. rewrite Hf. reflexivity.
Qed.

Lemma silent_app (evs1 evs2 : list Event) :
  filter_map f evs1 = [] -> filter_map f evs2 = [] ->
  filter_map f (evs1 ++ evs2) = [].
Proof.
  intros H1 H2. rewrite filter_map_app, H1, H2. reflexivity.
Qed.

Lemma silent_bind {A B} (m : M A) (k : A -> M B) :
  silent f m -> (forall a, silent f (k a)) -> silent f (bind m k).
Proof. apply respects_bind. exact silent_app. Qed.

Lemma silent_mapM {A B} (g : A -> M B) (l : list A) :
  (forall a, silent f (g a)) -> silent f (mapM g l).
Proof. apply respects_mapM; [reflexivity | exact silent_app]. Qed.

Lemma performs_silent {A} (m : M A) : silent f m -> performs f m [].
Proof.
  intros Hm w. destruct (Hm w) as [evs [Ht Ho]].
  exists evs. split; [exact Ht |].
  destruct (fst (m w)); [exact Ho | rewrite Ho; apply prefix_nil].
Qed.

(** A call the observation shows, whatever its outcome. *)
Lemma performs_call {A} (c : LibCall A) (x : X) :
  (forall r, f (Ev c r) = Some x) -> performs f (call c) [x].
Proof.
  intros Hf w. unfold call.
  destruct (lib A c (env w)) as [r env']. cbn.
  exists [Ev c r]. split; [reflexivity |]. cbn. rewrite Hf.
  destruct r; [reflexivity | apply prefix_refl].
Qed.

Lemma performs_bind {A B} (m : M A) (k : A -> M B) (l1 l2 : list X) :
  performs f m l1 -> (forall a, performs f (k a) l2) ->
  performs f (bind m k) (l1 ++ l2).
Proof.
  intros Hm Hk w. unfold bind.
  destruct (Hm w) as [evs1 [Ht1 Ho1]].
  destruct (m w) as [[a | e] w1]; cbn in *.
  - destruct (Hk a w1) as [evs2 [Ht2 Ho2]].
    exists (evs1 ++ evs2). split.
    + rewrite Ht2, Ht1, app_assoc. reflexivity.
    + rewrite filter_map_app, Ho1.
      destruct (fst (k a w1)); [rewrite Ho2; reflexivity |].
      apply prefix_app_l. exact Ho2.
  - exists evs1. split; [exact Ht1 | apply prefix_app_r; exact Ho1].
Qed.

Lemma performs_bind_silent {A B} (m : M A) (k : A -> M B) (l : list X) :
  silent f m -> (forall a, performs f (k a) l) -> performs f (bind m k) l.
Proof.
  intros Hm Hk. apply (performs_bind m k [] l); [| exact Hk].
  apply performs_silent. exact Hm.
Qed.

Lemma performs_eq {A} (m : M A) (l l' : list X) :
  performs f m l' -> l' = l -> performs f m l.
Proof. intros H <-. exact H. Qed.

Lemma performs_then_silent {A B} (m : M A) (k : A -> M B) (l : list X) :
  performs f m l -> (forall a, silent f (k a)) -> performs f (bind m k) l.
Proof.
  intros Hm Hk. rewrite <- (app_nil_r l).
  apply performs_bind; [exact Hm |].
  intros a. apply performs_silent. apply Hk.
Qed.

End ObservationFacts.

(** Shows that a computation is silent, along its binds, calls and tests. *)
Ltac silence :=
  repeat first
    [ apply silent_ret
    | apply silent_raise
    | apply silent_lift
    | apply silent_alloc
    | apply silent_deref
    | apply silent_assign
    | apply silent_call; intros; reflexivity
    | apply silent_mapM; intros
    | apply silent_bind; [| intros]
    | match goal with
      | |- silent _ (let (_, _) := ?p in _) => destruct p
      | |- silent _ (match ?x with _ => _ end) => destruct x
      end ].

(** Splits a computation into its silent parts and the calls it shows;
    the list shown is computed along the way. *)
Ltac perform :=
  repeat first
    [ apply performs_silent; solve [silence]
    | eapply performs_call; intros; cbn; reflexivity
    | eapply performs_bind; [| intros]
    | match goal with
      | |- performs _ (let (_, _) := ?p in _) _ => destruct p
      end ].

(** ** The expand notebook *)

Section ExpandFacts.
Context {T : LibTypes} {L : Library}.

Lemma myshow_expands_nothing (img : Image) (title : option string) (margin : float) :
  silent expand_interpolator (myshow img title margin).
Proof. unfold myshow. silence. Qed.

Lemma marschner_lobb_expands_nothing (size : Z) (alpha f_M : float) :
  silent expand_interpolator (marschner_lobb size alpha f_M).
Proof. unfold marschner_lobb. silence. Qed.

Lemma demonstrate_expands_once (ml : Image) (interp : Interpolator) (title : string) :
  performs expand_interpolator (demonstrate ml interp title) [interp].
Proof.
  unfold demonstrate.
  apply performs_then_silent.
  - apply performs_call. intros; reflexivity.
  - intros expanded. apply myshow_expands_nothing.
Qed.

Lemma expand_demonstration_cell_interpolators :
  performs expand_interpolator expand_demonstration_cell
    [sitkNearestNeighbor; sitkLinear; sitkBSpline; sitkGaussian;
     sitkHammingWindowedSinc; sitkBlackmanWindowedSinc; sitkCosineWindowedSinc;
     sitkWelchWindowedSinc; sitkLanczosWindowedSinc].
Proof.
  unfold expand_demonstration_cell.
  apply performs_bind_silent; [apply marschner_lobb_expands_nothing | intros ml].
  apply performs_bind_silent; [silence | intros last].
  apply performs_bind_silent; [silence | intros slice].
  repeat (apply (performs_bind _ _ _ [_]);
          [apply demonstrate_expands_once | intros _]).
  apply demonstrate_expands_once.
Qed.

(** C6, amended: the interpolators the expand notebook demonstrates are, in
    order, nearest neighbor, linear, B-spline, Gaussian and the Hamming,
    Blackman, cosine, Welch and Lanczos windowed sincs (an initial segment of
    them when a call fails); each is a rule of the glossary or the Gaussian
    interpolator. *)
Theorem expand_notebook_interpolators (w : World) :
  exists evs,
    trace (snd (expand_notebook w)) = trace w ++ evs
    /\ prefix (demonstrated_interpolators evs)
         [sitkNearestNeighbor; sitkLinear; sitkBSpline; sitkGaussian;
          sitkHammingWindowedSinc; sitkBlackmanWindowedSinc;
          sitkCosineWindowedSinc; sitkWelchWindowedSinc; sitkLanczosWindowedSinc]
    /\ (fst (expand_notebook w) = Ok tt ->
        demonstrated_interpolators evs =
          [sitkNearestNeighbor; sitkLinear; sitkBSpline; sitkGaussian;
           sitkHammingWindowedSinc; sitkBlackmanWindowedSinc;
           sitkCosineWindowedSinc; sitkWelchWindowedSinc; sitkLanczosWindowedSinc])
    /\ Forall (fun i => named_by_glossary i = true \/ is_gaussian i = true)
         (demonstrated_interpolators evs).
Proof.
  assert (H : performs expand_interpolator expand_notebook
                [sitkNearestNeighbor; sitkLinear; sitkBSpline; sitkGaussian;
                 sitkHammingWindowedSinc; sitkBlackmanWindowedSinc;
                 sitkCosineWindowedSinc; sitkWelchWindowedSinc;
                 sitkLanczosWindowedSinc]).
  { unfold expand_notebook.
    apply performs_bind_silent; [unfold expand_setup_cell; silence | intros _].
    apply performs_bind_silent; [| intros _].
    - unfold show_cell.
      repeat first [ apply marschner_lobb_expands_nothing
                   | apply myshow_expands_nothing
                   | apply silent_bind; [| intros] ].
    - apply expand_demonstration_cell_interpolators. }
  destruct (H w) as [evs [Htrace Hobs]].
  exists evs. split; [exact Htrace |].
  fold (demonstrated_interpolators evs) in Hobs.
  assert (Hpre : prefix (demonstrated_interpolators evs)
                   [sitkNearestNeighbor; sitkLinear; sitkBSpline; sitkGaussian;
                    sitkHammingWindowedSinc; sitkBlackmanWindowedSinc;
                    sitkCosineWindowedSinc; sitkWelchWindowedSinc;
                    sitkLanczosWindowedSinc]).
  { destruct (fst (expand_notebook w)); [rewrite Hobs; apply prefix_refl | exact Hobs]. }
  split; [exact Hpre |]. split.
  - intros Hok. rewrite Hok in Hobs. exact Hobs.
  - destruct Hpre as [rest Hrest].
    assert (Hall : Forall (fun i => named_by_glossary i = true \/ is_gaussian i = true)
                     (demonstrated_interpolators evs ++ rest)).
    { rewrite <- Hrest.
      repeat (apply Forall_cons; [first [left; reflexivity | right; reflexivity] |]).
      apply Forall_nil. }
    apply Forall_app in Hall. exact (proj1 Hall).
Qed.

End ExpandFacts.

(** ** The registration notebook *)

(** Unfolds the cells and the object methods down to binds and calls. *)
Ltac unfold_notebook :=
  unfold registration_notebook, setup_cell, load_data_cell, resampling_cell,
    initial_alignment_cell, original_resolution_cell, higher_resolution_cell,
    timed_registration, compare_cell, register_images, Execute,
    sitk_Image, SetSpacing, SetOrigin, SetDirection, sitk_Transform,
    sitk_Euler3DTransform, SetMatrix, SetTranslation, TransformPoint,
    rf_SetTransform, rf_Execute;
  cbn.

Section RegistrationNotebookFacts.
Context {T : LibTypes} {L : Library}.

Lemma registration_notebook_steps :
  performs step_of registration_notebook
    [LoadImage; LoadImage; LoadFiducials; Resample;
     Register (Some sitkLinear); ErrorStatistics;
     Register (Some sitkNearestNeighbor); ErrorStatistics;
     Histogram; Histogram].
Proof.
  eapply performs_eq.
  - unfold_notebook. perform.
  - reflexivity.
Qed.

(** A registration cell starts its optimisation from the state of the
    initial transform, and leaves that state as it was. *)
Lemma timed_registration_initial (fixed_image moving_image : Image)
  (initial_transform : TransformRef) (interpolator : Interpolator)
  (fixed_points moving_points : list Point) (w w' : World) (v : TransformV)
  (r : Result LibExn (list float)) :
  nth_error (store w) initial_transform = Some v ->
  timed_registration fixed_image moving_image initial_transform
    interpolator fixed_points moving_points w = (r, w') ->
  exists evs,
    trace w' = trace w ++ evs
    /\ registration_initials evs = [Some v]
    /\ nth_error (store w') initial_transform = Some v.
Proof.
  intros Hv H.
  unfold timed_registration in H. unfold bind at 1 in H.
  rewrite (register_images_run _ _ _ _ _ _ Hv) in H.
  destruct (lib _ _ (env w)) as [[[v' description] | e'] env'] in H.
  - unfold bind, call, deref, ret in H. cbn in H.
    rewrite nth_error_snoc_last in H.
    repeat (match type of H with
            | context [lib ?A ?c ?e] => destruct (lib A c e) as [[? | ?] ?]
            | context [let (_, _) := ?p in _] => destruct p
            end; cbn in H);
    injection H as _ <-; cbn;
    (eexists; split; [rewrite <- !app_assoc; reflexivity |];
     split; [reflexivity | apply nth_error_snoc; exact Hv]).
  - injection H as _ <-. cbn.
    eexists. split; [reflexivity |]. split; [reflexivity | exact Hv].
Qed.

Lemma same_initial_Forall (v : TransformV) (l : list (option TransformV)) :
  Forall (eq (Some v)) l -> same_initial l.
Proof.
  intros H a b Ha Hb. rewrite Forall_forall in H.
  rewrite <- (H a Ha), <- (H b Hb). split; [reflexivity | discriminate].
Qed.

Lemma same_initial_nil : same_initial [].
Proof. intros a b []. Qed.

(** The three cells after the initial alignment. *)
Lemma registrations_same_initial (d : Loaded) (resampled_moving_image : Image)
  (initial_transform : TransformRef) (w : World) (v : TransformV) :
  nth_error (store w) initial_transform = Some v ->
  let w' := snd ((original_resolution_errors <-
                    original_resolution_cell d initial_transform ;;
                  resampled_resolution_errors <-
                    higher_resolution_cell d resampled_moving_image initial_transform ;;
                  compare_cell original_resolution_errors
                    resampled_resolution_errors) w) in
  exists evs,
    trace w' = trace w ++ evs /\ Forall (eq (Some v)) (registration_initials evs).
Proof.
  intros Hv w'. subst w'.
  unfold original_resolution_cell, higher_resolution_cell. unfold bind.
  destruct (timed_registration _ _ _ sitkLinear _ _ w) as [r1 w1] eqn:Hrun1.
  destruct (timed_registration_initial _ _ _ _ _ _ _ _ _ _ Hv Hrun1)
    as [evs1 [Ht1 [Ho1 Hs1]]].
  destruct r1 as [errors1 | e]; cbn [fst snd] in *.
  - destruct (timed_registration _ _ _ sitkNearestNeighbor _ _ w1)
      as [r2 w2] eqn:Hrun2.
    destruct (timed_registration_initial _ _ _ _ _ _ _ _ _ _ Hs1 Hrun2)
      as [evs2 [Ht2 [Ho2 Hs2]]].
    destruct r2 as [errors2 | e]; cbn [fst snd] in *.
    + assert (Hsilent : silent registration_initial (compare_cell errors1 errors2))
        by (unfold compare_cell; silence).
      destruct (Hsilent w2) as [evs3 [Ht3 Ho3]].
      exists (evs1 ++ evs2 ++ evs3). split.
      * rewrite Ht3, Ht2, Ht1, <- !app_assoc. reflexivity.
      * unfold registration_initials in *.
        rewrite !filter_map_app, Ho1, Ho2, Ho3. repeat constructor.
    + exists (evs1 ++ evs2). split.
      * rewrite Ht2, Ht1, <- !app_assoc. reflexivity.
      * unfold registration_initials in *.
        rewrite !filter_map_app, Ho1, Ho2. repeat constructor.
  - exists evs1. split; [exact Ht1 |]. rewrite Ho1. repeat constructor.
Qed.

(** The initial-alignment cell returns a transform object of the store. *)
Lemma initial_alignment_cell_alloc (fixed_image moving_image : Image)
  (w w' : World) (initial_transform : TransformRef) :
  initial_alignment_cell fixed_image moving_image w = (Ok initial_transform, w') ->
  exists v, nth_error (store w') initial_transform = Some v.
Proof.
  unfold initial_alignment_cell, sitk_Euler3DTransform, bind, call, alloc, deref, ret.
  intros H. cbn in H.
  repeat run_step H.
  injection H as <- <-. cbn. eexists. apply nth_error_snoc_last.
Qed.

Lemma registration_notebook_same_initial (w : World) :
  exists evs,
    trace (snd (registration_notebook w)) = trace w ++ evs
    /\ same_initial (registration_initials evs).
Proof.
  unfold registration_notebook. unfold bind.
  assert (H0 : silent registration_initial setup_cell)
    by (unfold setup_cell; silence).
  destruct (H0 w) as [evs0 [Ht0 Ho0]].
  destruct (setup_cell w) as [[[] | e] w0]; cbn [fst snd] in *;
    [| exists evs0; split; [exact Ht0 |];
       unfold registration_initials; rewrite Ho0; exact same_initial_nil].
  assert (H1 : silent registration_initial load_data_cell)
    by (unfold load_data_cell, sitk_Euler3DTransform, SetMatrix, SetTranslation,
          TransformPoint; silence).
  destruct (H1 w0) as [evs1 [Ht1 Ho1]].
  destruct (load_data_cell w0) as [[d | e] w1]; cbn [fst snd] in *;
    [| exists (evs0 ++ evs1); split; [rewrite Ht1, Ht0, <- !app_assoc; reflexivity |];
       unfold registration_initials; rewrite filter_map_app, Ho0, Ho1;
       exact same_initial_nil].
  assert (H2 : silent registration_initial (resampling_cell (moving_image d)))
    by (unfold resampling_cell, sitk_Image, SetSpacing, SetOrigin, SetDirection,
          sitk_Transform, rf_SetTransform, rf_Execute; silence).
  destruct (H2 w1) as [evs2 [Ht2 Ho2]].
  destruct (resampling_cell (moving_image d) w1) as [[resampled | e] w2]; cbn [fst snd] in *;
    [| exists (evs0 ++ evs1 ++ evs2); split;
       [rewrite Ht2, Ht1, Ht0, <- !app_assoc; reflexivity |];
       unfold registration_initials; rewrite !filter_map_app, Ho0, Ho1, Ho2;
       exact same_initial_nil].
  assert (H3 : silent registration_initial
                 (initial_alignment_cell (fixed_image d) (moving_image d)))
    by (unfold initial_alignment_cell, sitk_Euler3DTransform; silence).
  destruct (H3 w2) as [evs3 [Ht3 Ho3]].
  destruct (initial_alignment_cell (fixed_image d) (moving_image d) w2)
    as [[initial_transform | e] w3] eqn:Hinit; cbn [fst snd] in *;
    [| exists (evs0 ++ evs1 ++ evs2 ++ evs3); split;
       [rewrite Ht3, Ht2, Ht1, Ht0, <- !app_assoc; reflexivity |];
       unfold registration_initials; rewrite !filter_map_app, Ho0, Ho1, Ho2, Ho3;
       exact same_initial_nil].
  destruct (initial_alignment_cell_alloc _ _ _ _ _ Hinit) as [v Hv].
  destruct (registrations_same_initial d resampled initial_transform w3 v Hv)
    as [evs4 [Ht4 Ho4]].
  unfold bind in Ht4.
  exists (evs0 ++ evs1 ++ evs2 ++ evs3 ++ evs4). split.
  - rewrite Ht4, Ht3, Ht2, Ht1, Ht0, <- !app_assoc. reflexivity.
  - apply (same_initial_Forall v).
    unfold registration_initials in *.
    rewrite !filter_map_app, Ho0, Ho1, Ho2, Ho3. exact Ho4.
Qed.

Lemma registration_notebook_effects :
  performs effect_of registration_notebook
    [Setup "SimpleITK"; Setup "numpy"; Setup "matplotlib inline";
     Setup "matplotlib.pyplot"; Setup "run update_path_to_download_script";
     Setup "downloaddata"; Setup "registration_utilities"; Setup "ipywidgets";
     Fetch "training_001_ct.mha"; ReadImageFile;
     Fetch "training_001_mr_T1.mha"; ReadImageFile;
     Fetch "ct_T1.standard"; ReadGroundTruthFile;
     Display;
     Console GridReport; Console GridReport; Console MemoryRatio;
     Console StopCondition; Console ErrorReport; Console TimingReport;
     Console StopCondition; Console ErrorReport; Console TimingReport;
     Display; Display; Display; Display].
Proof.
  eapply performs_eq.
  - unfold_notebook. perform.
  - reflexivity.
Qed.

Lemma reads_fetched_nil : reads_fetched [].
Proof. intros path []. Qed.

Lemma reads_fetched_app (evs1 evs2 : list Event) :
  reads_fetched evs1 -> reads_fetched evs2 -> reads_fetched (evs1 ++ evs2).
Proof.
  intros H1 H2 path. rewrite !filter_map_app, !in_app_iff.
  intros [Hin | Hin]; [left; apply H1 | right; apply H2]; exact Hin.
Qed.

Lemma registration_notebook_reads_fetched :
  respects reads_fetched registration_notebook.
Proof.
  unfold_notebook.
  repeat first
    [ apply respects_ret; exact reads_fetched_nil
    | apply respects_raise; exact reads_fetched_nil
    | apply respects_lift; exact reads_fetched_nil
    | apply respects_alloc; exact reads_fetched_nil
    | apply respects_deref; exact reads_fetched_nil
    | apply respects_assign; exact reads_fetched_nil
    | apply respects_call; intros ? ? Hin; cbn in Hin; contradiction
    | apply respects_mapM;
        [exact reads_fetched_nil | exact reads_fetched_app | intros]
    | apply (respects_call_then_call reads_fetched reads_fetched_app (fdata _));
        [ intros ? ? Hin; cbn in Hin; contradiction
        | intros ? ? ? Hin; cbn in Hin |- *; exact Hin
        | intros ]
    | apply respects_bind; [exact reads_fetched_app | | intros]
    | match goal with
      | |- respects _ (let (_, _) := ?p in _) => destruct p
      | |- respects _ (match ?x with _ => _ end) => destruct x
      end ].
Qed.

End RegistrationNotebookFacts.

(** * Further properties of the notebooks' code *)

(** ** The resampling-size computation, continued *)

Lemma zip3_length {A B C} (xs : list A) (ys : list B) (zs : list C) :
  List.length (zip3 xs ys zs) =
  Nat.min (List.length xs) (Nat.min (List.length ys) (List.length zs)).
Proof.
  revert ys zs. induction xs as [| x xs IH]; intros [| y ys] [| z zs]; simpl;
    try reflexivity.
  rewrite IH. reflexivity.
Qed.

(** X1: the size list has one entry for each position the three zipped
    sequences share: its length is the shortest of their lengths. *)
Theorem resampled_image_size_length {E}
  (original_spacing : list float) (original_size : list Z)
  (new_spacing : list float) (sizes : list Z) :
  resampled_image_size (E := E) original_spacing original_size new_spacing = Ok sizes ->
  List.length sizes =
  Nat.min (List.length original_spacing)
    (Nat.min (List.length original_size) (List.length new_spacing)).
Proof.
  intros H. apply comprehension_length in H. rewrite H. apply zip3_length.
Qed.

Lemma resampled_image_size_length_witness :
  List.length [320; 320; 104] =
  Nat.min (List.length [f1_25; f1_25; f4_0])
    (Nat.min (List.length [256; 256; 26]) (List.length (isotropic_spacing 3))).
Proof.
  apply (resampled_image_size_length (E := unit)).
  vm_compute. reflexivity.
Defined.

Lemma comprehension_raise {E A B} (f : A -> Result E B) (l : list A) (e : Exn E) :
  comprehension f l = Raise e -> exists a, In a l /\ f a = Raise e.
Proof.
  induction l as [| a l IH]; simpl; [discriminate |].
  destruct (f a) as [b | e'] eqn:Hb; simpl.
  - destruct (comprehension f l) as [bs | e']; simpl; [discriminate |].
    intros H. injection H as ->.
    destruct (IH eq_refl) as [a' [Hin Ha']]. exists a'. auto.
  - intros H. injection H as ->. exists a. auto.
Qed.

Lemma zip3_In_third {A B C} (xs : list A) (ys : list B) (zs : list C)
  (x : A) (y : B) (z : C) :
  In (x, y, z) (zip3 xs ys zs) -> In z zs.
Proof.
  revert ys zs. induction xs as [| x' xs IH]; intros [| y' ys] [| z' zs]; simpl;
    try contradiction.
  intros [H | H]; [injection H as _ _ ->; auto | right; eapply IH; eauto].
Qed.

(** X2: with the new spacing of the cell, 1.0 in every dimension, the size
    computation can only fail with an [OverflowError] (a size or a product
    too large for a double or an integer) or a [ValueError] (a NaN); it
    never divides by zero. *)
Theorem resampled_image_size_raises {E}
  (original_spacing : list float) (original_size : list Z) (dim : nat)
  (e : Exn E) :
  resampled_image_size (E := E) original_spacing original_size
    (isotropic_spacing dim) = Raise e ->
  e = OverflowError \/ e = ValueError.
Proof.
  intros H. apply comprehension_raise in H.
  destruct H as [[[spacing size] new_s] [Hin H]].
  apply zip3_In_third in Hin. apply repeat_spec in Hin. subst new_s.
  unfold resampled_size_dim, computed_extent, truediv, mul_int, of_int in H.
  simpl is_zero in H. cbv iota in H. simpl rbind in H.
  destruct (binary_normalize prec emax size 0 false) as [s | s | | s m ex];
    simpl in H; try (injection H as <-; auto; fail).
  - destruct (fmul (fdiv_ieee spacing f1_0) (S754_zero s)) as [? | ? | | ? ? ?];
      simpl in H; try discriminate; injection H as <-; auto.
  - destruct (fmul (fdiv_ieee spacing f1_0) S754_nan) as [? | ? | | ? ? ?];
      simpl in H; try discriminate; injection H as <-; auto.
  - destruct (fmul (fdiv_ieee spacing f1_0) (S754_finite s m ex)) as [? | ? | | ? ? ?];
      simpl in H; try discriminate; injection H as <-; auto.
Qed.

Lemma resampled_image_size_raises_witness :
  (OverflowError : Exn unit) = OverflowError \/ (OverflowError : Exn unit) = ValueError.
Proof.
  apply (resampled_image_size_raises (E := unit)
           [S754_infinity false] [26] 1 OverflowError).
  vm_compute. reflexivity.
Defined.

(** X3: for positive spacings and sizes, [int()] is the floor of the double
    it is given: the resampled size is at most that double and less than one
    voxel below it. *)
Theorem resampled_size_dim_floor {E} (spacing new_s : float) (size k : Z) :
  is_pos spacing = true -> is_pos new_s = true -> 0 < size ->
  resampled_size_dim (E := E) spacing size new_s = Ok k ->
  exists p, computed_extent (E := E) spacing size new_s = Ok p
            /\ (inject_Z k <= to_Q p)%Q /\ (to_Q p < inject_Z k + 1)%Q.
Proof.
  intros Hs Hn Hz Hk.
  apply resampled_size_dim_inv in Hk. destruct Hk as [p [Hp Hk]].
  pose proof (computed_extent_not_negative spacing new_s size p Hs Hn Hz Hp) as Hnn.
  destruct (to_int_floor p k Hnn Hk) as [_ [Hle Hlt]].
  exists p. auto.
Qed.

Lemma resampled_size_dim_floor_witness :
  exists p, computed_extent (E := unit) f1_25 3 f1_0 = Ok p
            /\ (inject_Z 3 <= to_Q p)%Q /\ (to_Q p < inject_Z 3 + 1)%Q.
Proof.
  apply (resampled_size_dim_floor (E := unit) f1_25 f1_0 3 3); reflexivity.
Defined.

(** ** Integers as doubles *)

Lemma digits2_size (p : positive) : digits2_pos p = Pos.size p.
Proof. induction p; simpl; congruence. Qed.

Lemma digits2_iter_xO (p k : positive) :
  Zpos (digits2_pos (Pos.iter xO p k)) = Zpos (digits2_pos p) + Zpos k.
Proof.
  revert p. induction k using Pos.peano_ind; intros p.
  - simpl. lia.
  - rewrite Pos.iter_succ. simpl digits2_pos. rewrite Pos2Z.inj_succ, IHk. lia.
Qed.

Lemma fexp_normal (d : Z) : -1021 <= d -> fexp prec emax d = d - 53.
Proof. intros H. unfold fexp, emin, prec, emax. lia. Qed.

(** Rounding a mantissa of 53 bits whose exponent is in range changes
    nothing. *)
Lemma binary_round_aux_canonical (s : bool) (m : positive) (e : Z) :
  Zpos (digits2_pos m) = 53 -> -1074 <= e <= 971 ->
  binary_round_aux prec emax s (Zpos m) e loc_Exact = S754_finite s m e.
Proof.
  intros Hd He.
  assert (Hshift : fexp prec emax (Zdigits2 (Zpos m) + e) - e = 0).
  { simpl Zdigits2. rewrite Hd. rewrite fexp_normal by lia. lia. }
  unfold binary_round_aux, shr_fexp.
  rewrite Hshift. unfold shr at 1. cbv beta iota.
  cbn [shr_record_of_loc loc_of_shr_record round_nearest_even shr_m].
  rewrite Hshift. unfold shr. cbv beta iota. cbn [shr_record_of_loc shr_m].
  change (emax - prec) with 971.
  destruct (Z.leb_spec e 971); [reflexivity | lia].
Qed.

Lemma iter_xO_value (p k : positive) :
  Zpos (Pos.iter xO p k) = Zpos p * 2 ^ Zpos k.
Proof.
  induction k using Pos.peano_ind.
  - simpl. lia.
  - rewrite Pos.iter_succ, Pos2Z.inj_succ, Z.pow_succ_r by lia.
    rewrite Pos2Z.inj_xO, IHk. lia.
Qed.

Lemma digits2_bound (p : positive) : Zpos p < 2 ^ 53 -> Zpos (digits2_pos p) <= 53.
Proof.
  intros Hp. rewrite digits2_size.
  destruct (Z.le_gt_cases (Zpos (Pos.size p)) 53) as [H | H]; [exact H | exfalso].
  pose proof (Pos.size_le p) as Hle.
  apply Pos2Z.pos_le_pos in Hle. rewrite Pos2Z.inj_pow in Hle.
  assert (2 ^ 54 <= 2 ^ Zpos (Pos.size p)) by (apply Z.pow_le_mono_r; lia).
  change (2 ^ 54) with (2 * 2 ^ 53) in *. lia.
Qed.

(** Rounding a positive integer below 2^53 at exponent 0: the mantissa is
    shifted to 53 bits and nothing is lost. *)
Lemma binary_round_small (s : bool) (p : positive) :
  Zpos p < 2 ^ 53 ->
  exists m e, binary_round prec emax s p 0 = S754_finite s m e
              /\ e <= 0 /\ Zpos m = Zpos p * 2 ^ (- e).
Proof.
  intros Hp. pose proof (digits2_bound p Hp) as Hd.
  assert (Hd1 : 1 <= Zpos (digits2_pos p)) by lia.
  unfold binary_round.
  rewrite Z.add_0_r, fexp_normal by lia.
  unfold shl_align. rewrite Z.sub_0_r.
  destruct (Zpos (digits2_pos p) - 53) as [| k | k] eqn:Hk; try lia.
  - exists p, 0. split; [| split; [lia | simpl; lia]].
    apply binary_round_aux_canonical; lia.
  - exists (Pos.iter xO p k), (Zpos (digits2_pos p) - 53).
    split; [| split; [lia |]].
    + rewrite Hk. apply binary_round_aux_canonical.
      * rewrite digits2_iter_xO. lia.
      * lia.
    + rewrite iter_xO_value. f_equal. f_equal. lia.
Qed.

(** [float(n)] is exact for an integer of magnitude below 2^53. *)
Lemma of_int_small {E} (n : Z) :
  - 2 ^ 53 < n < 2 ^ 53 ->
  exists y, of_int (E := E) n = Ok y /\ (to_Q y == inject_Z n)%Q
            /\ (n <> 0 -> is_zero y = false).
Proof.
  intros Hn. unfold of_int, binary_normalize.
  destruct n as [| p | p].
  - exists (S754_zero false). split; [reflexivity |]. split; [reflexivity | congruence].
  - destruct (binary_round_small false p) as [m [e [Hr [He Hm]]]]; [lia |].
    rewrite Hr. exists (S754_finite false m e).
    split; [reflexivity |]. split; [| reflexivity].
    simpl to_Q. simpl cond_Zopp.
    destruct (Z.eq_dec e 0) as [-> | Hne].
    + change (- 0) with 0 in Hm. rewrite Z.pow_0_r, Z.mul_1_r in Hm.
      rewrite Hm. change (Qpower 2 0) with 1%Q. ring.
    + rewrite Hm, pow2_Q_neg by lia. rewrite inject_Z_mult.
      field. intros H0.
      assert (0 < 2 ^ (- e)) by (apply Z.pow_pos_nonneg; lia).
      apply (inject_Z_injective (2 ^ (- e)) 0) in H0. lia.
  - destruct (binary_round_small true p) as [m [e [Hr [He Hm]]]]; [lia |].
    rewrite Hr. exists (S754_finite true m e).
    split; [reflexivity |]. split; [| reflexivity].
    simpl to_Q. simpl cond_Zopp.
    change (Zneg m) with (- Zpos m). change (Zneg p) with (- Zpos p).
    destruct (Z.eq_dec e 0) as [-> | Hne].
    + change (- 0) with 0 in Hm. rewrite Z.pow_0_r, Z.mul_1_r in Hm.
      rewrite Hm. change (Qpower 2 0) with 1%Q. ring.
    + rewrite Hm, pow2_Q_neg by lia. rewrite !inject_Z_opp, inject_Z_mult.
      field. intros H0.
      assert (0 < 2 ^ (- e)) by (apply Z.pow_pos_nonneg; lia).
      apply (inject_Z_injective (2 ^ (- e)) 0) in H0. lia.
Qed.

(** ** Unit spacing *)

(** A positive integer below 2^53 is a double of 53 bits. *)
Lemma binary_round_small_canonical (s : bool) (p : positive) :
  Zpos p < 2 ^ 53 ->
  exists m e, binary_round prec emax s p 0 = S754_finite s m e
              /\ Zpos (digits2_pos m) = 53 /\ -52 <= e <= 0
              /\ Zpos m = Zpos p * 2 ^ (- e).
Proof.
  intros Hp. pose proof (digits2_bound p Hp) as Hd.
  assert (Hd1 : 1 <= Zpos (digits2_pos p)) by lia.
  unfold binary_round.
  rewrite Z.add_0_r, fexp_normal by lia.
  unfold shl_align. rewrite Z.sub_0_r.
  destruct (Zpos (digits2_pos p) - 53) as [| k | k] eqn:Hk; try lia.
  - exists p, 0. split; [| split; [lia | split; [lia | simpl; lia]]].
    apply binary_round_aux_canonical; lia.
  - exists (Pos.iter xO p k), (Zpos (digits2_pos p) - 53).
    split; [| split; [| split; [lia |]]].
    + rewrite Hk. apply binary_round_aux_canonical.
      * rewrite digits2_iter_xO. lia.
      * lia.
    + rewrite digits2_iter_xO. lia.
    + rewrite iter_xO_value. f_equal. f_equal. lia.
Qed.

Lemma shr_52 (m : positive) :
  SpecFloat.iter_pos shr_1 52 (shr_record_of_loc (Zpos (Pos.iter xO m 52)) loc_Exact)
  = shr_record_of_loc (Zpos m) loc_Exact.
Proof. reflexivity. Qed.

(** Multiplying a double of 53 bits by 1.0 changes nothing. *)
Lemma fmul_one (s : bool) (m : positive) (e : Z) :
  Zpos (digits2_pos m) = 53 -> -1022 <= e <= 971 ->
  fmul f1_0 (S754_finite s m e) = S754_finite s m e.
Proof.
  intros Hd He. unfold fmul, f1_0, SFmul. cbn [xorb].
  change (Pos.mul 4503599627370496 m) with (Pos.iter xO m 52).
  assert (Hshift : fexp prec emax (Zdigits2 (Zpos (Pos.iter xO m 52)) + (-52 + e))
                   - (-52 + e) = 52).
  { unfold Zdigits2. rewrite digits2_iter_xO, Hd. rewrite fexp_normal by lia. lia. }
  unfold binary_round_aux, shr_fexp.
  rewrite Hshift. unfold shr at 1. cbv beta iota.
  rewrite shr_52.
  cbn [shr_record_of_loc loc_of_shr_record round_nearest_even shr_m].
  replace (-52 + e + 52) with e by lia.
  assert (Hshift' : fexp prec emax (Zdigits2 (Zpos m) + e) - e = 0).
  { simpl Zdigits2. rewrite Hd. rewrite fexp_normal by lia. lia. }
  rewrite Hshift'. unfold shr. cbv beta iota. cbn [shr_record_of_loc shr_m].
  change (emax - prec) with 971.
  destruct (Z.leb_spec e 971); [reflexivity | lia].
Qed.

Lemma to_int_scaled {E} (s : bool) (m p : positive) (e : Z) :
  e <= 0 -> Zpos m = Zpos p * 2 ^ (- e) ->
  to_int (E := E) (S754_finite s m e) = Ok (cond_Zopp s (Zpos p)).
Proof.
  intros He Hm. unfold to_int. f_equal. f_equal.
  destruct (Z.leb_spec 0 e) as [H0 | H0].
  - assert (e = 0) as -> by lia. rewrite Z.shiftl_0_r.
    change (- 0) with 0 in Hm. rewrite Z.pow_0_r, Z.mul_1_r in Hm. exact Hm.
  - rewrite Z.shiftr_div_pow2 by lia. rewrite Hm.
    apply Z.div_mul. apply Z.pow_nonzero; lia.
Qed.

(** Where the spacing is already 1.0, the size is kept. *)
Lemma resampled_size_dim_unit {E} (size : Z) :
  - 2 ^ 53 < size < 2 ^ 53 ->
  resampled_size_dim (E := E) f1_0 size f1_0 = Ok size.
Proof.
  intros Hsize.
  unfold resampled_size_dim, computed_extent, truediv. cbn [is_zero f1_0].
  assert (Hdiv : fdiv_ieee f1_0 f1_0 = f1_0) by (vm_compute; reflexivity).
  rewrite Hdiv. cbn [rbind].
  unfold mul_int, of_int, binary_normalize.
  destruct size as [| p | p].
  - reflexivity.
  - destruct (binary_round_small_canonical false p) as [m [e [Hr [Hd [He Hm]]]]];
      [lia |].
    rewrite Hr. cbn [rbind]. rewrite fmul_one by lia.
    apply (to_int_scaled false m p e); [lia | exact Hm].
  - destruct (binary_round_small_canonical true p) as [m [e [Hr [Hd [He Hm]]]]];
      [lia |].
    rewrite Hr. cbn [rbind]. rewrite fmul_one by lia.
    apply (to_int_scaled true m p e); [lia | exact Hm].
Qed.

(** X4: an image whose spacing is already 1.0 on every axis keeps its size:
    resampling the resampled image again would change nothing. *)
Theorem unit_spacing_keeps_size {E} (sizes : list Z) :
  Forall (fun size => - 2 ^ 53 < size < 2 ^ 53) sizes ->
  resampled_image_size (E := E) (isotropic_spacing (List.length sizes)) sizes
    (isotropic_spacing (List.length sizes)) = Ok sizes.
Proof.
  intros H. unfold resampled_image_size, isotropic_spacing.
  induction H as [| size sizes Hsize Hall IH]; [reflexivity |].
  cbn [List.length repeat zip3 comprehension].
  rewrite resampled_size_dim_unit by exact Hsize.
  cbn [rbind]. rewrite IH. reflexivity.
Qed.

Lemma unit_spacing_keeps_size_witness :
  resampled_image_size (E := unit) (isotropic_spacing 3) [320; 320; 104]
    (isotropic_spacing 3) = Ok [320; 320; 104].
Proof.
  apply (unit_spacing_keeps_size (E := unit) [320; 320; 104]).
  repeat (apply Forall_cons; [lia |]). apply Forall_nil.
Defined.

(** ** [marschner_lobb] *)

Section MarschnerLobbCalls.
Context {T : LibTypes} {L : Library}.

(** A computation that starts with a library call shows it first. *)
Lemma bind_call_first {A B} (c : LibCall A) (k : A -> M B) (w : World) :
  (forall a, silent (fun _ : Event => @None unit) (k a)) ->
  exists out evs, trace (snd (bind (call c) k w)) = trace w ++ Ev c out :: evs.
Proof.
  intros Hk. unfold bind, call.
  destruct (lib A c (env w)) as [[a | e] env']; cbn.
  - match goal with |- context [k a ?w'] => destruct (Hk a w') as [evs [Ht _]] end.
    exists (Ok a), evs. rewrite Ht. cbn. rewrite <- app_assoc. reflexivity.
  - exists (Raise e), []. reflexivity.
Qed.

(** X5: [marschner_lobb] divides by its size before it calls the library:
    size 0 raises [ZeroDivisionError] and nothing is called; for any other
    size (below 2^53 in magnitude) the first call asks for a cubic vector
    image of that size with origin -1 and spacing [2.0 / size] on every
    axis, the size being converted to a double without error. *)
Theorem marschner_lobb_source (size : Z) (alpha f_M : float) (w : World) :
  - 2 ^ 53 < size < 2 ^ 53 ->
  (size = 0 -> marschner_lobb size alpha f_M w = (Raise ZeroDivisionError, w))
  /\ (size <> 0 ->
      exists n out evs,
        of_int (E := LibExn) size = Ok n
        /\ (to_Q n == inject_Z size)%Q
        /\ trace (snd (marschner_lobb size alpha f_M w)) =
           trace w ++
           Ev (sitk_PhysicalPointSource sitkVectorFloat32 [size; size; size]
                 [-1; -1; -1]
                 [fdiv_ieee f2_0 n; fdiv_ieee f2_0 n; fdiv_ieee f2_0 n]) out
           :: evs).
Proof.
  intros Hsize. split.
  - intros ->. reflexivity.
  - intros Hnz.
    destruct (of_int_small (E := LibExn) size Hsize) as [n [Hn [Hq Hzero]]].
    specialize (Hzero Hnz).
    unfold marschner_lobb. unfold bind at 1. unfold lift, div_int, truediv.
    rewrite Hn. cbn [rbind]. rewrite Hzero.
    match goal with |- context [bind (call ?c) ?k w] =>
      destruct (bind_call_first c k w) as [out [evs Ht]]; [intros; silence |]
    end.
    exists n, out, evs. auto.
Qed.

End MarschnerLobbCalls.

(** ** The Marschner-Lobb image: the slice the notebook expands *)

Module MarschnerLobbSlice.
Import MarschnerLobbReal.
Local Open Scope R_scope.

Lemma middle_plane (m : Z) (i j : Z) :
  (0 < m)%Z -> PhysicalPointSource (2 * m) 2 i j m = 0.
Proof.
  intros Hm. unfold PhysicalPointSource. rewrite mult_IZR.
  assert (IZR m <> 0) by (apply not_0_IZR; lia).
  field. assumption.
Qed.

(** X6: the slice [ml[:, :, size // 2]] of an image of even size lies in
    the plane z = 0, where the sine term vanishes: its pixels lie between
    1 / (2 (1 + alpha)) and (1 + 2 alpha) / (2 (1 + alpha)), that is between
    0.4 and 0.6 for the default alpha = 0.25. *)
Theorem marschner_lobb_middle_slice (m : Z) (alpha f_M : R) (i j : Z) :
  (0 < m)%Z -> 0 <= alpha ->
  1 / (2 * (1 + alpha)) <= marschner_lobb (2 * m) alpha f_M i j m
    <= (1 + 2 * alpha) / (2 * (1 + alpha)).
Proof.
  intros Hm Halpha.
  unfold marschner_lobb, pixelwise1, pixelwise2.
  rewrite (middle_plane m i j Hm), Rmult_0_r, sin_0.
  set (r := sqrt (PhysicalPointSource (2 * m) 0 i j m ^ 2
                  + PhysicalPointSource (2 * m) 1 i j m ^ 2)).
  pose proof (COS_bound (2 * PI * f_M * cos (PI / 2 * r))) as [Hc1 Hc2].
  assert (Hd : 0 < / (2 * (1 + alpha))) by (apply Rinv_0_lt_compat; lra).
  unfold Rdiv. split; apply Rmult_le_compat_r; try lra; nra.
Qed.

Lemma marschner_lobb_middle_slice_witness :
  1 / (2 * (1 + 1 / 4)) <= marschner_lobb (2 * 20) (1 / 4) 6 0%Z 0%Z 20%Z
    <= (1 + 2 * (1 / 4)) / (2 * (1 + 1 / 4)).
Proof.
  apply marschner_lobb_middle_slice; [lia | lra].
Defined.

(** X7: a pixel depends on its position in the slice only through
    x^2 + y^2: the image is unchanged when the two in-plane indices are
    exchanged, and when an index [i] is mirrored to [size - i]. *)
Theorem marschner_lobb_symmetric (size : Z) (alpha f_M : R) (i j k : Z) :
  size <> 0%Z ->
  marschner_lobb size alpha f_M j i k = marschner_lobb size alpha f_M i j k
  /\ marschner_lobb size alpha f_M (size - i)%Z j k
     = marschner_lobb size alpha f_M i j k.
Proof.
  intros Hsize.
  assert (Hs : IZR size <> 0) by (apply not_0_IZR; exact Hsize).
  unfold marschner_lobb, pixelwise1, pixelwise2, PhysicalPointSource. split.
  - rewrite (Rplus_comm ((-1 + IZR j * (2 / IZR size)) ^ 2)). reflexivity.
  - replace ((-1 + IZR (size - i) * (2 / IZR size)) ^ 2)
      with ((-1 + IZR i * (2 / IZR size)) ^ 2); [reflexivity |].
    rewrite minus_IZR. field. exact Hs.
Qed.

Lemma marschner_lobb_symmetric_witness :
  marschner_lobb 40 (1 / 4) 6 3%Z 7%Z 20%Z = marschner_lobb 40 (1 / 4) 6 7%Z 3%Z 20%Z
  /\ marschner_lobb 40 (1 / 4) 6 (40 - 7)%Z 3%Z 20%Z
     = marschner_lobb 40 (1 / 4) 6 7%Z 3%Z 20%Z.
Proof.
  apply marschner_lobb_symmetric. discriminate.
Defined.

End MarschnerLobbSlice.

(** ** [myshow] *)

Lemma unpack2_Ok {E A} (l : list A) (a b : A) :
  unpack2 (E := E) l = Ok (a, b) -> l = [a; b].
Proof.
  destruct l as [| x [| y [| z l]]]; simpl; try discriminate.
  intros H. injection H as -> ->. reflexivity.
Qed.

Lemma unpack2_Raise {E A} (l : list A) (e : Exn E) :
  unpack2 (E := E) l = Raise e -> e = ValueError /\ List.length l <> 2%nat.
Proof.
  destruct l as [| x [| y [| z l]]]; simpl; try discriminate;
    intros H; injection H as <-; split; auto; discriminate.
Qed.

(** Runs a computation to each of its ends: every library call, test and
    Python-level operation that may raise is split into its outcomes. *)
Ltac run_all :=
  repeat (first
    [ rewrite nth_error_snoc_last
    | match goal with
      | |- context [lib ?A ?c ?e] =>
          destruct (lib A c e) as [[? | ?] ?]
      | |- context [match ?x with Ok _ => _ | Raise _ => _ end] =>
          destruct x eqn:?
      | |- context [match ?b with true => _ | false => _ end] =>
          destruct b eqn:?
      | |- context [match ?x with Some _ => _ | None => _ end] =>
          destruct x eqn:?
      | |- context [let (_, _) := ?p in _] => destruct p
      end ];
    cbn -[unpack2 getitem int_add int_sub int_mul mul_int div_int
          resampled_image_size]).

(** Closes the trace equation of an end of a run. *)
Ltac trace_eq :=
  cbn [snd trace];
  first [ rewrite <- ?app_assoc; reflexivity | symmetry; apply app_nil_r ].

Section MyShow.
Context {T : LibTypes} {L : Library}.

(** X8: [xsize, ysize = aimg.shape] needs an array of two axes: when the
    shape numpy answers has another number of entries, [myshow] raises
    [ValueError] and has made no call of matplotlib. *)
Theorem myshow_needs_two_axes (img : Image) (title : option string)
  (margin : float) (w : World) :
  exists evs,
    trace (snd (myshow img title margin w)) = trace w ++ evs
    /\ forall s, hd_error (filter_map shape_answer evs) = Some s ->
                 List.length s <> 2%nat ->
                 fst (myshow img title margin w) = Raise ValueError
                 /\ filter_map plot_call evs = [].
Proof.
  unfold myshow, bind, call, lift, ret.
  cbn -[unpack2 getitem int_add int_sub int_mul mul_int div_int].
  run_all.
  all: eexists; (split; [trace_eq |]).
  all: cbn; intros shape Hs Hlen; try discriminate Hs.
  all: injection Hs as <-.
  all: match goal with
       | H : unpack2 _ = Ok _ |- _ => apply unpack2_Ok in H; subst; exfalso; apply Hlen; reflexivity
       | H : unpack2 _ = Raise _ |- _ => apply unpack2_Raise in H; destruct H as [-> _]; split; reflexivity
       end.
Qed.

(** X9: [if title:] is false for no title and for the empty title: no title
    is set then. *)
Theorem myshow_without_title (img : Image) (margin : float) :
  silent title_call (myshow img None margin)
  /\ silent title_call (myshow img (Some EmptyString) margin).
Proof.
  split; unfold myshow; cbn [truthy]; silence.
Qed.

End MyShow.

(** ** [myshow]: what is displayed *)

Section MyShowViews.
Context {T : LibTypes} {L : Library}.

(** X10: [myshow] never displays a volume itself: for an image of three
    dimensions it views the tile, in a 2 x 2 layout, of the three slices
    through the middle of the axes; any other image it views as it is. *)
Theorem myshow_views_middle_slices (img : Image) (title : option string)
  (margin : float) (w : World) :
  exists evs,
    trace (snd (myshow img title margin w)) = trace w ++ evs
    /\ forall x, In x (filter_map viewed evs) ->
         if (GetDimension img =? 3)%nat then
           exists s0 s1 s2 a b c,
             getitem (E := LibExn) (GetSize img) 0 = Ok s0
             /\ getitem (E := LibExn) (GetSize img) 1 = Ok s1
             /\ getitem (E := LibExn) (GetSize img) 2 = Ok s2
             /\ filter_map subscripted evs =
                  [(img, [At (s0 / 2); All; All], a);
                   (img, [All; At (s1 / 2); All], b);
                   (img, [All; All; At (s2 / 2)], c)]
             /\ filter_map tiled evs = [([a; b; c], [2; 2], x)]
         else x = img /\ filter_map subscripted evs = []
                      /\ filter_map tiled evs = [].
Proof.
  unfold myshow, bind, call, lift, ret.
  cbn -[unpack2 getitem int_add int_sub int_mul mul_int div_int].
  run_all.
  all: eexists; (split; [trace_eq |]).
  all: cbn -[getitem]; intros x Hx.
  all: repeat match type of Hx with
         | False => destruct Hx
         | _ \/ _ => destruct Hx as [<- | Hx]
         end.
  all: try (split; [reflexivity | split; reflexivity]).
  all: repeat eexists; reflexivity.
Qed.

(** X11: the test [len(aimg.shape) == 2] cannot fail on an unchanged shape:
    the unpacking before it has raised otherwise.  A run that gets the same
    shape twice sets the gray colour map. *)
Theorem myshow_sets_gray (img : Image) (title : option string)
  (margin : float) (w : World) :
  exists evs,
    trace (snd (myshow img title margin w)) = trace w ++ evs
    /\ forall s, filter_map shape_answer evs = [s; s] ->
                 filter_map cmap_call evs = ["gray"%string].
Proof.
  unfold myshow, bind, call, lift, ret.
  cbn -[unpack2 getitem int_add int_sub int_mul mul_int div_int].
  run_all.
  all: eexists; (split; [trace_eq |]).
  all: cbn; intros shape Hs; try discriminate Hs.
  all: try reflexivity.
  all: injection Hs as -> ->.
  all: match goal with
       | H : unpack2 _ = Ok _ |- _ => apply unpack2_Ok in H; subst
       end.
  all: discriminate.
Qed.

End MyShowViews.

(** ** The demonstration cell of the expand notebook *)

Section ExpandDemonstration.
Context {T : LibTypes} {L : Library}.

Lemma respects_weaken {A} (P Q : list Event -> Prop) (m : M A) :
  (forall evs, P evs -> Q evs) -> respects P m -> respects Q m.
Proof.
  intros HPQ Hm w. destruct (Hm w) as [evs [Ht HP]].
  exists evs. split; [exact Ht | apply HPQ; exact HP].
Qed.

Lemma expands_only_app (ml : Image) (evs1 evs2 : list Event) :
  expands_only ml evs1 -> expands_only ml evs2 -> expands_only ml (evs1 ++ evs2).
Proof.
  intros H1 H2 x. rewrite filter_map_app, in_app_iff.
  intros [Hin | Hin]; [apply H1 | apply H2]; exact Hin.
Qed.

Lemma expands_only_silent (ml : Image) (evs : list Event) :
  filter_map expand_call evs = [] -> expands_only ml evs.
Proof. intros H x. rewrite H. intros []. Qed.

Lemma demonstrate_expands_only (ml : Image) (interp : Interpolator) (title : string) :
  respects (expands_only ml) (demonstrate ml interp title).
Proof.
  unfold demonstrate.
  apply respects_bind; [apply expands_only_app | | intros expanded].
  - apply respects_call. intros r x Hin. cbn in Hin.
    destruct Hin as [<- | []]. reflexivity.
  - apply (respects_weaken (fun evs => filter_map expand_call evs = [])).
    + apply expands_only_silent.
    + unfold myshow. silence.
Qed.

(** X12: all the expansions of a run are of one image, by 5 on each axis, and
    that image is the middle slice of the Marschner-Lobb image: the first
    subscript of the run that succeeds is [ml[:, :, ml.GetSize()[-1] // 2]],
    with [ml] the image [marschner_lobb()] returned, and its result is the
    image every expansion is given. *)
Theorem expand_demonstration_cell_one_slice (w : World) :
  exists evs,
    trace (snd (expand_demonstration_cell w)) = trace w ++ evs
    /\ forall x, In x (filter_map expand_call evs) ->
         snd x = [5; 5; 5]
         /\ (exists ml w0 last,
               marschner_lobb 40 f0_25 f6_0 w = (Ok ml, w0)
               /\ getitem (E := LibExn) (GetSize ml) (-1) = Ok last
               /\ hd_error (filter_map subscripted evs) =
                    Some (ml, [All; All; At (last / 2)], fst x))
         /\ forall y, In y (filter_map expand_call evs) -> y = x.
Proof.
  unfold expand_demonstration_cell. unfold bind at 1.
  assert (H0 : silent expand_call (marschner_lobb 40 f0_25 f6_0))
    by (unfold marschner_lobb; silence).
  assert (H0' : silent subscripted (marschner_lobb 40 f0_25 f6_0))
    by (unfold marschner_lobb; silence).
  destruct (H0 w) as [evs0 [Ht0 Ho0]].
  destruct (H0' w) as [evs0' [Ht0' Ho0']].
  assert (evs0' = evs0) as ->.
  { rewrite Ht0 in Ht0'. apply app_inv_head in Ht0'. congruence. }
  destruct (marschner_lobb 40 f0_25 f6_0 w) as [[ml | e] w0]; cbn [fst snd] in *.
  - unfold bind at 1. unfold lift.
    destruct (getitem (GetSize ml) (-1)) as [last | e] eqn:Hlast; cbn [fst snd].
    + unfold bind at 1. unfold call at 1.
      destruct (lib _ _ (env w0)) as [[slice | e] env1]; cbn [fst snd env store trace].
      * match goal with |- context [trace (snd (?m ?w1))] =>
          assert (H1 : respects (expands_only slice) m)
        end.
        { repeat (apply respects_bind;
                  [apply expands_only_app | apply demonstrate_expands_only | intros _]).
          apply demonstrate_expands_only. }
        match goal with |- context [trace (snd (?m ?w1))] =>
          destruct (H1 w1) as [evs1 [Ht1 Ho1]]
        end.
        eexists. split.
        { rewrite Ht1. cbn [trace]. rewrite Ht0, <- !app_assoc. reflexivity. }
        rewrite !filter_map_app, Ho0, Ho0'. cbn.
        intros x Hx. pose proof (Ho1 x Hx) as ->. cbn.
        split; [reflexivity |]. split.
        { exists ml, w0, last. split; [reflexivity |]. split; [exact Hlast | reflexivity]. }
        intros y Hy. exact (Ho1 y Hy).
      * eexists. split; [cbn [trace]; rewrite Ht0, <- !app_assoc; reflexivity |].
        rewrite filter_map_app, Ho0. cbn. intros x [].
    + exists evs0. split; [exact Ht0 |]. rewrite Ho0. intros x [].
  - exists evs0. split; [exact Ht0 |]. rewrite Ho0. intros x [].
Qed.

Lemma myshow_titles (img : Image) (title : string) (margin : float) :
  truthy (Some title) = true ->
  performs shown (myshow img (Some title) margin) [inr title].
Proof.
  intros Ht. unfold myshow. rewrite Ht.
  eapply performs_eq; [perform | reflexivity].
Qed.

Lemma demonstrate_shows (ml : Image) (interp : Interpolator) (title : string) :
  truthy (Some title) = true ->
  performs shown (demonstrate ml interp title) [inl interp; inr title].
Proof.
  intros Ht. unfold demonstrate.
  eapply performs_eq.
  - eapply performs_bind; [| intros expanded; apply myshow_titles; exact Ht].
    eapply performs_call; intros; cbn; reflexivity.
  - reflexivity.
Qed.

(** X13: each figure of the demonstration is titled after the interpolator of
    its expansion. *)
Theorem expand_demonstration_cell_titles :
  performs shown expand_demonstration_cell
    [inl sitkNearestNeighbor; inr "nearest neighbor"%string;
     inl sitkLinear; inr "linear"%string;
     inl sitkBSpline; inr "b-spline"%string;
     inl sitkGaussian; inr "Gaussian"%string;
     inl sitkHammingWindowedSinc; inr "Hamming windowed sinc"%string;
     inl sitkBlackmanWindowedSinc; inr "Blackman windowed sinc"%string;
     inl sitkCosineWindowedSinc; inr "Cosine windowed sinc"%string;
     inl sitkWelchWindowedSinc; inr "Welch windowed sinc"%string;
     inl sitkLanczosWindowedSinc; inr "Lanczos windowed sinc"%string].
Proof.
  unfold expand_demonstration_cell.
  eapply performs_eq.
  - eapply performs_bind;
      [apply performs_silent; unfold marschner_lobb; silence | intros ml].
    eapply performs_bind; [apply performs_silent; silence | intros last].
    eapply performs_bind; [apply performs_silent; silence | intros slice].
    repeat (eapply performs_bind;
            [apply demonstrate_shows; reflexivity | intros _]).
    apply demonstrate_shows; reflexivity.
  - reflexivity.
Qed.

End ExpandDemonstration.

(** ** Which transform objects the cells write *)

Section StoreFacts.
Context {T : LibTypes} {L : Library}.

Lemma writes_only_ret {A} S (a : A) : writes_only S (ret a).
Proof. intros w r v _ H. exact H. Qed.

Lemma writes_only_raise {A} S (e : Exn LibExn) : writes_only S (raise (A := A) e).
Proof. intros w r v _ H. exact H. Qed.

Lemma writes_only_lift {A} S (x : Result LibExn A) : writes_only S (lift x).
Proof. intros w r v _ H. exact H. Qed.

Lemma writes_only_call {A} S (c : LibCall A) : writes_only S (call c).
Proof.
  intros w r v _ H. unfold call.
  destruct (lib A c (env w)) as [out env']. exact H.
Qed.

Lemma writes_only_deref S (tx : TransformRef) : writes_only S (deref tx).
Proof.
  intros w r v _ H. unfold deref.
  destruct (nth_error (store w) tx); exact H.
Qed.

Lemma writes_only_alloc S (v0 : TransformV) : writes_only S (alloc v0).
Proof. intros w r v _ H. cbn. apply nth_error_snoc. exact H. Qed.

Lemma nth_error_list_set_other {A} (l : list A) (i j : nat) (a b : A) :
  i <> j -> nth_error l j = Some b -> nth_error (list_set l i a) j = Some b.
Proof.
  revert i j. induction l as [| x l IHl]; intros [| i] [| j] Hne H; cbn in *;
    try congruence; try exact H.
  apply IHl; [congruence | exact H].
Qed.

Lemma writes_only_assign (S : TransformRef -> Prop) (tx : TransformRef)
  (v0 : TransformV) :
  S tx -> writes_only S (assign tx v0).
Proof.
  intros Htx w r v Hr H. unfold assign. cbn.
  apply nth_error_list_set_other; [| exact H].
  intros ->. exact (Hr Htx).
Qed.

Lemma writes_only_bind {A B} S (m : M A) (k : A -> M B) :
  writes_only S m -> (forall a, writes_only S (k a)) -> writes_only S (bind m k).
Proof.
  intros Hm Hk w r v Hr H. unfold bind.
  specialize (Hm w r v Hr H).
  destruct (m w) as [[a | e] w1]; cbn in *; [| exact Hm].
  apply Hk; assumption.
Qed.

Lemma writes_only_mapM {A B} S (g : A -> M B) (l : list A) :
  (forall a, writes_only S (g a)) -> writes_only S (mapM g l).
Proof.
  intros Hg. induction l as [| a l IH]; cbn [mapM].
  - apply writes_only_ret.
  - apply writes_only_bind; [apply Hg | intros b].
    apply writes_only_bind; [exact IH | intros bs]. apply writes_only_ret.
Qed.

Lemma writes_only_nothing {A} (m : M A) :
  writes_only (fun _ => False) m -> preserves_store m.
Proof. intros H w r v Hv. apply H; [tauto | exact Hv]. Qed.

Lemma preserves_store_writes_only {A} S (m : M A) :
  preserves_store m -> writes_only S m.
Proof. intros H w r v _ Hv. apply H. exact Hv. Qed.

(** A computation that creates a transform object and then writes no
    other object leaves every object that existed as it was. *)
Lemma writes_only_new {B} S (c : LibCall TransformV)
  (k : TransformRef -> M B) :
  (forall tx, writes_only (fun r => S r \/ r = tx) (k tx)) ->
  writes_only S (bind (bind (call c) alloc) k).
Proof.
  intros Hk w r v Hr H. unfold bind, call, alloc.
  destruct (lib _ c (env w)) as [[v0 | e] env']; cbn; [| exact H].
  apply Hk; cbn.
  - intros [Hs | ->]; [exact (Hr Hs) |].
    assert (Hlt : (List.length (store w) < List.length (store w))%nat)
      by (apply nth_error_Some; congruence).
    exact (Nat.lt_irrefl _ Hlt).
  - apply nth_error_snoc. exact H.
Qed.

End StoreFacts.

(** Shows which objects a computation writes, along its binds and calls. *)
Ltac frame :=
  repeat first
    [ apply writes_only_ret
    | apply writes_only_raise
    | apply writes_only_lift
    | apply writes_only_alloc
    | apply writes_only_deref
    | apply writes_only_call
    | apply writes_only_assign; solve [auto]
    | apply writes_only_mapM; intros
    | apply writes_only_new; intros
    | apply writes_only_bind; [| intros]
    | match goal with
      | |- writes_only _ (let (_, _) := ?p in _) => destruct p
      | |- writes_only _ (match ?x with _ => _ end) => destruct x
      end ].

Section NotebookStore.
Context {T : LibTypes} {L : Library}.

Lemma writes_only_register_images S (fixed_image moving_image : Image)
  (initial_transform : TransformRef) (interpolator : Interpolator) :
  writes_only S
    (register_images fixed_image moving_image initial_transform interpolator).
Proof. unfold register_images, Execute. cbn. frame. Qed.

Lemma writes_only_timed_registration S (fixed_image moving_image : Image)
  (initial_transform : TransformRef) (interpolator : Interpolator)
  (fixed_points moving_points : list Point) :
  writes_only S
    (timed_registration fixed_image moving_image initial_transform interpolator
       fixed_points moving_points).
Proof.
  unfold timed_registration.
  apply writes_only_bind; [apply writes_only_register_images | intros].
  frame.
Qed.

Lemma writes_only_load_data_cell S : writes_only S load_data_cell.
Proof.
  unfold load_data_cell, sitk_Euler3DTransform, SetMatrix, SetTranslation,
    TransformPoint.
  frame.
Qed.

Lemma writes_only_resampling_cell S (moving_image : Image) :
  writes_only S (resampling_cell moving_image).
Proof.
  unfold resampling_cell, sitk_Image, SetSpacing, SetOrigin, SetDirection,
    sitk_Transform, rf_SetTransform, rf_Execute.
  frame.
Qed.

Lemma writes_only_initial_alignment_cell S (fixed_image moving_image : Image) :
  writes_only S (initial_alignment_cell fixed_image moving_image).
Proof.
  unfold initial_alignment_cell, sitk_Euler3DTransform. frame.
Qed.

(** X14: no cell writes a transform object that existed when it started: the
    data-loading cell sets the matrix and the translation of the transform
    it creates, and every later cell only reads and creates transforms. *)
Theorem cells_preserve_transforms :
  preserves_store load_data_cell
  /\ (forall moving_image, preserves_store (resampling_cell moving_image))
  /\ (forall fixed_image moving_image,
        preserves_store (initial_alignment_cell fixed_image moving_image))
  /\ (forall d initial_transform,
        preserves_store (original_resolution_cell d initial_transform))
  /\ (forall d resampled_moving_image initial_transform,
        preserves_store
          (higher_resolution_cell d resampled_moving_image initial_transform))
  /\ preserves_store registration_notebook.
Proof.
  split; [| split; [| split; [| split; [| split]]]]; intros;
    apply writes_only_nothing.
  - apply writes_only_load_data_cell.
  - apply writes_only_resampling_cell.
  - apply writes_only_initial_alignment_cell.
  - apply writes_only_timed_registration.
  - apply writes_only_timed_registration.
  - unfold registration_notebook.
    apply writes_only_bind; [unfold setup_cell; frame | intros _].
    apply writes_only_bind; [apply writes_only_load_data_cell | intros d].
    apply writes_only_bind; [apply writes_only_resampling_cell | intros resampled].
    apply writes_only_bind; [apply writes_only_initial_alignment_cell | intros tx].
    apply writes_only_bind; [apply writes_only_timed_registration | intros e1].
    apply writes_only_bind; [apply writes_only_timed_registration | intros e2].
    unfold compare_cell. frame.
Qed.

End NotebookStore.

(** ** The data that flows through the registration notebook *)

Lemma getitem_Ok_length {E A} (l : list A) (i : Z) (a : A) :
  0 <= i -> getitem (E := E) l i = Ok a -> (Z.to_nat i < List.length l)%nat.
Proof.
  intros Hi. unfold getitem.
  destruct (i <? 0) eqn:Hneg; [apply Z.ltb_lt in Hneg; lia |].
  destruct ((0 <=? i) && (i <? Z.of_nat (List.length l))) eqn:Hb; [| discriminate].
  intros _. apply andb_true_iff in Hb. destruct Hb as [_ Hb].
  apply Z.ltb_lt in Hb. lia.
Qed.

Lemma length_list_set {A} (l : list A) (i : nat) (a : A) :
  List.length (list_set l i a) = List.length l.
Proof.
  revert i. induction l as [| x l IHl]; intros [| i]; cbn; try reflexivity.
  f_equal. apply IHl.
Qed.

Lemma nth_error_list_set_same {A} (l : list A) (i : nat) (a : A) :
  (i < List.length l)%nat -> nth_error (list_set l i a) i = Some a.
Proof.
  revert i. induction l as [| x l IHl]; intros [| i] Hi; cbn in *;
    try lia; try reflexivity.
  apply IHl. lia.
Qed.

(** Destructs, one after the other, the library calls, the stuck tests and
    the stuck matches of a run that is known to succeed. *)
Ltac run_hyp H :=
  repeat (first
    [ rewrite nth_error_snoc_last in H
    | match type of H with
      | context [lib ?A ?c ?e] => destruct (lib A c e) as [[? | ?] ?]
      | context [mapM ?g ?l ?w] => destruct (mapM g l w) as [? ?] eqn:?
      | context [match ?x with Ok _ => _ | Raise _ => _ end] => destruct x eqn:?
      | context [match ?b with true => _ | false => _ end] => destruct b eqn:?
      | context [match ?x with Some _ => _ | None => _ end] => destruct x eqn:?
      | context [let (_, _) := ?p in _] => is_var p; destruct p
      end ];
    cbn -[getitem resampled_image_size mapM] in H; try discriminate H).

Section DataFlow.
Context {T : LibTypes} {L : Library}.

Lemma mapM_TransformPoint_run (tx : TransformRef) (l : list Point) (w w' : World)
  (r : Result LibExn (list Point)) :
  mapM (TransformPoint tx) l w = (r, w') ->
  store w' = store w
  /\ (exists evs, trace w' = trace w ++ evs /\ filter_map flow evs = [])
  /\ (forall bs, r = Ok bs -> List.length bs = List.length l).
Proof.
  revert w w' r. induction l as [| p l IH]; intros w w' r H; cbn [mapM] in H.
  - injection H as <- <-. split; [reflexivity |]. split.
    + exists []. split; [symmetry; apply app_nil_r | reflexivity].
    + intros bs Hbs. injection Hbs as <-. reflexivity.
  - unfold bind at 1 in H. unfold TransformPoint at 1 in H.
    unfold bind at 1, deref, call in H.
    destruct (nth_error (store w) tx) as [v |]; cbn in H.
    + destruct (lib _ _ (env w)) as [[q | e] env'] eqn:Hlib; cbn in H.
      * unfold bind at 1 in H.
        match type of H with context [mapM _ l ?w1] =>
          destruct (mapM (TransformPoint tx) l w1) as [r1 w1'] eqn:Hrest end.
        apply IH in Hrest. destruct Hrest as [Hs [[evs [Ht Hf]] Hl]].
        cbn in Hs, Ht.
        destruct r1 as [bs | e]; cbn in H; injection H as <- <-.
        -- split; [exact Hs |]. split.
           ++ eexists. split; [rewrite Ht, <- app_assoc; reflexivity |].
              cbn. exact Hf.
           ++ intros bs' Hbs'. injection Hbs' as <-. cbn. f_equal.
              apply Hl. reflexivity.
        -- split; [exact Hs |]. split.
           ++ eexists. split; [rewrite Ht, <- app_assoc; reflexivity |].
              cbn. exact Hf.
           ++ intros bs' Hbs'. discriminate Hbs'.
      * injection H as <- <-. cbn. split; [reflexivity |]. split.
        -- eexists. split; [reflexivity | reflexivity].
        -- intros bs' Hbs'. discriminate Hbs'.
    + injection H as <- <-. split; [reflexivity |]. split.
      * exists []. split; [symmetry; apply app_nil_r | reflexivity].
      * intros bs' Hbs'. discriminate Hbs'.
Qed.

Lemma load_data_cell_run (w w' : World) (d : Loaded) :
  load_data_cell w = (Ok d, w') ->
  (exists evs,
     trace w' = trace w ++ evs
     /\ filter_map flow evs =
          [WasRead (fixed_image d); WasRead (moving_image d);
           Drawn (fixed_image d) 1000 (fixed_points d)])
  /\ List.length (moving_points d) = List.length (fixed_points d)
  /\ (3 <= GetDimension (fixed_image d))%nat
  /\ (3 <= GetDimension (moving_image d))%nat
  /\ reference_transform d = List.length (store w)
  /\ (exists v, nth_error (store w') (reference_transform d) = Some v).
Proof.
  intros H.
  unfold load_data_cell, sitk_Euler3DTransform, SetMatrix, SetTranslation in H.
  unfold bind, call, lift, ret, alloc, deref, assign in H.
  cbn -[getitem mapM] in H.
  run_hyp H.
  match goal with Hm : mapM _ _ _ = _ |- _ =>
    apply mapM_TransformPoint_run in Hm;
    destruct Hm as [Hs [[evs [Ht Hf]] Hl]]
  end.
  cbn in Hs, Ht.
  injection H as <- <-. cbn.
  split; [| split; [| split; [| split; [| split]]]].
  - eexists. split; [rewrite Ht, <- !app_assoc; reflexivity |].
    rewrite ?filter_map_app. cbn. rewrite ?filter_map_app, Hf. reflexivity.
  - apply Hl. reflexivity.
  - match goal with Hg : getitem (GetSize ?a) 2 = Ok _ |- (_ <= GetDimension ?a)%nat =>
      apply getitem_Ok_length in Hg; [exact Hg | lia] end.
  - match goal with Hg : getitem (GetSize ?a) 2 = Ok _ |- (_ <= GetDimension ?a)%nat =>
      apply getitem_Ok_length in Hg; [exact Hg | lia] end.
  - reflexivity.
  - rewrite Hs. eexists. apply nth_error_list_set_same.
    rewrite length_list_set, length_app. cbn. lia.
Qed.

Lemma resampling_cell_run (moving_image resampled : Image) (w w' : World) :
  resampling_cell moving_image w = (Ok resampled, w') ->
  exists evs f v,
    trace w' = trace w ++ evs
    /\ filter_map flow evs = [Resampled moving_image (img_pixels resampled)]
    /\ filter_map resample_call evs = [(f, moving_image)]
    /\ filter_map resample_answer evs = [(moving_image, img_pixels resampled)]
    /\ filter_map identity_answer evs = [v]
    /\ rf_interpolator f = sitkBSpline
    /\ rf_transform f = Some v
    /\ rf_size f = GetSize resampled
    /\ rf_spacing f = GetSpacing resampled
    /\ rf_origin f = GetOrigin resampled
    /\ rf_direction f = GetDirection resampled
    /\ resampled_image_size (E := LibExn) (GetSpacing moving_image)
         (GetSize moving_image)
         (isotropic_spacing (GetDimension moving_image)) = Ok (GetSize resampled).
Proof.
  intros H.
  unfold resampling_cell, sitk_Image, SetSpacing, SetOrigin, SetDirection,
    sitk_Transform, rf_SetTransform, rf_Execute in H.
  unfold bind, call, lift, ret, raise, alloc, deref in H.
  cbn -[resampled_image_size] in H.
  run_hyp H.
  injection H as <- <-. cbn -[resampled_image_size].
  eexists. eexists. eexists.
  split; [rewrite <- !app_assoc; reflexivity |].
  cbn -[resampled_image_size].
  repeat (split; [reflexivity |]).
  reflexivity.
Qed.

Lemma timed_registration_run (fixed_image moving_image : Image)
  (initial_transform : TransformRef) (interpolator : Interpolator)
  (fixed_points moving_points : list Point) (errors : list float)
  (w w' : World) :
  timed_registration fixed_image moving_image initial_transform interpolator
    fixed_points moving_points w = (Ok errors, w') ->
  exists evs initial final,
    trace w' = trace w ++ evs
    /\ nth_error (store w) initial_transform = Some initial
    /\ filter_map flow evs =
         [Registered fixed_image moving_image (Some initial) final;
          Evaluated final fixed_points moving_points errors].
Proof.
  intros H.
  unfold timed_registration, register_images, Execute in H.
  unfold bind, call, lift, ret, raise, alloc, deref in H.
  cbn in H.
  run_hyp H.
  injection H as <- <-. cbn.
  eexists. eexists. eexists.
  split; [rewrite <- !app_assoc; reflexivity |].
  split; reflexivity.
Qed.

Lemma initial_alignment_cell_run (fixed_image moving_image : Image)
  (initial_transform : TransformRef) (w w' : World) :
  initial_alignment_cell fixed_image moving_image w = (Ok initial_transform, w') ->
  exists evs initial,
    trace w' = trace w ++ evs
    /\ filter_map flow evs = [Aligned fixed_image moving_image initial]
    /\ nth_error (store w') initial_transform = Some initial.
Proof.
  intros H.
  unfold initial_alignment_cell, sitk_Euler3DTransform in H.
  unfold bind, call, lift, ret, raise, alloc, deref in H.
  cbn in H.
  run_hyp H.
  injection H as <- <-. cbn.
  eexists. eexists.
  split; [rewrite <- !app_assoc; reflexivity |].
  split; [reflexivity | apply nth_error_snoc_last].
Qed.

Lemma compare_cell_run (errors1 errors2 : list float) (w w' : World) :
  compare_cell errors1 errors2 w = (Ok tt, w') ->
  exists evs,
    trace w' = trace w ++ evs
    /\ filter_map flow evs =
         [Plotted errors1 "original resolution"; Plotted errors2 "higher resolution"].
Proof.
  intros H.
  unfold compare_cell in H.
  unfold bind, call, lift, ret, raise, alloc, deref in H.
  cbn in H.
  run_hyp H.
  injection H as _ <-. cbn.
  eexists.
  split; [rewrite <- !app_assoc; reflexivity |].
  reflexivity.
Qed.

(** X15: when the data-loading cell succeeds, both images have at least three
    dimensions (the viewer indexes the third entry of their sizes), there
    are as many moving points as fixed points, and the reference transform
    is a new transform object. *)
Theorem load_data_cell_loaded (w w' : World) (d : Loaded) :
  load_data_cell w = (Ok d, w') ->
  List.length (moving_points d) = List.length (fixed_points d)
  /\ (3 <= GetDimension (fixed_image d))%nat
  /\ (3 <= GetDimension (moving_image d))%nat
  /\ reference_transform d = List.length (store w)
  /\ exists v, nth_error (store w') (reference_transform d) = Some v.
Proof.
  intros H. apply load_data_cell_run in H. tauto.
Qed.

(** X16: the resampling cell resamples once: the moving image it is given,
    with the B-spline interpolator and the identity transform the library
    created, onto the grid of the image it returns, whose size is the one
    [resampled_image_size] computed and whose voxels are the ones the
    resampling returned. *)
Theorem resampling_cell_resamples_moving_image (moving_image resampled : Image)
  (w w' : World) :
  resampling_cell moving_image w = (Ok resampled, w') ->
  exists evs f v,
    trace w' = trace w ++ evs
    /\ filter_map resample_call evs = [(f, moving_image)]
    /\ filter_map resample_answer evs = [(moving_image, img_pixels resampled)]
    /\ filter_map identity_answer evs = [v]
    /\ rf_interpolator f = sitkBSpline
    /\ rf_transform f = Some v
    /\ rf_size f = GetSize resampled
    /\ rf_spacing f = GetSpacing resampled
    /\ rf_origin f = GetOrigin resampled
    /\ rf_direction f = GetDirection resampled
    /\ resampled_image_size (E := LibExn) (GetSpacing moving_image)
         (GetSize moving_image)
         (isotropic_spacing (GetDimension moving_image)) = Ok (GetSize resampled).
Proof.
  intros H. apply resampling_cell_run in H.
  destruct H as [evs [f [v [Ht [_ H]]]]].
  exists evs, f, v. split; [exact Ht | exact H].
Qed.

(** X17: a registration cell evaluates the errors of no other transform than
    the one its optimisation returned, on the point lists it is given; the
    first line it prints is the stop description of that optimisation, and
    the list it returns is the error list of that evaluation. *)
Theorem timed_registration_reports_its_result (fixed_image moving_image : Image)
  (initial_transform : TransformRef) (interpolator : Interpolator)
  (fixed_points moving_points : list Point) (w : World) :
  let run := timed_registration fixed_image moving_image initial_transform
               interpolator fixed_points moving_points w in
  exists evs,
    trace (snd run) = trace w ++ evs
    /\ (forall x, In x (filter_map evaluation evs) ->
          exists final,
            filter_map optimised_transform evs = [final]
            /\ x = (final, fixed_points, moving_points))
    /\ (forall pieces, hd_error (filter_map printed evs) = Some pieces ->
          exists description,
            filter_map stop_description evs = [description]
            /\ pieces = [FmtStr description])
    /\ (forall errors, fst run = Ok errors ->
          filter_map error_list evs = [errors]).
Proof.
  intros run. subst run.
  destruct (timed_registration fixed_image moving_image initial_transform
              interpolator fixed_points moving_points w) as [r w'] eqn:H.
  unfold timed_registration, register_images, Execute in H.
  unfold bind, call, lift, ret, raise, alloc, deref in H.
  cbn in H.
  run_hyp H.
  all: injection H as <- <-; cbn [fst snd trace].
  all: eexists; (split; [trace_eq |]).
  all: cbn; (split; [| split]).
  all: try (intros x []; fail).
  all: try (intros ? Hx; discriminate Hx).
  all: try (intros x [<- | []]; eexists; split; reflexivity).
  all: try (intros ? Hx; injection Hx as <-; eexists; split; reflexivity).
  all: try (intros ? Hx; injection Hx as <-; reflexivity).
Qed.

(** The trace of a run that succeeded, with the events a silent
    computation added. *)
Lemma silent_run {A B} (f : Event -> option B) (m : M A) (w w' : World)
  (r : Result LibExn A) :
  silent f m -> m w = (r, w') ->
  exists evs, trace w' = trace w ++ evs /\ filter_map f evs = [].
Proof.
  intros Hm H. destruct (Hm w) as [evs [Ht Hf]]. rewrite H in Ht.
  exists evs. split; assumption.
Qed.

(** X18: the data of the registration notebook flows as follows: the first
    image read is the fixed image of both registrations, the second one
    is resampled and is the moving image of the first registration, the
    resampled image is the moving image of the second; both registrations
    start from the state the centered initializer returned for the two
    images read; the errors of each transform are evaluated on the points
    drawn in the fixed image and as many points of the moving image, and
    the two histograms show the two error lists, in the order of the
    registrations. *)
Theorem registration_notebook_data_flow (w w' : World) :
  registration_notebook w = (Ok tt, w') ->
  exists evs fixed moving resampled fixed_points moving_points
         initial final1 final2 errors1 errors2,
    trace w' = trace w ++ evs
    /\ filter_map flow evs =
         [WasRead fixed; WasRead moving; Drawn fixed 1000 fixed_points;
          Resampled moving (img_pixels resampled);
          Aligned fixed moving initial;
          Registered fixed moving (Some initial) final1;
          Evaluated final1 fixed_points moving_points errors1;
          Registered fixed resampled (Some initial) final2;
          Evaluated final2 fixed_points moving_points errors2;
          Plotted errors1 "original resolution";
          Plotted errors2 "higher resolution"]
    /\ List.length moving_points = List.length fixed_points
    /\ resampled_image_size (E := LibExn) (GetSpacing moving) (GetSize moving)
         (isotropic_spacing (GetDimension moving)) = Ok (GetSize resampled).
Proof.
  intros H. unfold registration_notebook in H. unfold bind in H.
  destruct (setup_cell w) as [[[] | e] w0] eqn:H0; [| discriminate H].
  apply (silent_run flow) in H0; [| unfold setup_cell; silence].
  destruct H0 as [evs0 [Ht0 Hf0]].
  destruct (load_data_cell w0) as [[d | e] w1] eqn:H1; [| discriminate H].
  apply load_data_cell_run in H1.
  destruct H1 as [[evs1 [Ht1 Hf1]] [Hlen _]].
  destruct (resampling_cell (moving_image d) w1) as [[resampled | e] w2] eqn:H2;
    [| discriminate H].
  apply resampling_cell_run in H2.
  destruct H2 as [evs2 [f [v [Ht2 [Hf2 [_ [_ [_ [_ [_ [_ [_ [_ [_ Hsize]]]]]]]]]]]]]].
  destruct (initial_alignment_cell (fixed_image d) (moving_image d) w2)
    as [[initial_transform | e] w3] eqn:H3; [| discriminate H].
  apply initial_alignment_cell_run in H3.
  destruct H3 as [evs3 [initial [Ht3 [Hf3 Hs3]]]].
  unfold original_resolution_cell, higher_resolution_cell in H.
  destruct (timed_registration _ _ _ sitkLinear _ _ w3)
    as [[errors1 | e] w4] eqn:H4; [| discriminate H].
  pose proof (writes_only_timed_registration (fun _ => False)
                (fixed_image d) (moving_image d) initial_transform sitkLinear
                (fixed_points d) (moving_points d) w3 initial_transform initial
                (fun F => F) Hs3) as Hs4.
  rewrite H4 in Hs4. cbn [snd] in Hs4.
  apply timed_registration_run in H4.
  destruct H4 as [evs4 [initial1 [final1 [Ht4 [Hi4 Hf4]]]]].
  assert (initial1 = initial) as -> by congruence.
  destruct (timed_registration _ _ _ sitkNearestNeighbor _ _ w4)
    as [[errors2 | e] w5] eqn:H5; [| discriminate H].
  apply timed_registration_run in H5.
  destruct H5 as [evs5 [initial2 [final2 [Ht5 [Hi5 Hf5]]]]].
  assert (initial2 = initial) as -> by congruence.
  apply compare_cell_run in H. destruct H as [evs6 [Ht6 Hf6]].
  exists (evs0 ++ evs1 ++ evs2 ++ evs3 ++ evs4 ++ evs5 ++ evs6),
    (fixed_image d), (moving_image d), resampled,
    (fixed_points d), (moving_points d), initial, final1, final2, errors1, errors2.
  split; [rewrite Ht6, Ht5, Ht4, Ht3, Ht2, Ht1, Ht0, <- !app_assoc; reflexivity |].
  split; [| split; assumption].
  rewrite !filter_map_app, Hf0, Hf1, Hf2, Hf3, Hf4, Hf5, Hf6. reflexivity.
Qed.

End DataFlow.

(** ** Runs of the registration notebook, call by call *)

Lemma getitem_Raise_length {E A} (l : list A) (i : Z) (e : Exn E) :
  0 <= i -> getitem (E := E) l i = Raise e -> (List.length l <= Z.to_nat i)%nat.
Proof.
  intros Hi. unfold getitem.
  destruct (i <? 0) eqn:Hneg; [apply Z.ltb_lt in Hneg; lia |].
  destruct ((0 <=? i) && (i <? Z.of_nat (List.length l))) eqn:Hb.
  - apply andb_true_iff in Hb. destruct Hb as [_ Hb]. apply Z.ltb_lt in Hb.
    destruct (nth_error l (Z.to_nat i)) eqn:Hn; [discriminate |].
    intros _. apply nth_error_None in Hn. exact Hn.
  - intros _. apply andb_false_iff in Hb. destruct Hb as [Hb | Hb].
    + apply Z.leb_gt in Hb. lia.
    + apply Z.ltb_ge in Hb. lia.
Qed.

(** As [run_hyp], for a run with any outcome; a transform object that was
    just written is read back. *)
Ltac run_cell H :=
  repeat (first
    [ rewrite nth_error_snoc_last in H
    | rewrite nth_error_list_set_same in H
        by (rewrite ?length_list_set, ?length_app; cbn; lia)
    | match type of H with
      | context [lib ?A ?c ?e] => destruct (lib A c e) as [[? | ?] ?]
      | context [mapM ?g ?l ?w] => destruct (mapM g l w) as [? ?] eqn:?
      | context [match ?x with Ok _ => _ | Raise _ => _ end] => destruct x eqn:?
      | context [match ?b with true => _ | false => _ end] => destruct b eqn:?
      | context [match ?x with Some _ => _ | None => _ end] => destruct x eqn:?
      | context [let (_, _) := ?p in _] => is_var p; destruct p
      end ];
    cbn -[getitem resampled_image_size mapM] in H).

Section NotebookRuns.
Context {T : LibTypes} {L : Library}.

(** The calls of the comprehension over the fixed points: all of them
    transform a point, and the comprehension returns when none fails and
    the transform exists. *)
Lemma mapM_TransformPoint_events (tx : TransformRef) (l : list Point)
  (w w' : World) (r : Result LibExn (list Point)) (v : TransformV) :
  nth_error (store w) tx = Some v ->
  mapM (TransformPoint tx) l w = (r, w') ->
  store w' = store w
  /\ exists evs,
       trace w' = trace w ++ evs
       /\ (forall X (f : Event -> option X),
             (forall v p out, f (Ev (tx_TransformPoint v p) out) = None) ->
             filter_map f evs = [])
       /\ (forallb succeeded evs = true -> exists bs, r = Ok bs).
Proof.
  revert w w' r. induction l as [| p l IH]; intros w w' r Hv H; cbn [mapM] in H.
  - injection H as <- <-. split; [reflexivity |].
    exists []. split; [symmetry; apply app_nil_r |].
    split; [reflexivity | intros _; eexists; reflexivity].
  - unfold bind at 1 in H. unfold TransformPoint at 1 in H.
    unfold bind at 1, deref, call in H. rewrite Hv in H. cbn in H.
    destruct (lib _ _ (env w)) as [[q | e] env']; cbn in H.
    + unfold bind at 1 in H.
      match type of H with context [mapM _ l ?w1] =>
        destruct (mapM (TransformPoint tx) l w1) as [r1 w1'] eqn:Hrest end.
      apply IH in Hrest; [| exact Hv].
      destruct Hrest as [Hs [evs [Ht [Hf Hc]]]]. cbn in Hs, Ht.
      destruct r1 as [bs | e]; cbn in H; injection H as <- <-.
      * split; [exact Hs |].
        eexists. split; [rewrite Ht, <- app_assoc; reflexivity |].
        split; [| intros _; eexists; reflexivity].
        intros X f Hnone. cbn. rewrite Hnone. apply Hf. exact Hnone.
      * split; [exact Hs |].
        eexists. split; [rewrite Ht, <- app_assoc; reflexivity |].
        split.
        -- intros X f Hnone. cbn. rewrite Hnone. apply Hf. exact Hnone.
        -- cbn. intros Hall. destruct (Hc Hall) as [bs Hbs]. discriminate Hbs.
    + injection H as <- <-. cbn. split; [reflexivity |].
      eexists. split; [reflexivity |]. split.
      * intros X f Hnone. cbn. rewrite Hnone. reflexivity.
      * cbn. intros Hall. discriminate Hall.
Qed.

Lemma load_data_cell_events (w : World) :
  exists evs ct mr gt,
    trace (snd (load_data_cell w)) = trace w ++ evs
    /\ prefix (filter_map file_access evs)
         [Fetched "training_001_ct.mha" ct; ImageRead ct;
          Fetched "training_001_mr_T1.mha" mr; ImageRead mr;
          Fetched "ct_T1.standard" gt; GroundTruthRead gt]
    /\ (forall d, fst (load_data_cell w) = Ok d ->
          filter_map file_access evs =
            [Fetched "training_001_ct.mha" ct; ImageRead ct;
             Fetched "training_001_mr_T1.mha" mr; ImageRead mr;
             Fetched "ct_T1.standard" gt; GroundTruthRead gt]
          /\ filter_map read_image evs = [fixed_image d; moving_image d])
    /\ (forallb succeeded evs = true ->
        (forall fixed moving, filter_map read_image evs = [fixed; moving] ->
           (3 <= GetDimension fixed)%nat /\ (3 <= GetDimension moving)%nat) ->
        exists d, fst (load_data_cell w) = Ok d).
Proof.
  destruct (load_data_cell w) as [r w'] eqn:H.
  unfold load_data_cell, sitk_Euler3DTransform, SetMatrix, SetTranslation in H.
  unfold bind, call, lift, ret, alloc, deref, assign in H.
  cbn -[getitem mapM] in H.
  run_cell H.
  all: try match goal with Hm : mapM _ _ _ = _ |- _ =>
         eapply mapM_TransformPoint_events in Hm;
         [ destruct Hm as [Hs [evs [Ht [Hf Hc]]]]; cbn in Hs, Ht
         | cbn; apply nth_error_list_set_same;
           rewrite ?length_list_set, ?length_app; cbn; lia ]
       end.
  all: injection H as <- <-; cbn [fst snd trace].
  all: eexists; eexists; eexists; eexists.
  all: (split; [first [ rewrite Ht, <- ?app_assoc; reflexivity | trace_eq ] |]).
  all: rewrite ?filter_map_app, ?forallb_app; cbn -[getitem];
    rewrite ?filter_map_app, ?forallb_app,
      ?(Hf _ file_access (fun _ _ _ => eq_refl)),
      ?(Hf _ read_image (fun _ _ _ => eq_refl)); cbn -[getitem].
  all: (split; [eexists; reflexivity |]).
  all: (split; [intros d Hd; first [discriminate Hd | injection Hd as <-; split; reflexivity] |]).
  all: intros Hall Hreads; rewrite ?andb_false_r in Hall.
  all: try discriminate Hall.
  all: try (eexists; reflexivity).
  all: try (destruct (Hc Hall) as [bs Hbs]; discriminate Hbs).
  all: destruct (Hreads _ _ eq_refl) as [Hd1 Hd2];
    repeat match goal with
      | Hg : getitem (GetSize _) 2 = Raise _ |- _ =>
          apply getitem_Raise_length in Hg; [| lia]
      end;
    unfold GetDimension, GetSize in *; cbn in *; lia.
  Unshelve. all: exact EmptyString.
Qed.

Lemma resamplable_tests (moving_image : Image) (sizes : list Z) :
  resamplable moving_image ->
  resampled_image_size (E := LibExn) (GetSpacing moving_image) (GetSize moving_image)
    (isotropic_spacing (GetDimension moving_image)) = Ok sizes ->
  List.length sizes = GetDimension moving_image
  /\ List.length (GetOrigin moving_image) = GetDimension moving_image
  /\ List.length (GetDirection moving_image)
     = (GetDimension moving_image * GetDimension moving_image)%nat.
Proof.
  intros [[Hsp [Hor Hdir]] _] Hsizes.
  split; [| split; assumption].
  apply comprehension_length in Hsizes. rewrite Hsizes.
  apply zip3_length_same; [exact Hsp |].
  unfold isotropic_spacing. apply repeat_length.
Qed.

Lemma resampling_cell_events (moving_image : Image) (w : World) :
  runs_through (resamplable moving_image) (resampling_cell moving_image) w.
Proof.
  unfold runs_through.
  destruct (resampling_cell moving_image w) as [r w'] eqn:H.
  unfold resampling_cell, sitk_Image, SetSpacing, SetOrigin, SetDirection,
    sitk_Transform, rf_SetTransform, rf_Execute in H.
  unfold bind, call, lift, ret, raise, alloc, deref in H.
  cbn -[resampled_image_size] in H.
  run_cell H.
  all: injection H as <- <-; cbn [fst snd trace].
  all: eexists; (split; [trace_eq |]).
  all: cbn; (split; [reflexivity |]); (split; [reflexivity |]).
  all: intros Hall Hres; try discriminate Hall; try (eexists; reflexivity).
  all: exfalso.
  all: match goal with
       | Hsize : resampled_image_size _ _ _ = Raise _ |- _ =>
           destruct Hres as [_ [sizes Hs]]; rewrite Hs in Hsize; discriminate Hsize
       | Hsize : resampled_image_size _ _ _ = Ok _ |- _ =>
           destruct (resamplable_tests _ _ Hres Hsize) as [Hl [Hor Hdir]]
       end.
  all: unfold isotropic_spacing in *; rewrite ?repeat_length in *.
  all: repeat match goal with
       | Hb : (_ <=? _)%nat = false |- _ => apply Nat.leb_gt in Hb
       | Hb : (_ =? _)%nat = false |- _ => apply Nat.eqb_neq in Hb
       end.
  all: rewrite ?Hl, ?Hor, ?Hdir in *; lia.
Qed.

Lemma initial_alignment_cell_events (pre : Prop)
  (fixed_image moving_image : Image) (w : World) :
  runs_through pre (initial_alignment_cell fixed_image moving_image) w.
Proof.
  unfold runs_through.
  destruct (initial_alignment_cell fixed_image moving_image w) as [r w'] eqn:H.
  unfold initial_alignment_cell, sitk_Euler3DTransform in H.
  unfold bind, call, lift, ret, raise, alloc, deref in H.
  cbn in H.
  run_cell H.
  all: injection H as <- <-; cbn [fst snd trace].
  all: eexists; (split; [trace_eq |]).
  all: cbn; (split; [reflexivity |]); (split; [reflexivity |]).
  all: intros Hall _; try discriminate Hall; eexists; reflexivity.
Qed.

Lemma timed_registration_events (pre : Prop) (fixed_image moving_image : Image)
  (initial_transform : TransformRef) (interpolator : Interpolator)
  (fixed_points moving_points : list Point) (w : World) (v : TransformV) :
  nth_error (store w) initial_transform = Some v ->
  runs_through pre
    (timed_registration fixed_image moving_image initial_transform
       interpolator fixed_points moving_points) w.
Proof.
  intros Hv. unfold runs_through.
  destruct (timed_registration fixed_image moving_image initial_transform
              interpolator fixed_points moving_points w) as [r w'] eqn:H.
  unfold timed_registration, register_images, Execute in H.
  unfold bind, call, lift, ret, raise, alloc, deref in H.
  cbn in H. rewrite Hv in H. cbn in H.
  run_cell H.
  all: injection H as <- <-; cbn [fst snd trace].
  all: eexists; (split; [trace_eq |]).
  all: cbn; (split; [reflexivity |]); (split; [reflexivity |]).
  all: intros Hall _; try discriminate Hall; eexists; reflexivity.
Qed.

Lemma calls_events {A} (pre : Prop) (m : M A) :
  completes m -> silent file_access m -> silent read_image m ->
  forall w, runs_through pre m w.
Proof.
  intros Hc Hf Hr w.
  destruct (Hc w) as [evs [Ht Hall]].
  destruct (Hf w) as [evs1 [Ht1 Hf1]].
  destruct (Hr w) as [evs2 [Ht2 Hr2]].
  assert (evs1 = evs) as -> by (rewrite Ht in Ht1; apply app_inv_head in Ht1; congruence).
  assert (evs2 = evs) as -> by (rewrite Ht in Ht2; apply app_inv_head in Ht2; congruence).
  exists evs. auto.
Qed.

Lemma runs_through_bind {A B} (pre : Prop) (m : M A) (k : A -> M B) (w : World) :
  runs_through pre m w ->
  (forall a w1, m w = (Ok a, w1) -> runs_through pre (k a) w1) ->
  runs_through pre (bind m k) w.
Proof.
  intros [evs1 [Ht1 [Hf1 [Hr1 Hc1]]]] Hk. unfold runs_through, bind.
  destruct (m w) as [[a | e] w1] eqn:Hm; cbn [fst snd] in *.
  - destruct (Hk a w1 eq_refl) as [evs2 [Ht2 [Hf2 [Hr2 Hc2]]]].
    exists (evs1 ++ evs2). split; [rewrite Ht2, Ht1, app_assoc; reflexivity |].
    rewrite !filter_map_app, Hf1, Hf2, Hr1, Hr2, forallb_app.
    split; [reflexivity |]. split; [reflexivity |].
    intros Hall Hpre. apply andb_true_iff in Hall. apply Hc2; tauto.
  - exists evs1. split; [exact Ht1 |]. split; [exact Hf1 |]. split; [exact Hr1 |].
    intros Hall Hpre. destruct (Hc1 Hall Hpre) as [a Ha]. discriminate Ha.
Qed.

Lemma completes_ret {A} (a : A) : completes (ret a).
Proof.
  intros w. exists []. split; [symmetry; apply app_nil_r |].
  intros _. exists a. reflexivity.
Qed.

Lemma completes_call {A} (c : LibCall A) : completes (call c).
Proof.
  intros w. unfold call.
  destruct (lib A c (env w)) as [[a | e] env']; cbn.
  - exists [Ev c (Ok a)]. split; [reflexivity |]. intros _. exists a. reflexivity.
  - exists [Ev c (Raise e)]. split; [reflexivity |]. intros Hall. discriminate Hall.
Qed.

Lemma completes_bind {A B} (m : M A) (k : A -> M B) :
  completes m -> (forall a, completes (k a)) -> completes (bind m k).
Proof.
  intros Hm Hk w. unfold bind.
  destruct (Hm w) as [evs1 [Ht1 Hc1]].
  destruct (m w) as [[a | e] w1]; cbn [fst snd] in *.
  - destruct (Hk a w1) as [evs2 [Ht2 Hc2]].
    exists (evs1 ++ evs2). split; [rewrite Ht2, Ht1, app_assoc; reflexivity |].
    rewrite forallb_app. intros Hall. apply andb_true_iff in Hall.
    apply Hc2. tauto.
  - exists evs1. split; [exact Ht1 |]. intros Hall.
    destruct (Hc1 Hall) as [a Ha]. discriminate Ha.
Qed.

(** Shows that a computation made of calls returns when no call fails. *)
Ltac complete :=
  repeat first
    [ apply completes_ret
    | apply completes_call
    | apply completes_bind; [| intros] ].

Lemma setup_cell_events (pre : Prop) (w : World) :
  runs_through pre setup_cell w.
Proof.
  apply calls_events; unfold setup_cell; [complete | silence | silence].
Qed.

Lemma compare_cell_events (pre : Prop) (errors1 errors2 : list float) (w : World) :
  runs_through pre (compare_cell errors1 errors2) w.
Proof.
  apply calls_events; unfold compare_cell; [complete | silence | silence].
Qed.


(** The cells after the data-loading cell. *)
Lemma after_loading_events (d : Loaded) (w : World) :
  runs_through (resamplable (moving_image d))
    (resampled_moving_image <- resampling_cell (moving_image d) ;;
     initial_transform <- initial_alignment_cell (fixed_image d) (moving_image d) ;;
     original_resolution_errors <- original_resolution_cell d initial_transform ;;
     resampled_resolution_errors <-
       higher_resolution_cell d resampled_moving_image initial_transform ;;
     compare_cell original_resolution_errors resampled_resolution_errors) w.
Proof.
  apply runs_through_bind; [apply resampling_cell_events | intros resampled w1 _].
  apply runs_through_bind;
    [apply initial_alignment_cell_events | intros initial_transform w2 H2].
  destruct (initial_alignment_cell_alloc _ _ _ _ _ H2) as [v Hv].
  unfold original_resolution_cell, higher_resolution_cell.
  apply runs_through_bind;
    [apply (timed_registration_events _ _ _ _ _ _ _ _ v Hv) | intros errors1 w3 H3].
  assert (Hv3 : nth_error (store w3) initial_transform = Some v).
  { pose proof (writes_only_timed_registration (fun _ => False)
                  (fixed_image d) (moving_image d) initial_transform sitkLinear
                  (fixed_points d) (moving_points d) w2 initial_transform v
                  (fun F => F) Hv) as Hs.
    rewrite H3 in Hs. exact Hs. }
  apply runs_through_bind;
    [apply (timed_registration_events _ _ _ _ _ _ _ _ v Hv3) | intros errors2 w4 _].
  apply compare_cell_events.
Qed.

Lemma registration_notebook_events (w : World) :
  exists evs ct mr gt,
    trace (snd (registration_notebook w)) = trace w ++ evs
    /\ prefix (filter_map file_access evs)
         [Fetched "training_001_ct.mha" ct; ImageRead ct;
          Fetched "training_001_mr_T1.mha" mr; ImageRead mr;
          Fetched "ct_T1.standard" gt; GroundTruthRead gt]
    /\ (fst (registration_notebook w) = Ok tt ->
        filter_map file_access evs =
          [Fetched "training_001_ct.mha" ct; ImageRead ct;
           Fetched "training_001_mr_T1.mha" mr; ImageRead mr;
           Fetched "ct_T1.standard" gt; GroundTruthRead gt])
    /\ (forallb succeeded evs = true ->
        (forall fixed moving, filter_map read_image evs = [fixed; moving] ->
           (3 <= GetDimension fixed)%nat /\ (3 <= GetDimension moving)%nat
           /\ resamplable moving) ->
        fst (registration_notebook w) = Ok tt).
Proof.
  destruct (registration_notebook w) as [r w'] eqn:H. cbn [fst snd].
  unfold registration_notebook in H.
  destruct (setup_cell_events True w) as [evs0 [Ht0 [Hf0 [Hr0 Hc0]]]].
  unfold bind at 1 in H.
  destruct (setup_cell w) as [[[] | e] w0]; cbn [fst snd] in *.
  2: { injection H as <- <-.
       exists evs0, EmptyString, EmptyString, EmptyString.
       split; [exact Ht0 |]. rewrite Hf0.
       split; [apply prefix_nil |]. split; [discriminate |].
       intros Hall _. destruct (Hc0 Hall I) as [a Ha]. discriminate Ha. }
  destruct (load_data_cell_events w0)
    as [evs1 [ct [mr [gt [Ht1 [Hp1 [Hok1 Hc1]]]]]]].
  unfold bind at 1 in H.
  destruct (load_data_cell w0) as [[d | e] w1]; cbn [fst snd] in *.
  2: { injection H as <- <-.
       exists (evs0 ++ evs1), ct, mr, gt.
       split; [rewrite Ht1, Ht0, app_assoc; reflexivity |].
       rewrite !filter_map_app, Hf0, Hr0, forallb_app. cbn [app].
       split; [exact Hp1 |]. split; [discriminate |].
       intros Hall Hreads. apply andb_true_iff in Hall.
       destruct Hc1 as [d Hd]; [tauto | | discriminate Hd].
       intros fixed moving Hfm. destruct (Hreads fixed moving Hfm). tauto. }
  destruct (Hok1 d eq_refl) as [Hfiles Hreads1].
  destruct (after_loading_events d w1) as [evs2 [Ht2 [Hf2 [Hr2 Hc2]]]].
  rewrite H in Ht2, Hc2. cbn [fst snd] in Ht2, Hc2.
  exists (evs0 ++ evs1 ++ evs2), ct, mr, gt.
  split; [rewrite Ht2, Ht1, Ht0, <- !app_assoc; reflexivity |].
  rewrite !filter_map_app, Hf0, Hr0, Hf2, Hr2, Hfiles, Hreads1, !forallb_app, !app_nil_r.
  cbn [app].
  split; [apply prefix_refl |]. split; [reflexivity |].
  intros Hall Hreads.
  apply andb_true_iff in Hall. destruct Hall as [_ Hall].
  apply andb_true_iff in Hall. destruct Hall as [_ Hall].
  destruct (Hreads _ _ eq_refl) as [_ [_ Hres]].
  destruct (Hc2 Hall Hres) as [[] Ha]. exact Ha.
Qed.

(** C3: the demonstration loads the two images and the fiducials,
    resamples, registers with linear interpolation and computes the error
    statistics, registers with nearest-neighbor interpolation and computes
    the error statistics, and plots the two histograms, in this order; each
    registration is one call of the library, and both start from the same
    initial alignment.  The run performs all of these steps whenever no
    library call fails and the two images read have three dimensions at
    least, the moving one being an image whose resampled size can be
    computed; a run that raises has performed an initial segment of
    them. *)
Theorem registration_notebook_demonstration (w : World) :
  exists evs,
    trace (snd (registration_notebook w)) = trace w ++ evs
    /\ prefix (steps evs)
         [LoadImage; LoadImage; LoadFiducials; Resample;
          Register (Some sitkLinear); ErrorStatistics;
          Register (Some sitkNearestNeighbor); ErrorStatistics;
          Histogram; Histogram]
    /\ (fst (registration_notebook w) = Ok tt ->
        steps evs =
          [LoadImage; LoadImage; LoadFiducials; Resample;
           Register (Some sitkLinear); ErrorStatistics;
           Register (Some sitkNearestNeighbor); ErrorStatistics;
           Histogram; Histogram])
    /\ same_initial (registration_initials evs)
    /\ (forallb succeeded evs = true ->
        (forall fixed moving, filter_map read_image evs = [fixed; moving] ->
           (3 <= GetDimension fixed)%nat /\ (3 <= GetDimension moving)%nat
           /\ resamplable moving) ->
        fst (registration_notebook w) = Ok tt).
Proof.
  destruct (registration_notebook_steps w) as [evs [Htrace Hobs]].
  destruct (registration_notebook_same_initial w) as [evs' [Htrace' Hsame]].
  assert (evs' = evs) as ->.
  { rewrite Htrace in Htrace'. apply app_inv_head in Htrace'. congruence. }
  destruct (registration_notebook_events w)
    as [evs2 [ct [mr [gt [Htrace2 [_ [_ Hruns]]]]]]].
  assert (evs2 = evs) as ->.
  { rewrite Htrace in Htrace2. apply app_inv_head in Htrace2. congruence. }
  exists evs. split; [exact Htrace |].
  fold (steps evs) in Hobs.
  split; [| split; [| split]].
  - destruct (fst (registration_notebook w)); [rewrite Hobs; apply prefix_refl | exact Hobs].
  - intros Hok. rewrite Hok in Hobs. exact Hobs.
  - exact Hsame.
  - exact Hruns.
Qed.

(** C7, amended: the effects of the notebook outside the Python process
    are, in order, the imports and magics of its first cell, the fetch and
    read of the CT image, of the MR image and of the ground-truth file, the
    slice viewer, three console lines of the resampling cell (two grid
    reports and the memory ratio), for each of the two registrations the
    stop condition, the error statistics and the timing report, and the
    four plotting calls (an initial segment of these when a cell raises,
    and all of them when no library call fails and the images read are
    volumes the resampling accepts).  Each file is read at the path the
    dataset fetch returned for it: the first image at the path fetched for
    [training_001_ct.mha], the second image at the path fetched for
    [training_001_mr_T1.mha], the ground truth at the path fetched for
    [ct_T1.standard]. *)
Theorem registration_notebook_external_effects (w : World) :
  exists evs,
    trace (snd (registration_notebook w)) = trace w ++ evs
    /\ prefix (effects evs)
         [Setup "SimpleITK"; Setup "numpy"; Setup "matplotlib inline";
          Setup "matplotlib.pyplot"; Setup "run update_path_to_download_script";
          Setup "downloaddata"; Setup "registration_utilities"; Setup "ipywidgets";
          Fetch "training_001_ct.mha"; ReadImageFile;
          Fetch "training_001_mr_T1.mha"; ReadImageFile;
          Fetch "ct_T1.standard"; ReadGroundTruthFile;
          Display;
          Console GridReport; Console GridReport; Console MemoryRatio;
          Console StopCondition; Console ErrorReport; Console TimingReport;
          Console StopCondition; Console ErrorReport; Console TimingReport;
          Display; Display; Display; Display]
    /\ (fst (registration_notebook w) = Ok tt ->
        effects evs =
          [Setup "SimpleITK"; Setup "numpy"; Setup "matplotlib inline";
           Setup "matplotlib.pyplot"; Setup "run update_path_to_download_script";
           Setup "downloaddata"; Setup "registration_utilities"; Setup "ipywidgets";
           Fetch "training_001_ct.mha"; ReadImageFile;
           Fetch "training_001_mr_T1.mha"; ReadImageFile;
           Fetch "ct_T1.standard"; ReadGroundTruthFile;
           Display;
           Console GridReport; Console GridReport; Console MemoryRatio;
           Console StopCondition; Console ErrorReport; Console TimingReport;
           Console StopCondition; Console ErrorReport; Console TimingReport;
           Display; Display; Display; Display])
    /\ reads_fetched evs
    /\ (exists ct mr gt,
          prefix (filter_map file_access evs)
            [Fetched "training_001_ct.mha" ct; ImageRead ct;
             Fetched "training_001_mr_T1.mha" mr; ImageRead mr;
             Fetched "ct_T1.standard" gt; GroundTruthRead gt]
          /\ (fst (registration_notebook w) = Ok tt ->
              filter_map file_access evs =
                [Fetched "training_001_ct.mha" ct; ImageRead ct;
                 Fetched "training_001_mr_T1.mha" mr; ImageRead mr;
                 Fetched "ct_T1.standard" gt; GroundTruthRead gt]))
    /\ (forallb succeeded evs = true ->
        (forall fixed moving, filter_map read_image evs = [fixed; moving] ->
           (3 <= GetDimension fixed)%nat /\ (3 <= GetDimension moving)%nat
           /\ resamplable moving) ->
        fst (registration_notebook w) = Ok tt).
Proof.
  destruct (registration_notebook_effects w) as [evs [Htrace Hobs]].
  destruct (registration_notebook_reads_fetched w) as [evs' [Htrace' Hreads]].
  assert (evs' = evs) as ->.
  { rewrite Htrace in Htrace'. apply app_inv_head in Htrace'. congruence. }
  destruct (registration_notebook_events w)
    as [evs2 [ct [mr [gt [Htrace2 [Hprefix [Hfiles Hruns]]]]]]].
  assert (evs2 = evs) as ->.
  { rewrite Htrace in Htrace2. apply app_inv_head in Htrace2. congruence. }
  exists evs. split; [exact Htrace |].
  fold (effects evs) in Hobs.
  split; [| split; [| split; [| split]]].
  - destruct (fst (registration_notebook w)); [rewrite Hobs; apply prefix_refl | exact Hobs].
  - intros Hok. rewrite Hok in Hobs. exact Hobs.
  - exact Hreads.
  - exists ct, mr, gt. split; [exact Hprefix | exact Hfiles].
  - exact Hruns.
Qed.

End NotebookRuns.

(** * Runs on the test double *)

Module OnTestLibrary.
Import TestLibrary.
#[local] Existing Instance types.
#[local] Existing Instance library.

Lemma register_images_configures_and_executes_once_witness :
  let w := mkWorld None [10] [] in
  let run := register_images ct_image mr_image 0%nat sitkLinear w in
  exists outcome,
    trace (snd run) =
      trace w ++
      [Ev (sitk_Registration_Execute
             (mkSettings (Some (MattesMutualInformation 50)) (Some REGULAR)
                (Some f0_01) (Some sitkLinear)
                (Some (GradientDescent f1_0 1000)) (Some ScalesFromPhysicalShift))
             (Some 10) ct_image mr_image) outcome]
    /\ match outcome with
       | Ok (v', description) =>
           exists final_transform,
             fst run = Ok (final_transform, description)
             /\ nth_error (store (snd run)) final_transform = Some v'
       | Raise e => fst run = Raise e
       end.
Proof.
  exact (register_images_configures_and_executes_once ct_image mr_image 0%nat
           sitkLinear (mkWorld None [10] []) 10 eq_refl).
Defined.

Lemma register_images_preserves_initial_transform_witness :
  let w := mkWorld None [10] [] in
  let w1 := snd (register_images ct_image mr_image 0%nat
                   sitkLinear w) in
  let w2 := snd (register_images ct_image mr_image 0%nat
                   sitkNearestNeighbor w1) in
  nth_error (store w1) 0%nat = Some 10
  /\ nth_error (store w2) 0%nat = Some 10
  /\ registration_initials (trace w2) =
       registration_initials (trace w) ++ [Some 10; Some 10].
Proof.
  exact (register_images_preserves_initial_transform ct_image mr_image mr_image
           0%nat sitkLinear sitkNearestNeighbor (mkWorld None [10] []) 10 eq_refl).
Defined.

(** With [inPlace=True] the same [Execute] does write the caller's object:
    the flag [register_images] passes is what keeps it unchanged. *)
Example in_place_overwrites :
  let w := mkWorld None [10] [] in
  let rm := SetInitialTransform sitk_ImageRegistrationMethod 0%nat true in
  store (snd (Execute rm ct_image mr_image w)) = [11; 11]
  /\ store (snd (register_images ct_image mr_image 0%nat
                   sitkLinear w)) = [10; 11].
Proof. split; reflexivity. Qed.

Lemma resampling_cell_grid_witness :
  let run := resampling_cell mr_image (fresh None) in
  let resampled := match fst run with Ok img => img | Raise _ => mr_image end in
  GetSpacing resampled = repeat f1_0 (GetDimension mr_image)
  /\ GetOrigin resampled = GetOrigin mr_image
  /\ GetDirection resampled = GetDirection mr_image
  /\ GetPixelID resampled = GetPixelID mr_image
  /\ (Forall (fun s => fltb f1_0 s = true) (GetSpacing mr_image) ->
      Forall2 (fun new old => fltb new old = true)
        (GetSpacing resampled) (GetSpacing mr_image)).
Proof.
  apply (resampling_cell_grid mr_image _ (fresh None)
           (snd (resampling_cell mr_image (fresh None)))).
  - repeat split.
  - vm_compute. reflexivity.
Defined.

(** The MR volume is resampled to 320 x 320 x 104 voxels of 1 mm. *)
Example resampling_cell_rire :
  match fst (resampling_cell mr_image (fresh None)) with
  | Ok img => GetSize img = [320; 320; 104] /\ GetSpacing img = [f1_0; f1_0; f1_0]
  | Raise _ => False
  end.
Proof. vm_compute. split; reflexivity. Qed.

Lemma library_failures_propagate_witness :
  let w := mkWorld (Some 0%nat) [10] [] in
  let c := sitk_Registration_Execute
             (mkSettings (Some (MattesMutualInformation 50)) (Some REGULAR)
                (Some f0_01) (Some sitkLinear)
                (Some (GradientDescent f1_0 1000)) (Some ScalesFromPhysicalShift))
             (Some 10) ct_image mr_image in
  let e := injected_failure in
  fst (register_images ct_image mr_image 0%nat sitkLinear w) = Raise e
  /\ exists before, [Ev c (Raise e)] = before ++ [Ev c (Raise e)]
                    /\ forallb succeeded before = true.
Proof.
  exact (proj1 library_failures_propagate ct_image mr_image 0%nat sitkLinear
           (mkWorld (Some 0%nat) [10] []) _ _ _ _ eq_refl (or_introl eq_refl)).
Defined.

(** Code that retries does not propagate: the property of C5 is not one
    every computation has. *)
Example retry_does_not_propagate :
  ~ propagates_failures (retry (fdata "ct_T1.standard")).
Proof.
  intros H.
  destruct (H (fresh (Some 0%nat))
              [Ev (fdata "ct_T1.standard") (Raise injected_failure);
               Ev (fdata "ct_T1.standard") (Ok "ct_T1.standard"%string)]
              _ (fdata "ct_T1.standard") injected_failure
              eq_refl (or_introl eq_refl)) as [Hfst _].
  discriminate Hfst.
Qed.

(** C6, as stated, fails: the notebook also demonstrates the Gaussian
    interpolator, which is none of the rules the glossary names. *)
Lemma gaussian_is_demonstrated :
  In sitkGaussian
    (demonstrated_interpolators (trace (snd (expand_notebook (fresh None)))))
  /\ named_by_glossary sitkGaussian = false.
Proof.
  split; [| reflexivity].
  vm_compute. tauto.
Qed.

(** C7, as stated, fails: the notebook also prints the grid of the
    original and of the resampled image, which is neither an error
    statistic nor a stop condition. *)
Lemma notebook_prints_grid_report :
  fst (registration_notebook (fresh None)) = Ok tt
  /\ In (Console GridReport)
       (effects (trace (snd (registration_notebook (fresh None)))))
  /\ listed_effect (Console GridReport) = false.
Proof.
  split; [vm_compute; reflexivity |].
  split; [| reflexivity].
  vm_compute. tauto.
Qed.

(** The whole demonstration on the test double. *)
Example registration_notebook_run :
  steps (trace (snd (registration_notebook (fresh None)))) =
    [LoadImage; LoadImage; LoadFiducials; Resample;
     Register (Some sitkLinear); ErrorStatistics;
     Register (Some sitkNearestNeighbor); ErrorStatistics;
     Histogram; Histogram]
  /\ registration_initials (trace (snd (registration_notebook (fresh None)))) =
       [Some 10; Some 10]
  /\ store (snd (registration_notebook (fresh None))) = [0; 0; 0; 10; 11; 11].
Proof. vm_compute. repeat split. Qed.

(** A missing ground-truth file ends the notebook after six calls of the
    data-loading cell, with the exception of the fetch. *)
Example registration_notebook_missing_file :
  fst (registration_notebook (fresh (Some 12%nat))) = Raise injected_failure
  /\ effects (trace (snd (registration_notebook (fresh (Some 12%nat))))) =
       [Setup "SimpleITK"; Setup "numpy"; Setup "matplotlib inline";
        Setup "matplotlib.pyplot"; Setup "run update_path_to_download_script";
        Setup "downloaddata"; Setup "registration_utilities"; Setup "ipywidgets";
        Fetch "training_001_ct.mha"; ReadImageFile;
        Fetch "training_001_mr_T1.mha"; ReadImageFile;
        Fetch "ct_T1.standard"].
Proof. vm_compute. split; reflexivity. Qed.

Lemma marschner_lobb_source_witness :
  (40 = 0 -> marschner_lobb 40 f0_25 f6_0 (fresh None) = (Raise ZeroDivisionError, fresh None))
  /\ (40 <> 0 ->
      exists n out evs,
        of_int (E := string) 40 = Ok n
        /\ (to_Q n == inject_Z 40)%Q
        /\ trace (snd (marschner_lobb 40 f0_25 f6_0 (fresh None))) =
           trace (fresh None) ++
           Ev (sitk_PhysicalPointSource sitkVectorFloat32 [40; 40; 40]
                 [-1; -1; -1]
                 [fdiv_ieee f2_0 n; fdiv_ieee f2_0 n; fdiv_ieee f2_0 n]) out
           :: evs).
Proof.
  exact (marschner_lobb_source 40 f0_25 f6_0 (fresh None) (conj eq_refl eq_refl)).
Defined.

Lemma load_data_cell_loaded_witness :
  let run := load_data_cell (fresh None) in
  let d := match fst run with
           | Ok d => d
           | Raise _ => mkLoaded ct_image mr_image 0%nat [] []
           end in
  List.length (moving_points d) = List.length (fixed_points d)
  /\ (3 <= GetDimension (fixed_image d))%nat
  /\ (3 <= GetDimension (moving_image d))%nat
  /\ reference_transform d = List.length (store (fresh None))
  /\ exists v, nth_error (store (snd run)) (reference_transform d) = Some v.
Proof.
  apply (load_data_cell_loaded (fresh None) (snd (load_data_cell (fresh None)))).
  vm_compute. reflexivity.
Defined.

Lemma resampling_cell_resamples_moving_image_witness :
  let run := resampling_cell mr_image (fresh None) in
  let resampled := match fst run with Ok img => img | Raise _ => mr_image end in
  exists evs f v,
    trace (snd run) = trace (fresh None) ++ evs
    /\ filter_map resample_call evs = [(f, mr_image)]
    /\ filter_map resample_answer evs = [(mr_image, img_pixels resampled)]
    /\ filter_map identity_answer evs = [v]
    /\ rf_interpolator f = sitkBSpline
    /\ rf_transform f = Some v
    /\ rf_size f = GetSize resampled
    /\ rf_spacing f = GetSpacing resampled
    /\ rf_origin f = GetOrigin resampled
    /\ rf_direction f = GetDirection resampled
    /\ resampled_image_size (E := string) (GetSpacing mr_image) (GetSize mr_image)
         (isotropic_spacing (GetDimension mr_image)) = Ok (GetSize resampled).
Proof.
  apply (resampling_cell_resamples_moving_image mr_image _ (fresh None)
           (snd (resampling_cell mr_image (fresh None)))).
  vm_compute. reflexivity.
Defined.

Lemma registration_notebook_data_flow_witness :
  exists evs fixed moving resampled fixed_points moving_points
         initial final1 final2 errors1 errors2,
    trace (snd (registration_notebook (fresh None))) = trace (fresh None) ++ evs
    /\ filter_map flow evs =
         [WasRead fixed; WasRead moving; Drawn fixed 1000 fixed_points;
          Resampled moving (img_pixels resampled);
          Aligned fixed moving initial;
          Registered fixed moving (Some initial) final1;
          Evaluated final1 fixed_points moving_points errors1;
          Registered fixed resampled (Some initial) final2;
          Evaluated final2 fixed_points moving_points errors2;
          Plotted errors1 "original resolution";
          Plotted errors2 "higher resolution"]
    /\ List.length moving_points = List.length fixed_points
    /\ resampled_image_size (E := string) (GetSpacing moving) (GetSize moving)
         (isotropic_spacing (GetDimension moving)) = Ok (GetSize resampled).
Proof.
  apply (registration_notebook_data_flow (fresh None)
           (snd (registration_notebook (fresh None)))).
  vm_compute. reflexivity.
Defined.

(** On the test double, the two registrations run on the MR volume and
    on its resampled copy of 320 x 320 x 104 voxels. *)
Example registration_notebook_moving_images :
  map (fun x => GetSize (snd x))
    (filter_map registration_images
       (trace (snd (registration_notebook (fresh None))))) =
    [[256; 256; 26]; [320; 320; 104]].
Proof. vm_compute. reflexivity. Qed.

(** On the test double no call fails and the volumes read are the CT and
    the MR volume: the run performs every step. *)
Lemma registration_notebook_demonstration_witness :
  fst (registration_notebook (fresh None)) = Ok tt
  /\ steps (trace (snd (registration_notebook (fresh None)))) =
       [LoadImage; LoadImage; LoadFiducials; Resample;
        Register (Some sitkLinear); ErrorStatistics;
        Register (Some sitkNearestNeighbor); ErrorStatistics;
        Histogram; Histogram].
Proof.
  destruct (registration_notebook_demonstration (fresh None))
    as [evs [Ht [_ [Hok [_ Hruns]]]]].
  cbn [trace fresh app] in Ht. rewrite <- Ht in *.
  assert (Hrun : fst (registration_notebook (fresh None)) = Ok tt).
  { apply Hruns.
    - vm_compute. reflexivity.
    - intros fixed moving Hread. vm_compute in Hread.
      injection Hread as <- <-.
      split; [vm_compute; lia |]. split; [vm_compute; lia |].
      split; [repeat split |].
      eexists. vm_compute. reflexivity. }
  split; [exact Hrun | exact (Hok Hrun)].
Defined.

End OnTestLibrary.
